(** * CryptoEx client-side identity and referral store ([src/auth.js])

    A shallow embedding of the data layer of [auth.js] and the proofs of
    the properties its specification states about it.

    Modelling conventions.
    - A JavaScript string is a [string]: a sequence of code units below
      256 (the Latin-1 range), so [String.length] is [s.length].
    - A value that went through [JSON.parse] is a [json]; objects are
      finite maps from property names to values ([gmap string json]),
      numbers are integers (the program only writes [Date.now()]).
    - [localStorage] is a finite map from keys to strings.  Every write
      is also appended to a journal, so that the order of writes of one
      operation can be stated.
    - [JSON.parse], [JSON.stringify] and the SHA-256 digest are platform
      primitives: they are the fields of the class [Platform].
    - [Date.now()], [location] and [Math.random()] are read from an
      environment [Env] handed to each operation.
    - An operation ends in one of three ways, see [outcome].
    - [register], [login] and [changePassword] are [async].  An
      operation below is the run of a call from its start to the
      settlement of its promise with no other call in between; the two
      parts of [register] around its [await] are given on their own
      ([register_until_await], [register_from_await]) for calls that
      overlap. *)

From stdpp Require Import gmap strings list fin_maps pretty.
From Stdlib Require Import ZArith Ascii String DecimalString DecimalN.

#[local] Set Warnings "-register-all".
#[local] Open Scope Z_scope.
#[local] Open Scope nat_scope.

(** ** Strings: [trim], [toLowerCase] and the e-mail pattern *)

Module Str.

(** White space of [String.prototype.trim] and of the class [\s], for
    code units below 256: TAB, LF, VT, FF, CR, SPACE and NBSP. *)
Definition is_space (c : ascii) : bool :=
  let n := nat_of_ascii c in
  ((9 <=? n) && (n <=? 13)) || (n =? 32) || (n =? 160).

(** [toLowerCase] on one code unit below 256: A-Z and the Latin-1
    capitals (U+00C0-U+00DE without the multiplication sign U+00D7) have
    a small letter, 32 above.  On these strings the conversion maps code
    unit to code unit; beyond them it need not (U+0130 becomes two code
    units), so no statement below takes the validity of an address from
    the validity of another one that has the same lower case. *)
Definition lower_char (c : ascii) : ascii :=
  let n := nat_of_ascii c in
  if ((65 <=? n) && (n <=? 90)) || ((192 <=? n) && (n <=? 214))
     || ((216 <=? n) && (n <=? 222))
  then ascii_of_nat (n + 32) else c.

Fixpoint toLowerCase (s : string) : string :=
  match s with
  | EmptyString => EmptyString
  | String c s' => String (lower_char c) (toLowerCase s')
  end.

Fixpoint ltrim (s : string) : string :=
  match s with
  | EmptyString => EmptyString
  | String c s' => if is_space c then ltrim s' else s
  end.

Fixpoint rtrim (s : string) : string :=
  match s with
  | EmptyString => EmptyString
  | String c s' =>
      match rtrim s' with
      | EmptyString => if is_space c then EmptyString else String c EmptyString
      | r => String c r
      end
  end.

Definition trim (s : string) : string := rtrim (ltrim s).

(** A string is falsy exactly when it is empty. *)
Definition nonempty (s : string) : bool :=
  match s with EmptyString => false | _ => true end.

(** No code unit of the string is white space. *)
Fixpoint no_space (s : string) : bool :=
  match s with
  | EmptyString => true
  | String c s' => negb (is_space c) && no_space s'
  end.

(** Regular expressions over code units, matched with derivatives.
    [Chr p] is a character class given by its membership test. *)
Inductive re : Type :=
| Nul
| Eps
| Chr (p : ascii → bool)
| Seq (r1 r2 : re)
| Alt (r1 r2 : re)
| Star (r : re).

Fixpoint nullable (r : re) : bool :=
  match r with
  | Nul => false
  | Eps => true
  | Chr _ => false
  | Seq r1 r2 => nullable r1 && nullable r2
  | Alt r1 r2 => nullable r1 || nullable r2
  | Star _ => true
  end.

Fixpoint deriv (c : ascii) (r : re) : re :=
  match r with
  | Nul => Nul
  | Eps => Nul
  | Chr p => if p c then Eps else Nul
  | Seq r1 r2 =>
      if nullable r1 then Alt (Seq (deriv c r1) r2) (deriv c r2)
      else Seq (deriv c r1) r2
  | Alt r1 r2 => Alt (deriv c r1) (deriv c r2)
  | Star r1 => Seq (deriv c r1) (Star r1)
  end.

(** [matches r s]: the whole of [s] matches [r], as [/^r$/.test(s)]. *)
Fixpoint matches (r : re) (s : string) : bool :=
  match s with
  | EmptyString => nullable r
  | String c s' => matches (deriv c r) s'
  end.

Definition Plus (r : re) : re := Seq r (Star r).

Definition is_at (c : ascii) : bool := nat_of_ascii c =? 64.
Definition is_dot (c : ascii) : bool := nat_of_ascii c =? 46.

(** The class [[^\s@]]. *)
Definition not_space_at (c : ascii) : bool := negb (is_space c || is_at c).

(** [/^[^\s@]+@[^\s@]+\.[^\s@]{2,}$/] *)
Definition email_re : re :=
  Seq (Plus (Chr not_space_at))
    (Seq (Chr is_at)
       (Seq (Plus (Chr not_space_at))
          (Seq (Chr is_dot)
             (Seq (Chr not_space_at)
                (Seq (Chr not_space_at) (Star (Chr not_space_at))))))).

(** Notions used to reason about trimming and matching *)

Definition head_ok (s : string) : Prop :=
  match s with
  | EmptyString => True
  | String c _ => is_space c = false
  end.

End Str.

(** [isValidEmail(email)], for a string argument. *)
Definition isValidEmail (email : string) : bool :=
  Str.matches Str.email_re (Str.trim email).

(** ** Values that went through [JSON.parse] *)

Inductive json : Type :=
| JNull
| JBool (b : bool)
| JNum (n : Z)
| JStr (s : string)
| JArr (l : list json)
| JObj (m : gmap string json).

(** Truthiness, as tested by [if (x)], [!x] and [x || y]. *)
Definition truthy (v : json) : bool :=
  match v with
  | JNull => false
  | JBool b => b
  | JNum n => negb (n =? 0)%Z
  | JStr s => Str.nonempty s
  | JArr _ | JObj _ => true
  end.

(** How an operation ends. *)
Inductive outcome (A : Type) : Type :=
| Return (a : A)
    (** normal completion with a value *)
| Throw
    (** a JavaScript exception (a [TypeError]) leaves the operation; for
        an [async] function: the promise is rejected *)
| Unmodelled.
    (** the stored data has a shape on which the behaviour depends on the
        built-in prototypes of arrays and primitives, or on the
        strictness mode; no theorem speaks about these runs *)
Arguments Return {A} a.
Arguments Throw {A}.
Arguments Unmodelled {A}.

(** The property names of [Object.prototype]: reading one of them on an
    object that does not own it yields the built-in, not [undefined]. *)
Definition Object_prototype_keys : list string :=
  [ "constructor"; "__defineGetter__"; "__defineSetter__"; "hasOwnProperty";
    "__lookupGetter__"; "__lookupSetter__"; "isPrototypeOf";
    "propertyIsEnumerable"; "toString"; "valueOf"; "__proto__";
    "toLocaleString" ].

Definition is_builtin_key (k : string) : bool :=
  bool_decide (k ∈ Object_prototype_keys).

(** The result of [obj[k]] for a key computed at run time. *)
Inductive property : Type :=
| Own (v : json)
| Inherited
| Missing.

(** [x.name] for the names the program reads literally ([email],
    [refCode], [passHash], [clicks], [regs]): no built-in prototype has
    them, so on anything but [null] and an owning object the result is
    [undefined] ([None]). *)
Definition get_field (x : json) (name : string) : outcome (option json) :=
  match x with
  | JNull => Throw
  | JObj m => Return (m !! name)
  | _ => Return None
  end.

(** Calling an array method ([some], [find], [findIndex], [push]) on a
    parsed value: a [TypeError] unless it is an array. *)
Definition as_array (v : json) : outcome (list json) :=
  match v with
  | JArr l => Return l
  | _ => Throw
  end.

(** [x.email.toLowerCase()] *)
Definition email_key_strict (x : json) : outcome string :=
  match x with
  | JObj m =>
      match m !! "email" with
      | Some (JStr s) => Return (Str.toLowerCase s)
      | _ => Throw
      end
  | _ => Throw
  end.

(** [(u.email || "").toLowerCase()] *)
Definition email_key_lenient (u : json) : outcome string :=
  match u with
  | JNull => Throw
  | JObj m =>
      match m !! "email" with
      | None => Return ""
      | Some v =>
          if truthy v then
            match v with
            | JStr s => Return (Str.toLowerCase s)
            | _ => Throw
            end
          else Return ""
      end
  | _ => Return ""
  end.

(** [l.findIndex(x => key(x) === target)], counting from [i]; the
    callback may throw before a match is found. *)
Fixpoint findIndex_from (key : json → outcome string) (target : string)
    (i : nat) (l : list json) : outcome (option nat) :=
  match l with
  | [] => Return None
  | x :: l' =>
      match key x with
      | Return k =>
          if String.eqb k target then Return (Some i)
          else findIndex_from key target (S i) l'
      | Throw => Throw
      | Unmodelled => Unmodelled
      end
  end.

Definition findIndex (key : json → outcome string) (target : string)
    (l : list json) : outcome (option nat) :=
  findIndex_from key target 0 l.

(** Own enumerable properties copied by an object spread [{...x}]. *)
Fixpoint index_props (i : nat) (l : list json) : gmap string json :=
  match l with
  | [] => ∅
  | x :: l' => <[pretty i := x]> (index_props (S i) l')
  end.

Fixpoint chars (s : string) : list json :=
  match s with
  | EmptyString => []
  | String c s' => JStr (String c EmptyString) :: chars s'
  end.

Definition spread (x : json) : gmap string json :=
  match x with
  | JObj m => m
  | JArr l => index_props 0 l
  | JStr s => index_props 0 (chars s)
  | _ => ∅
  end.

(** ** The platform *)

Class Platform : Type := {
  JSON_parse : string → option json;
  JSON_stringify : json → string;
  (** [crypto.subtle.digest("SHA-256", _)] rendered in hexadecimal *)
  SHA256_hex : string → string;
  (** [window.crypto && crypto.subtle] *)
  crypto_subtle : bool;
  JSON_roundtrip : ∀ v, JSON_parse (JSON_stringify v) = Some v;
  JSON_parse_empty : JSON_parse "" = None;
  JSON_parse_empty_array : JSON_parse "[]" = Some (JArr []);
  JSON_parse_empty_object : JSON_parse "{}" = Some (JObj ∅);
}.

(** What an operation reads from its surroundings. *)
Record Env : Type := {
  now : Z;                   (** [Date.now()] *)
  pathname : string;         (** [location.pathname] *)
  ref_param : option string; (** [new URLSearchParams(location.search).get("ref")] *)
  random : nat → nat;        (** the successive [Math.floor(Math.random() * 32)] *)
}.

Inductive StorageOp : Type :=
| SetItem (key value : string)
| RemoveItem (key : string).

Record World : Type := {
  storage : gmap string string;  (** [localStorage] *)
  journal : list StorageOp;      (** the writes so far, oldest first *)
  draws : nat;                   (** calls of [Math.random()] so far *)
}.

Definition M (A : Type) : Type := World → outcome A * World.

Definition ret {A} (a : A) : M A := λ w, (Return a, w).

Definition bind {A B} (m : M A) (k : A → M B) : M B :=
  λ w, match m w with
       | (Return a, w') => k a w'
       | (Throw, w') => (Throw, w')
       | (Unmodelled, w') => (Unmodelled, w')
       end.

Definition lift {A} (o : outcome A) : M A := λ w, (o, w).

(** [try { m } catch {}] *)
Definition try_catch (m : M unit) : M unit :=
  λ w, match m w with
       | (Throw, w') => (Return tt, w')
       | r => r
       end.

Notation "'let!' x := m 'in' k" := (bind m (λ x, k))
  (at level 10, x binder, m at level 100, k at level 200,
   format "'[v' 'let!'  x  :=  m  'in'  '/' k ']'").
Notation "'do!' m 'in' k" := (bind m (λ _, k))
  (at level 10, m at level 100, k at level 200,
   format "'[v' 'do!'  m  'in'  '/' k ']'").

Definition getItem (key : string) : M (option string) :=
  λ w, (Return (storage w !! key), w).

Definition write (key value : string) (w : World) : World :=
  {| storage := <[key := value]> (storage w);
     journal := journal w ++ [SetItem key value];
     draws := draws w |}.

Definition erase (key : string) (w : World) : World :=
  {| storage := delete key (storage w);
     journal := journal w ++ [RemoveItem key];
     draws := draws w |}.

Definition setItem (key value : string) : M unit :=
  λ w, (Return tt, write key value w).

Definition removeItem (key : string) : M unit :=
  λ w, (Return tt, erase key w).

(** The world after one more call of [Math.random()] *)
Definition drawn (w : World) : World :=
  {| storage := storage w; journal := journal w; draws := S (draws w) |}.

(** [Math.floor(Math.random() * alphabet.length)], with 32 symbols: the
    next draw, which is below 32 as [Math.random()] is below 1 *)
Definition random_index (env : Env) : M nat :=
  λ w, (Return (random env (draws w) `mod` 32), drawn w).

(** [item || fallback] for the result of [localStorage.getItem] *)
Definition or_text (item : option string) (fallback : string) : string :=
  match item with
  | Some s => if Str.nonempty s then s else fallback
  | None => fallback
  end.

(** [obj[k]] on an object with the own properties [m]. *)
Definition get_prop (m : gmap string json) (k : string) : property :=
  match m !! k with
  | Some v => Own v
  | None => if is_builtin_key k then Inherited else Missing
  end.

(** [obj[k] = v]: an own property is created or overwritten, except
    that [__proto__], when not an own property, is the accessor of
    [Object.prototype] and leaves the own properties as they are. *)
Definition assign (m : gmap string json) (k : string) (v : json)
    : gmap string json :=
  match m !! k with
  | Some _ => <[k := v]> m
  | None => if String.eqb k "__proto__" then m else <[k := v]> m
  end.

(** A table that is indexed by a computed key. *)
Definition as_object (v : json) : outcome (gmap string json) :=
  match v with
  | JNull => Throw
  | JObj m => Return m
  | _ => Unmodelled
  end.

(** [x || fallback] for a property that may be [undefined] *)
Definition or_else (x : option json) (fallback : json) : json :=
  match x with
  | Some v => if truthy v then v else fallback
  | None => fallback
  end.

(** ** The result objects and their messages

    The messages are the bytes of the source text; only which message
    is returned matters. *)

Definition MSG_INVALID_EMAIL : string :=
  "Введите корректный email, например name@gmail.com".
Definition MSG_WEAK_PASSWORD : string :=
  "Пароль должен быть не меньше 8 символов".
Definition MSG_DUPLICATE_EMAIL : string :=
  "Такой email уже зарегистрирован".
Definition MSG_USER_NOT_FOUND : string :=
  "Пользователь не найден".
Definition MSG_WRONG_PASSWORD : string :=
  "Неверный пароль".
Definition MSG_NOT_AUTHENTICATED : string :=
  "Вы не авторизованы".

(** [{ ok: true }] *)
Definition ok_true : json := JObj {[ "ok" := JBool true ]}.

(** [{ ok: false, message }] *)
Definition failure (message : string) : json :=
  JObj (<["ok" := JBool false]> {[ "message" := JStr message ]}).

(** ** Storage keys *)

Definition USERS_KEY : string := "cryptoex_users_v1".
Definition SESSION_KEY : string := "cryptoex_session_v1".
Definition PROFILE_KEY : string := "cryptoex_profile_v1".
Definition HISTORY_KEY : string := "cryptoex_history_v1".
Definition REF_LOG_KEY : string := "cryptoex_ref_log_v1".
Definition INCOMING_REF_KEY : string := "cryptoex_incoming_ref_v1".

(** ** Hexadecimal rendering and the fallback checksum *)

Definition hex_digit (d : Z) : ascii :=
  if (d <? 10)%Z then ascii_of_nat (48 + Z.to_nat d)
  else ascii_of_nat (87 + Z.to_nat d).

Fixpoint hex_loop (fuel : nat) (n : Z) (acc : string) : string :=
  match fuel with
  | 0 => acc
  | S f =>
      let acc' := String (hex_digit (n `mod` 16)%Z) acc in
      if (n `div` 16 =? 0)%Z then acc' else hex_loop f (n `div` 16)%Z acc'
  end.

(** [n.toString(16)] for a non-negative integer *)
Definition toString16 (n : Z) : string :=
  hex_loop (S (Z.to_nat (Z.log2 n))) n "".

(** [for (...) h = (h * 31 + text.charCodeAt(i)) >>> 0] *)
Fixpoint checksum_loop (h : Z) (text : string) : Z :=
  match text with
  | EmptyString => h
  | String c t =>
      checksum_loop ((h * 31 + Z.of_nat (nat_of_ascii c)) `mod` 2 ^ 32)%Z t
  end.

(** A value returned by [getMyProfile]: parsed data, or a built-in of
    [Object.prototype]. *)
Inductive jsval : Type :=
| Json (v : json)
| Builtin.

(** [{ email, refCode }] as returned by [getCurrentUser] *)
Record Viewer : Type := { v_email : string; v_refCode : json }.

(** [u.refCode] is truthy: the record has a referral code. *)
Definition has_refCode (m : gmap string json) : bool :=
  truthy (or_else (m !! "refCode") JNull).

Section Program.
Context {platform : Platform}.

Definition safeJsonParse (s : string) (fallback : json) : json :=
  match JSON_parse s with
  | Some v => v
  | None => fallback
  end.

Definition getUsers : M json :=
  let! item := getItem USERS_KEY in
  ret (safeJsonParse (or_text item "[]") (JArr [])).

Definition setUsers (users : json) : M unit :=
  setItem USERS_KEY (JSON_stringify users).

Definition sha256Hex (text : string) : outcome string :=
  if crypto_subtle then Return (SHA256_hex text)
  else Return ("fallback_" +:+ toString16 (checksum_loop 0 text)).

Definition getSessionEmail : M string :=
  let! item := getItem SESSION_KEY in
  ret (or_text item "").

Definition setSessionEmail (email : string) : M unit :=
  setItem SESSION_KEY email.

Definition clearSession : M unit := removeItem SESSION_KEY.

Definition getProfile : M json :=
  let! item := getItem PROFILE_KEY in
  ret (safeJsonParse (or_text item "{}") (JObj ∅)).

Definition setProfile (profile : json) : M unit :=
  setItem PROFILE_KEY (JSON_stringify profile).

Definition getHistory : M json :=
  let! item := getItem HISTORY_KEY in
  ret (safeJsonParse (or_text item "[]") (JArr [])).

Definition setHistory (h : json) : M unit :=
  setItem HISTORY_KEY (JSON_stringify h).

Definition getRefLog : M json :=
  let! item := getItem REF_LOG_KEY in
  ret (safeJsonParse (or_text item "{}") (JObj ∅)).

Definition setRefLog (obj : json) : M unit :=
  setItem REF_LOG_KEY (JSON_stringify obj).

Definition getIncomingRef : M string :=
  let! item := getItem INCOMING_REF_KEY in
  ret (Str.trim (or_text item "")).

Definition setIncomingRef (code : string) : M unit :=
  setItem INCOMING_REF_KEY (Str.trim code).

Definition clearIncomingRef : M unit := removeItem INCOMING_REF_KEY.

Definition alphabet : string := "ABCDEFGHJKLMNPQRSTUVWXYZ23456789".

Fixpoint generateRefCode_loop (env : Env) (n : nat) (s : string) : M string :=
  match n with
  | 0 => ret s
  | S n' =>
      let! i := random_index env in
      match String.get i alphabet with
      | Some c => generateRefCode_loop env n' (s +:+ String c EmptyString)
      | None => generateRefCode_loop env n' (s +:+ "undefined")
      end
  end.

Definition generateRefCode (env : Env) : M string :=
  generateRefCode_loop env 8 "".

Definition ensureUserRefCode (env : Env) (users : json) (email : string)
    : M (option json) :=
  let! l := lift (as_array users) in
  let! idx := lift (findIndex email_key_lenient (Str.toLowerCase email) l) in
  match idx with
  | None => ret None
  | Some i =>
      match l !! i with
      | Some (JObj m) =>
          if has_refCode m then ret (m !! "refCode")
          else
            let! code := generateRefCode env in
            do! setUsers (JArr (<[i := JObj (<["refCode" := JStr code]> m)]> l)) in
            ret (Some (JStr code))
      | _ => lift Unmodelled
      end
  end.

(** The entry [{ clicks: [], regs: [] }] *)
Definition empty_entry : json :=
  JObj (<["clicks" := JArr []]> {[ "regs" := JArr [] ]}).

(** [if (!log[c]) log[c] = { clicks: [], regs: [] }] followed by the
    read of [log[c]]: the entry the next statement works on.  A built-in
    of [Object.prototype] is truthy and is left in place; it is returned
    as [None]. *)
Definition entry_for (log : gmap string json) (c : string) : option json :=
  match get_prop log c with
  | Own v => Some (if truthy v then v else empty_entry)
  | Missing => Some empty_entry
  | Inherited => None
  end.

(** [entry.field.unshift(item); entry.field = (entry.field || []).slice(0, 500)] *)
Definition unshift_capped (field : string) (item : json) (entry : option json)
    : outcome json :=
  match entry with
  | Some (JObj em) =>
      match em !! field with
      | Some (JArr l) => Return (JObj (<[field := JArr (take 500 (item :: l))]> em))
      | _ => Throw
      end
  | _ => Throw
  end.

(** [{ ts: Date.now(), path: location.pathname || "" }] *)
Definition click_record (env : Env) : json :=
  JObj (<["ts" := JNum (now env)]> {[ "path" := JStr (pathname env) ]}).

(** [{ ts: Date.now(), email: String(email || "").trim() }] *)
Definition reg_record (env : Env) (email : string) : json :=
  JObj (<["ts" := JNum (now env)]> {[ "email" := JStr (Str.trim email) ]}).

Definition recordRefClick (env : Env) (code : string) : M unit :=
  let c := Str.trim code in
  if negb (Str.nonempty c) then ret tt
  else
    let! log := getRefLog in
    let! lm := lift (as_object log) in
    let! entry :=
      lift (unshift_capped "clicks" (click_record env) (entry_for lm c)) in
    setRefLog (JObj (assign lm c entry)).

Definition recordRefReg (env : Env) (code email : string) : M unit :=
  let c := Str.trim code in
  if negb (Str.nonempty c) then ret tt
  else
    let! log := getRefLog in
    let! lm := lift (as_object log) in
    let! entry :=
      lift (unshift_capped "regs" (reg_record env email) (entry_for lm c)) in
    setRefLog (JObj (assign lm c entry)).

Definition getCurrentUser (env : Env) : M (option Viewer) :=
  let! email := getSessionEmail in
  if negb (Str.nonempty email) then ret None
  else
    let! users := getUsers in
    let! l := lift (as_array users) in
    let! idx := lift (findIndex email_key_strict (Str.toLowerCase email) l) in
    match idx with
    | None => ret None
    | Some i =>
        match l !! i with
        | Some (JObj m) =>
            match m !! "email" with
            | Some (JStr uemail) =>
                if has_refCode m
                then ret (Some {| v_email := uemail;
                                  v_refCode := or_else (m !! "refCode") (JStr "") |})
                else
                  let! code := generateRefCode env in
                  do! setUsers (JArr (<[i := JObj (<["refCode" := JStr code]> m)]> l)) in
                  ret (Some {| v_email := uemail;
                               v_refCode := or_else (Some (JStr code)) (JStr "") |})
            | _ => lift Throw
            end
        | _ => lift Throw
        end
    end.

Definition initRefFromUrl (env : Env) : M unit :=
  try_catch
    (match ref_param env with
     | None => ret tt
     | Some code =>
         if negb (Str.nonempty code) then ret tt
         else
           do! setIncomingRef code in
           let! me := getCurrentUser env in
           let! own :=
             match me with
             | None => ret false
             | Some viewer =>
                 let! users := getUsers in
                 let! myCode := ensureUserRefCode env users (v_email viewer) in
                 match myCode with
                 | Some (JStr s) => ret (Str.nonempty s && String.eqb s code)
                 | Some v => if truthy v then lift Unmodelled else ret false
                 | None => ret false
                 end
             end in
           if own then ret tt else recordRefClick env code
     end).

(** [{ email: e, passHash, refCode, referredBy: incomingRef || "" }] *)
Definition new_user_fields (e passHash refCode incomingRef : string)
    : gmap string json :=
  <["email" := JStr e]>
    (<["passHash" := JStr passHash]>
       (<["refCode" := JStr refCode]>
          {[ "referredBy" := JStr incomingRef ]})).

Definition new_user (e passHash refCode incomingRef : string) : json :=
  JObj (new_user_fields e passHash refCode incomingRef).

(** [{ email: e, lastName: "", firstName: "", middleName: "", telegram: "", phone: "" }] *)
Definition initial_profile (e : string) : json :=
  JObj (<["email" := JStr e]>
        (<["lastName" := JStr ""]>
         (<["firstName" := JStr ""]>
          (<["middleName" := JStr ""]>
           (<["telegram" := JStr ""]>
            {[ "phone" := JStr "" ]}))))).

(** [if (!profile[e]) profile[e] = { email: e, lastName: "", ... }] *)
Definition init_profile (pm : gmap string json) (e : string)
    : gmap string json :=
  match get_prop pm e with
  | Own v => if truthy v then pm else assign pm e (initial_profile e)
  | Inherited => pm
  | Missing => assign pm e (initial_profile e)
  end.

Definition register (env : Env) (email password : string) : M json :=
  let e := Str.trim email in
  let p := password in
  if negb (isValidEmail e) then ret (failure MSG_INVALID_EMAIL)
  else if String.length p <? 8 then ret (failure MSG_WEAK_PASSWORD)
  else
    let! users := getUsers in
    let! l := lift (as_array users) in
    let! dup := lift (findIndex email_key_strict (Str.toLowerCase e) l) in
    if bool_decide (is_Some dup) then ret (failure MSG_DUPLICATE_EMAIL)
    else
      let! passHash := lift (sha256Hex p) in
      let! refCode := generateRefCode env in
      let! incomingRef := getIncomingRef in
      let users' := l ++ [new_user e passHash refCode incomingRef] in
      do! (if Str.nonempty incomingRef
           then do! recordRefReg env incomingRef e in clearIncomingRef
           else ret tt) in
      do! setUsers (JArr users') in
      let! profile := getProfile in
      let! pm := lift (as_object profile) in
      do! setProfile (JObj (init_profile pm e)) in
      do! setSessionEmail e in
      ret ok_true.

Definition login (env : Env) (email password : string) : M json :=
  let e := Str.trim email in
  let p := password in
  if negb (isValidEmail e) then ret (failure MSG_INVALID_EMAIL)
  else if String.length p <? 8 then ret (failure MSG_WEAK_PASSWORD)
  else
    let! users := getUsers in
    let! l := lift (as_array users) in
    let! idx := lift (findIndex email_key_strict (Str.toLowerCase e) l) in
    match idx with
    | None => ret (failure MSG_USER_NOT_FOUND)
    | Some i =>
        match l !! i with
        | Some (JObj m) =>
            match m !! "email" with
            | Some (JStr uemail) =>
                let! passHash := lift (sha256Hex p) in
                let same :=
                  match m !! "passHash" with
                  | Some (JStr h) => String.eqb passHash h
                  | _ => false
                  end in
                if negb same then ret (failure MSG_WRONG_PASSWORD)
                else
                  do! setSessionEmail uemail in
                  let! users2 := getUsers in
                  let! _ := ensureUserRefCode env users2 uemail in
                  ret ok_true
            | _ => lift Throw
            end
        | _ => lift Throw
        end
    end.

Definition updateProfile (fields : json) : M json :=
  let! email := getSessionEmail in
  if negb (Str.nonempty email) then ret (failure MSG_NOT_AUTHENTICATED)
  else
    let! profile := getProfile in
    let! pm := lift (as_object profile) in
    let pm1 :=
      match get_prop pm email with
      | Own v => if truthy v then pm
                 else assign pm email (JObj {[ "email" := JStr email ]})
      | Inherited => pm
      | Missing => assign pm email (JObj {[ "email" := JStr email ]})
      end in
    let old :=
      match get_prop pm1 email with
      | Own v => spread v
      | _ => ∅
      end in
    let record := JObj (<["email" := JStr email]> (spread fields ∪ old)) in
    do! setProfile (JObj (assign pm1 email record)) in
    ret ok_true.

Definition getMyProfile : M jsval :=
  let! email := getSessionEmail in
  if negb (Str.nonempty email) then ret (Json JNull)
  else
    let! profile := getProfile in
    let! pm := lift (as_object profile) in
    match get_prop pm email with
    | Own v => ret (Json (if truthy v then v else JObj {[ "email" := JStr email ]}))
    | Inherited => ret Builtin
    | Missing => ret (Json (JObj {[ "email" := JStr email ]}))
    end.

Definition logout : M unit := clearSession.

(** [{ clicks, regs }] *)
Definition stats (clicks regs : json) : json :=
  JObj (<["clicks" := clicks]> {[ "regs" := regs ]}).

Definition getRefStatsFor (code : string) : M json :=
  let c := Str.trim code in
  if negb (Str.nonempty c) then ret (stats (JArr []) (JArr []))
  else
    let! log := getRefLog in
    let! lm := lift (as_object log) in
    match get_prop lm c with
    | Own v =>
        if truthy v then
          let! clicks := lift (get_field v "clicks") in
          let! regs := lift (get_field v "regs") in
          ret (stats (or_else clicks (JArr [])) (or_else regs (JArr [])))
        else ret (stats (JArr []) (JArr []))
    | Inherited => ret (stats (JArr []) (JArr []))
    | Missing => ret (stats (JArr []) (JArr []))
    end.

(** One call of [recordRefClick(code)] for each environment of the
    list, in order. *)
Fixpoint recordRefClicks (envs : list Env) (code : string) : M unit :=
  match envs with
  | [] => ret tt
  | env :: envs' =>
      do! recordRefClick env code in
      recordRefClicks envs' code
  end.

(** *** What the store holds, read without running an operation *)

Definition table (key empty_text : string) (fallback : json) (w : World)
    : json :=
  safeJsonParse (or_text (storage w !! key) empty_text) fallback.

Definition users_of : World → json := table USERS_KEY "[]" (JArr []).
Definition profiles_of : World → json := table PROFILE_KEY "{}" (JObj ∅).
Definition history_of : World → json := table HISTORY_KEY "[]" (JArr []).
Definition reflog_of : World → json := table REF_LOG_KEY "{}" (JObj ∅).

Definition session_of (w : World) : string :=
  or_text (storage w !! SESSION_KEY) "".

Definition incoming_of (w : World) : string :=
  Str.trim (or_text (storage w !! INCOMING_REF_KEY) "").

End Program.

(** ** The vocabulary of the statements *)

(** A fresh browser profile *)
Definition empty_world : World :=
  {| storage := ∅; journal := []; draws := 0 |}.

(** The environment of the examples: the [i]-th call happens at time
    [1700000000000 + i] on the page [/index.html]. *)
Definition example_env (i : nat) (ref : option string) : Env :=
  {| now := (1700000000000 + Z.of_nat i)%Z;
     pathname := "/index.html";
     ref_param := ref;
     random := λ n, 7 * n + 3 |}.

(** A write or a removal, with the key it touches *)
Definition touched (op : StorageOp) : bool * string :=
  match op with
  | SetItem key _ => (true, key)
  | RemoveItem key => (false, key)
  end.

(** Two worlds with the same store and journal (they may differ in the
    number of random draws). *)
Definition same_store (w w' : World) : Prop :=
  storage w' = storage w ∧ journal w' = journal w.

(** The callback returns normally and finds no match on every element. *)
Definition passes (key : json → outcome string) (target : string)
    (x : json) : Prop :=
  ∃ k, key x = Return k ∧ k ≠ target.

(** [x.email.toLowerCase() === target], for counting *)
Definition has_email (target : string) (x : json) : bool :=
  match email_key_strict x with
  | Return k => String.eqb k target
  | _ => false
  end.

(** The value of a text as a numeral in base 31 whose digits are its
    code units *)
Fixpoint poly31 (text : string) : Z :=
  match text with
  | EmptyString => 0
  | String c t =>
      (Z.of_nat (nat_of_ascii c) * 31 ^ Z.of_nat (String.length t) + poly31 t)%Z
  end.

(** The value of a hexadecimal digit, and of a hexadecimal numeral *)
Definition hex_digit_value (c : ascii) : Z :=
  let n := Z.of_nat (nat_of_ascii c) in
  if (n <? 58)%Z then (n - 48)%Z else (n - 87)%Z.

Fixpoint hex_value (s : string) : Z :=
  match s with
  | EmptyString => 0
  | String c t =>
      (hex_digit_value c * 16 ^ Z.of_nat (String.length t) + hex_value t)%Z
  end.

Section Vocabulary.
Context {platform : Platform}.

(** The four read operations with their keys and empty defaults *)
Definition store_reads : list (M json * string * json) :=
  [ (getUsers, USERS_KEY, JArr []);
    (getProfile, PROFILE_KEY, JObj ∅);
    (getHistory, HISTORY_KEY, JArr []);
    (getRefLog, REF_LOG_KEY, JObj ∅) ].

(** The ledger is an object, and the entry that [recordRefClick] and
    [recordRefReg] find or create for [c] is an object whose list
    [field] is [items]. *)
Definition ledger_list (w : World) (c field : string) (items : list json)
    : Prop :=
  ∃ lm em, reflog_of w = JObj lm ∧ entry_for lm c = Some (JObj em)
           ∧ em !! field = Some (JArr items).

(** The viewer: the first user whose address is the session's address up
    to letter case. *)
Definition viewer_record (w : World) (m : gmap string json) : Prop :=
  ∃ l i, users_of w = JArr l
         ∧ findIndex email_key_strict (Str.toLowerCase (session_of w)) l
           = Return (Some i)
         ∧ l !! i = Some (JObj m).

(** The user that [login] and [register] look for: the first record of
    the stored list whose address is [e] up to letter case, at index
    [i], every record before it being an object with another address. *)
Definition registered (w : World) (e : string) (l : list json) (i : nat)
    (m : gmap string json) : Prop :=
  users_of w = JArr l
  ∧ findIndex email_key_strict (Str.toLowerCase e) l = Return (Some i)
  ∧ l !! i = Some (JObj m).

(** The referral step of [register]: nothing when no code is staged;
    otherwise the registration is put at the head of the code's list in
    the ledger and the staging slot is cleared. *)
Definition attributed (env : Env) (e : string) (w w' : World) : Prop :=
  (incoming_of w = EmptyString ∧ w' = w)
  ∨ (incoming_of w ≠ EmptyString
     ∧ ∃ lm em regs,
         reflog_of w = JObj lm
         ∧ entry_for lm (incoming_of w) = Some (JObj em)
         ∧ em !! "regs" = Some (JArr regs)
         ∧ w' = erase INCOMING_REF_KEY
                  (write REF_LOG_KEY
                     (JSON_stringify
                        (JObj (assign lm (incoming_of w)
                                 (JObj (<["regs" := JArr (take 500 (reg_record env e :: regs))]> em)))))
                     w)).

(** The world a successful [register] ends in *)
Definition registered_world (e : string) (users : list json)
    (pm : gmap string json) (w_r : World) : World :=
  write SESSION_KEY e
    (write PROFILE_KEY (JSON_stringify (JObj (init_profile pm e)))
       (write USERS_KEY (JSON_stringify (JArr users)) w_r)).

End Vocabulary.

(** ** The remaining operations of the data layer *)

Definition MSG_WEAK_NEW_PASSWORD : string :=
  "Новый пароль должен быть не меньше 8 символов".
Definition MSG_WRONG_CURRENT_PASSWORD : string :=
  "Текущий пароль неверный".
Definition MSG_NOT_AUTH : string := "not-auth".

(** [l.filter(x => key(x) === target)]; the callback may throw. *)
Fixpoint filter_key (key : json → outcome string) (target : string)
    (l : list json) : outcome (list json) :=
  match l with
  | [] => Return []
  | x :: l' =>
      match key x with
      | Return k =>
          match filter_key key target l' with
          | Return r => Return (if String.eqb k target then x :: r else r)
          | Throw => Throw
          | Unmodelled => Unmodelled
          end
      | Throw => Throw
      | Unmodelled => Unmodelled
      end
  end.

(** [u.email === email], the callback of [users.find] in [getMyRefCode] *)
Definition email_equals (email : string) (u : json) : outcome bool :=
  match u with
  | JNull => Throw
  | JObj m =>
      Return match m !! "email" with
             | Some (JStr s) => String.eqb s email
             | _ => false
             end
  | _ => Return false
  end.

(** [l.find(p)], as the index of the element found: the caller may
    update that element in place. *)
Fixpoint find_from (p : json → outcome bool) (i : nat) (l : list json)
    : outcome (option nat) :=
  match l with
  | [] => Return None
  | x :: l' =>
      match p x with
      | Return true => Return (Some i)
      | Return false => find_from p (S i) l'
      | Throw => Throw
      | Unmodelled => Unmodelled
      end
  end.

Definition find_where (p : json → outcome bool) (l : list json)
    : outcome (option nat) :=
  find_from p 0 l.

(** [{ email, refCode }], the object behind a [Viewer] *)
Definition viewer_fields (viewer : Viewer) : gmap string json :=
  <["email" := JStr (v_email viewer)]> {[ "refCode" := v_refCode viewer ]}.

(** [encodeURIComponent] on code units below 256: letters, digits and
    [-_.!~*'()] stay, every other unit is written as the bytes of its
    UTF-8 form, each as [%] and two capital hexadecimal digits. *)
Definition uri_unreserved (c : ascii) : bool :=
  let n := nat_of_ascii c in
  ((65 <=? n) && (n <=? 90)) || ((97 <=? n) && (n <=? 122))
  || ((48 <=? n) && (n <=? 57))
  || bool_decide (c ∈ list_ascii_of_string "-_.!~*'()").

Definition hex_upper (d : nat) : ascii :=
  if d <? 10 then ascii_of_nat (48 + d) else ascii_of_nat (55 + d).

Definition percent (byte : nat) : string :=
  String "%" (String (hex_upper (byte / 16))
                (String (hex_upper (byte `mod` 16)) EmptyString)).

Definition encode_unit (c : ascii) : string :=
  let n := nat_of_ascii c in
  if uri_unreserved c then String c EmptyString
  else if n <? 128 then percent n
  else percent (192 + n / 64) +:+ percent (128 + n `mod` 64).

Fixpoint encodeURIComponent (s : string) : string :=
  match s with
  | EmptyString => EmptyString
  | String c s' => encode_unit c +:+ encodeURIComponent s'
  end.

(** What [buildRefLink] reads from [location]. *)
Record Site : Type := {
  origin : string;
    (** [location.origin] *)
  index_url : string → option string;
    (** the text of [new URL("./index.html", location.href)] once its
        query parameter [ref] is set to the argument; [None] when the
        constructor throws *)
}.

Definition buildRefLink (site : Site) (code : string) : string :=
  let c := Str.trim code in
  if negb (Str.nonempty c) then ""
  else if negb (Str.nonempty (origin site)) || String.eqb (origin site) "null"
  then "index.html?ref=" +:+ encodeURIComponent c
  else
    match index_url site c with
    | Some link => link
    | None => "index.html?ref=" +:+ encodeURIComponent c
    end.

(** [v.length] and [v.slice(0, 10)], for a truthy [v] *)
Definition count_and_recent (v : json) : outcome (json * json) :=
  match v with
  | JArr l => Return (JNum (Z.of_nat (List.length l)), JArr (take 10 l))
  | JStr s => Return (JNum (Z.of_nat (String.length s)), JStr (substring 0 10 s))
  | JObj _ => Unmodelled
  | _ => Throw
  end.

Section Account.
Context {platform : Platform}.

Definition changePassword (oldPassword newPassword : string) : M json :=
  let! email := getSessionEmail in
  if negb (Str.nonempty email) then ret (failure MSG_NOT_AUTHENTICATED)
  else
    let oldP := oldPassword in
    let newP := newPassword in
    if String.length newP <? 8 then ret (failure MSG_WEAK_NEW_PASSWORD)
    else
      let! users := getUsers in
      let! l := lift (as_array users) in
      let! idx := lift (findIndex email_key_strict (Str.toLowerCase email) l) in
      match idx with
      | None => ret (failure MSG_USER_NOT_FOUND)
      | Some i =>
          match l !! i with
          | Some (JObj m) =>
              let! oldHash := lift (sha256Hex oldP) in
              let same :=
                match m !! "passHash" with
                | Some (JStr h) => String.eqb oldHash h
                | _ => false
                end in
              if negb same then ret (failure MSG_WRONG_CURRENT_PASSWORD)
              else
                let! newHash := lift (sha256Hex newP) in
                do! setUsers
                      (JArr (<[i := JObj (<["passHash" := JStr newHash]> m)]> l)) in
                ret ok_true
          | _ => lift Throw
          end
      end.

Definition addExchange (record : json) : M json :=
  let! email := getSessionEmail in
  if negb (Str.nonempty email) then ret (failure MSG_NOT_AUTH)
  else
    let! h := getHistory in
    let! l := lift (as_array h) in
    do! setHistory (JArr (JObj (<["email" := JStr email]> (spread record)) :: l)) in
    ret ok_true.

Definition getMyHistory : M json :=
  let! email := getSessionEmail in
  if negb (Str.nonempty email) then ret (JArr [])
  else
    let! h := getHistory in
    let! l := lift (as_array h) in
    let! mine := lift (filter_key email_key_lenient (Str.toLowerCase email) l) in
    ret (JArr mine).

(** [requireAuth(redirectTo = "./login.html")]: the flag returned, and
    the address assigned to [window.location.href], if any. *)
Definition requireAuth (env : Env) (redirectTo : option string)
    : M (bool * option string) :=
  let! user := getCurrentUser env in
  match user with
  | None => ret (false, Some (default "./login.html" redirectTo))
  | Some _ => ret (true, None)
  end.

(** [ensureUserRefCode(users, email)] on an array, together with the
    array as the call leaves it: the record found is updated in place. *)
Definition ensureUserRefCode_array (env : Env) (l : list json) (email : string)
    : M (option json * list json) :=
  let! idx := lift (findIndex email_key_lenient (Str.toLowerCase email) l) in
  match idx with
  | None => ret (None, l)
  | Some i =>
      match l !! i with
      | Some (JObj m) =>
          if has_refCode m then ret (m !! "refCode", l)
          else
            let! code := generateRefCode env in
            let l' := <[i := JObj (<["refCode" := JStr code]> m)]> l in
            do! setUsers (JArr l') in
            ret (Some (JStr code), l')
      | _ => lift Unmodelled
      end
  end.

Definition getMyRefCode (env : Env) : M json :=
  let! user := getCurrentUser env in
  match user with
  | None => ret (JStr "")
  | Some viewer =>
      let email := v_email viewer in
      let! users := getUsers in
      let! l := lift (as_array users) in
      let! found := ensureUserRefCode_array env l email in
      let! fixed :=
        (if truthy (or_else found.1 JNull)
         then ret (or_else found.1 JNull, found.2)
         else
           let! refCode := generateRefCode env in
           let! existing := lift (find_where (email_equals email) found.2) in
           let! fixed :=
             match existing with
             | Some i =>
                 match found.2 !! i with
                 | Some (JObj m) =>
                     let code := or_else (m !! "refCode") (JStr refCode) in
                     ret (code, <[i := JObj (<["refCode" := code]> m)]> found.2)
                 | _ => lift Throw
                 end
             | None =>
                 ret (JStr refCode,
                      found.2 ++ [JObj (<["refCode" := JStr refCode]>
                                          (viewer_fields viewer))])
             end in
           do! setUsers (JArr fixed.2) in
           ret fixed) in
      let! updated := lift (find_where (email_equals email) fixed.2) in
      do! (if bool_decide (is_Some updated) then setSessionEmail email
           else ret tt) in
      ret (if truthy fixed.1 then fixed.1 else JStr "")
  end.

(** [getMyRefSummary()], for a code that is a string. *)
Definition getMyRefSummary (env : Env) (site : Site) : M json :=
  let! code := getMyRefCode env in
  match code with
  | JStr c =>
      let! st := getRefStatsFor c in
      let! clicks := lift (get_field st "clicks") in
      let! regs := lift (get_field st "regs") in
      let link := buildRefLink site c in
      let! cl := lift (count_and_recent (or_else clicks (JArr []))) in
      let! rg := lift (count_and_recent (or_else regs (JArr []))) in
      ret (JObj (<["refCode" := JStr c]>
                 (<["refLink" := JStr link]>
                  (<["clicksCount" := cl.1]>
                   (<["regsCount" := rg.1]>
                    (<["clicksRecent" := cl.2]>
                     {[ "regsRecent" := rg.2 ]}))))))
  | _ => lift Unmodelled
  end.

End Account.

(** ** The public interface, call by call

    [window.CryptoExAuth] and the call of [initRefFromUrl] that every
    page load makes.  A call that throws leaves the store as it stands
    at that point; the page goes on with the next call. *)

Inductive call : Type :=
| PageLoad (env : Env)
| Register (env : Env) (email password : string)
| Login (env : Env) (email password : string)
| Logout
| RequireAuth (env : Env) (redirectTo : option string)
| GetCurrentUser (env : Env)
| GetMyProfile
| UpdateProfile (fields : json)
| ChangePassword (oldPassword newPassword : string)
| AddExchange (record : json)
| GetMyHistory
| GetMyRefSummary (env : Env) (site : Site).

(** An operation run for its effect on the store *)
Definition effect {A} (m : M A) : M unit :=
  let! _ := m in ret tt.

Section Interface.
Context {platform : Platform}.

Definition perform (c : call) : M unit :=
  match c with
  | PageLoad env => initRefFromUrl env
  | Register env email password => effect (register env email password)
  | Login env email password => effect (login env email password)
  | Logout => logout
  | RequireAuth env redirectTo => effect (requireAuth env redirectTo)
  | GetCurrentUser env => effect (getCurrentUser env)
  | GetMyProfile => effect getMyProfile
  | UpdateProfile fields => effect (updateProfile fields)
  | ChangePassword oldPassword newPassword =>
      effect (changePassword oldPassword newPassword)
  | AddExchange record => effect (addExchange record)
  | GetMyHistory => effect getMyHistory
  | GetMyRefSummary env site => effect (getMyRefSummary env site)
  end.

(** Calls made one after the other, each one settled before the next is
    made (the promise of [register], [login] and [changePassword] is
    awaited; one page at a time uses the store).  Calls that overlap are
    not runs of this kind, see [register_until_await]. *)
Fixpoint run_in_sequence (cs : list call) (w : World) : World :=
  match cs with
  | [] => w
  | c :: rest => run_in_sequence rest (perform c w).2
  end.

End Interface.

(** ** [register] around its [await]

    [register] is an [async] function.  A call runs up to
    [await sha256Hex(p)] and hands back its promise; what follows the
    [await] runs later, after whatever the page has done in between,
    with the array [users] as the call read it before the [await]. *)

Section Await.
Context {platform : Platform}.

(** [register] up to the [await]: the result, when a check fails, or the
    array [users] that the call goes on with *)
Definition register_until_await (email password : string)
    : M (json + list json) :=
  let e := Str.trim email in
  let p := password in
  if negb (isValidEmail e) then ret (inl (failure MSG_INVALID_EMAIL))
  else if String.length p <? 8 then ret (inl (failure MSG_WEAK_PASSWORD))
  else
    let! users := getUsers in
    let! l := lift (as_array users) in
    let! dup := lift (findIndex email_key_strict (Str.toLowerCase e) l) in
    if bool_decide (is_Some dup) then ret (inl (failure MSG_DUPLICATE_EMAIL))
    else ret (inr l).

(** [register] from the [await] on, [l] being the array [users].  (The
    hash is a function of the password alone: on which side of the
    [await] it is computed makes no difference.) *)
Definition register_from_await (env : Env) (email password : string)
    (l : list json) : M json :=
  let e := Str.trim email in
  let p := password in
  let! passHash := lift (sha256Hex p) in
  let! refCode := generateRefCode env in
  let! incomingRef := getIncomingRef in
  let users' := l ++ [new_user e passHash refCode incomingRef] in
  do! (if Str.nonempty incomingRef
       then do! recordRefReg env incomingRef e in clearIncomingRef
       else ret tt) in
  do! setUsers (JArr users') in
  let! profile := getProfile in
  let! pm := lift (as_object profile) in
  do! setProfile (JObj (init_profile pm e)) in
  do! setSessionEmail e in
  ret ok_true.

(** A call of [register] that nothing interrupts *)
Definition register_in_one_go (env : Env) (email password : string) : M json :=
  let! r := register_until_await email password in
  match r with
  | inl result => ret result
  | inr l => register_from_await env email password l
  end.

End Await.

(** ** Stores as the program writes them *)

(** The address of a user record *)
Definition email_of (x : json) : option string :=
  match x with
  | JObj m => match m !! "email" with Some (JStr s) => Some s | _ => None end
  | _ => None
  end.

Definition emails (l : list json) : list string := omap email_of l.

(** A user record: an object with a valid, trimmed address; its referral
    code, when it has one, is a string. *)
Definition user_ok (x : json) : Prop :=
  ∃ m s, x = JObj m ∧ m !! "email" = Some (JStr s)
         ∧ isValidEmail s = true ∧ Str.trim s = s
         ∧ (m !! "refCode" = None ∨ ∃ c, m !! "refCode" = Some (JStr c)).

(** The users: records with addresses that are pairwise different, also
    up to letter case. *)
Definition users_ok (l : list json) : Prop :=
  Forall user_ok l ∧ NoDup (Str.toLowerCase <$> emails l).

(** The session is empty or the address of a user. *)
Definition session_ok (l : list json) (s : string) : Prop :=
  s = EmptyString ∨ s ∈ emails l.

(** Every profile is an object filed under a user's address, which it
    carries as its [email]. *)
Definition profiles_ok (l : list json) (pm : gmap string json) : Prop :=
  map_Forall (λ k v, k ∈ emails l
                     ∧ ∃ r, v = JObj r ∧ r !! "email" = Some (JStr k)) pm.

(** An entry of the ledger: two lists of at most 500 records each. *)
Definition entry_ok (v : json) : Prop :=
  ∃ em cl rl, v = JObj em
              ∧ em !! "clicks" = Some (JArr cl) ∧ em !! "regs" = Some (JArr rl)
              ∧ List.length cl ≤ 500 ∧ List.length rl ≤ 500.

Definition ledger_ok (lm : gmap string json) : Prop :=
  map_Forall (λ _ v, entry_ok v) lm.

(** Every record of the history is an object that carries the address of
    a user. *)
Definition history_ok (l : list json) (h : list json) : Prop :=
  Forall (λ x, ∃ s, email_of x = Some s ∧ s ∈ emails l) h.

Section WellFormed.
Context {platform : Platform}.

Definition well_formed (w : World) : Prop :=
  ∃ l pm lm h,
    users_of w = JArr l ∧ profiles_of w = JObj pm
    ∧ reflog_of w = JObj lm ∧ history_of w = JArr h
    ∧ users_ok l ∧ session_ok l (session_of w) ∧ profiles_ok l pm
    ∧ ledger_ok lm ∧ history_ok l h.

End WellFormed.

(** ** Patterns, read declaratively *)

(** The strings that a pattern matches in full *)
Inductive denotes : Str.re → string → Prop :=
| denotes_Eps : denotes Str.Eps EmptyString
| denotes_Chr p c : p c = true → denotes (Str.Chr p) (String c EmptyString)
| denotes_Seq r1 r2 s1 s2 :
    denotes r1 s1 → denotes r2 s2 → denotes (Str.Seq r1 r2) (s1 +:+ s2)
| denotes_Alt_l r1 r2 s : denotes r1 s → denotes (Str.Alt r1 r2) s
| denotes_Alt_r r1 r2 s : denotes r2 s → denotes (Str.Alt r1 r2) s
| denotes_Star_nil r : denotes (Str.Star r) EmptyString
| denotes_Star_cons r s1 s2 :
    denotes r s1 → denotes (Str.Star r) s2 → denotes (Str.Star r) (s1 +:+ s2).

(** Every code unit of the string passes the test. *)
Fixpoint all_chars (p : ascii → bool) (s : string) : bool :=
  match s with
  | EmptyString => true
  | String c s' => p c && all_chars p s'
  end.

(** [local@domain.tld]: three parts without white space and [@], the
    first two not empty, the last of two units at least. *)
Definition address_shape (s : string) : Prop :=
  ∃ local domain tld,
    s = local +:+ "@" +:+ domain +:+ "." +:+ tld
    ∧ local ≠ EmptyString ∧ domain ≠ EmptyString ∧ 2 ≤ String.length tld
    ∧ all_chars Str.not_space_at local = true
    ∧ all_chars Str.not_space_at domain = true
    ∧ all_chars Str.not_space_at tld = true.

(** A symbol of the alphabet of referral codes *)
Definition in_alphabet (c : ascii) : bool :=
  bool_decide (c ∈ list_ascii_of_string alphabet).


(** The record belongs to the address [target] (given in lower case). *)
Definition owned_by (target : string) (x : json) : bool :=
  match email_of x with
  | Some s => String.eqb (Str.toLowerCase s) target
  | None => false
  end.

(** What stands between a valid, new registration and its success: the
    staged referral code is a name that the ledger inherits. *)
Definition blocked_by_referral (lm : gmap string json) (code : string) : Prop :=
  get_prop lm code = Inherited.


(** ** Footprints *)

(** The storage keys that a call of the interface may write *)
Definition footprint (c : call) : list string :=
  match c with
  | PageLoad _ => [INCOMING_REF_KEY; USERS_KEY; REF_LOG_KEY]
  | Register _ _ _ =>
      [REF_LOG_KEY; INCOMING_REF_KEY; USERS_KEY; PROFILE_KEY; SESSION_KEY]
  | Login _ _ _ => [SESSION_KEY; USERS_KEY]
  | Logout => [SESSION_KEY]
  | RequireAuth _ _ => [USERS_KEY]
  | GetCurrentUser _ => [USERS_KEY]
  | GetMyProfile => []
  | UpdateProfile _ => [PROFILE_KEY]
  | ChangePassword _ _ => [USERS_KEY]
  | AddExchange _ => [HISTORY_KEY]
  | GetMyHistory => []
  | GetMyRefSummary _ _ => [USERS_KEY; SESSION_KEY]
  end.

(** An operation that writes and removes under the given keys only,
    however it ends: the journal grows by operations on these keys, and
    what is stored under any other key stays. *)
Definition writes_within {A} (keys : list string) (m : M A) : Prop :=
  ∀ w, ∃ ops,
    journal (m w).2 = journal w ++ ops
    ∧ Forall (λ op, (touched op).2 ∈ keys) ops
    ∧ ∀ k, k ∉ keys → storage (m w).2 !! k = storage w !! k.


(** The object that [getMyRefSummary] returns *)
Definition summary (code link : string) (clicks regs : list json) : json :=
  JObj (<["refCode" := JStr code]>
        (<["refLink" := JStr link]>
         (<["clicksCount" := JNum (Z.of_nat (List.length clicks))]>
          (<["regsCount" := JNum (Z.of_nat (List.length regs))]>
           (<["clicksRecent" := JArr (take 10 clicks)]>
            {[ "regsRecent" := JArr (take 10 regs) ]}))))).

(** The fields of a stored profile that [updateProfile] starts from *)
Definition stored_fields (pm : gmap string json) (e : string)
    : gmap string json :=
  match pm !! e with
  | Some v => if truthy v then spread v else ∅
  | None => ∅
  end.


(** A code unit that [encodeURIComponent] may write: an unreserved one
    or the percent sign *)
Definition url_safe (c : ascii) : bool :=
  uri_unreserved c || (nat_of_ascii c =? 37).


(** Size of a value, for induction on values nested in maps *)
Fixpoint jsize (v : json) : nat :=
  match v with
  | JArr l => S (foldr (λ x n, jsize x + n) 0 l)
  | JObj m => S (map_fold (λ _ x n, jsize x + n) 0 m)
  | _ => 1
  end.

(** ** A reference implementation of the JSON primitives

    A printer and a parser for the compact JSON texts that
    [JSON.stringify] writes, with integer numbers.  They give the
    platform on which the examples are run, see [reference_platform]. *)

Module Codec.

Inductive tree : Type :=
| TNull
| TBool (b : bool)
| TNum (n : Z)
| TStr (s : string)
| TArr (l : list tree)
| TObj (l : list (string * tree)).

Definition text : Type := list ascii.

Definition lit (s : string) : text := list_ascii_of_string s.

Definition code_is (c : ascii) (code : nat) : bool := nat_of_ascii c =? code.

Definition QUOTE : ascii := ascii_of_nat 34.
Definition BACKSLASH : ascii := ascii_of_nat 92.

Definition print_N (n : N) : text :=
  lit (NilEmpty.string_of_uint (N.to_uint n)).

Definition print_Z (n : Z) : text :=
  match n with
  | Z0 => print_N 0
  | Zpos p => print_N (Npos p)
  | Zneg p => "-"%char :: print_N (Npos p)
  end.

Definition hex_char (d : nat) : ascii :=
  if d <? 10 then ascii_of_nat (48 + d) else ascii_of_nat (87 + d).

Definition print_char (c : ascii) : text :=
  let n := nat_of_ascii c in
  if n =? 34 then [BACKSLASH; QUOTE]
  else if n =? 92 then [BACKSLASH; BACKSLASH]
  else if n <? 32 then
    [BACKSLASH; "u"; "0"; "0"; hex_char (n / 16); hex_char (n mod 16)]%char
  else [c].

Fixpoint print_chars (s : string) : text :=
  match s with
  | EmptyString => []
  | String c s' => print_char c ++ print_chars s'
  end.

Definition print_string (s : string) : text :=
  QUOTE :: print_chars s ++ [QUOTE].

(** Items separated by commas, then the closing bracket *)
Definition print_list {A} (item : A → text) (close : ascii)
    : list A → text :=
  fix go (l : list A) : text :=
    match l with
    | [] => [close]
    | x :: l' =>
        item x ++ match l' with [] => [] | _ => [","%char] end ++ go l'
    end.

Fixpoint print (t : tree) : text :=
  match t with
  | TNull => lit "null"
  | TBool true => lit "true"
  | TBool false => lit "false"
  | TNum n => print_Z n
  | TStr s => print_string s
  | TArr l => "["%char :: print_list print "]"%char l
  | TObj l =>
      "{"%char ::
      print_list (λ kx, print_string kx.1 ++ ":"%char :: print kx.2) "}"%char l
  end.

Definition is_digit (c : ascii) : bool :=
  let n := nat_of_ascii c in (48 <=? n) && (n <=? 57).

Fixpoint span_digits (s : text) : text * text :=
  match s with
  | c :: r =>
      if is_digit c then let '(d, r') := span_digits r in (c :: d, r')
      else ([], s)
  | [] => ([], [])
  end.

(** An unsigned decimal numeral without a superfluous leading zero *)
Definition parse_N (s : text) : option (N * text) :=
  let '(d, r) := span_digits s in
  match d with
  | [] => None
  | _ =>
      match NilEmpty.uint_of_string (string_of_list_ascii d) with
      | Some u =>
          if Decimal.uint_beq (Decimal.unorm u) u then Some (N.of_uint u, r)
          else None
      | None => None
      end
  end.

Definition hex_val (c : ascii) : option nat :=
  let n := nat_of_ascii c in
  if (48 <=? n) && (n <=? 57) then Some (n - 48)
  else if (97 <=? n) && (n <=? 102) then Some (n - 87)
  else if (65 <=? n) && (n <=? 70) then Some (n - 55)
  else None.

Definition cons_char (c : ascii) (r : option (string * text))
    : option (string * text) :=
  match r with
  | Some (str, rest) => Some (String c str, rest)
  | None => None
  end.

(** The characters of a string literal after its opening quote *)
Fixpoint parse_chars (s : text) : option (string * text) :=
  match s with
  | [] => None
  | c :: r =>
      if code_is c 34 then Some (EmptyString, r)
      else if code_is c 92 then
        match r with
        | e :: r' =>
            if code_is e 34 then cons_char QUOTE (parse_chars r')
            else if code_is e 92 then cons_char BACKSLASH (parse_chars r')
            else if code_is e 47 then cons_char "/"%char (parse_chars r')
            else if code_is e 98 then cons_char "008"%char (parse_chars r')
            else if code_is e 102 then cons_char "012"%char (parse_chars r')
            else if code_is e 110 then cons_char "010"%char (parse_chars r')
            else if code_is e 114 then cons_char "013"%char (parse_chars r')
            else if code_is e 116 then cons_char "009"%char (parse_chars r')
            else if code_is e 117 then
              match r' with
              | a :: b :: c1 :: d :: r'' =>
                  match hex_val a, hex_val b, hex_val c1, hex_val d with
                  | Some 0, Some 0, Some h, Some l =>
                      cons_char (ascii_of_nat (16 * h + l)) (parse_chars r'')
                  | _, _, _, _ => None
                  end
              | _ => None
              end
            else None
        | [] => None
        end
      else if nat_of_ascii c <? 32 then None
      else cons_char c (parse_chars r)
  end.

Fixpoint strip_prefix (p s : text) : option text :=
  match p, s with
  | [], _ => Some s
  | a :: p', b :: s' => if Ascii.eqb a b then strip_prefix p' s' else None
  | _ :: _, [] => None
  end.

Fixpoint parse_value (fuel : nat) (s : text) : option (tree * text) :=
  match fuel with
  | 0 => None
  | S f =>
      match s with
      | [] => None
      | c :: r =>
          if code_is c 110 then
            match strip_prefix (lit "null") s with
            | Some r' => Some (TNull, r')
            | None => None
            end
          else if code_is c 116 then
            match strip_prefix (lit "true") s with
            | Some r' => Some (TBool true, r')
            | None => None
            end
          else if code_is c 102 then
            match strip_prefix (lit "false") s with
            | Some r' => Some (TBool false, r')
            | None => None
            end
          else if code_is c 34 then
            match parse_chars r with
            | Some (str, r') => Some (TStr str, r')
            | None => None
            end
          else if code_is c 91 then
            match r with
            | c' :: r' =>
                if code_is c' 93 then Some (TArr [], r')
                else
                  match parse_elems f r with
                  | Some (l, r'') => Some (TArr l, r'')
                  | None => None
                  end
            | [] => None
            end
          else if code_is c 123 then
            match r with
            | c' :: r' =>
                if code_is c' 125 then Some (TObj [], r')
                else
                  match parse_members f r with
                  | Some (l, r'') => Some (TObj l, r'')
                  | None => None
                  end
            | [] => None
            end
          else if code_is c 45 then
            match parse_N r with
            | Some (Npos p, r') => Some (TNum (Zneg p), r')
            | _ => None
            end
          else
            match parse_N s with
            | Some (n, r') => Some (TNum (Z.of_N n), r')
            | None => None
            end
      end
  end
with parse_elems (fuel : nat) (s : text) : option (list tree * text) :=
  match fuel with
  | 0 => None
  | S f =>
      match parse_value f s with
      | Some (x, c :: r) =>
          if code_is c 44 then
            match parse_elems f r with
            | Some (l, r') => Some (x :: l, r')
            | None => None
            end
          else if code_is c 93 then Some ([x], r)
          else None
      | _ => None
      end
  end
with parse_members (fuel : nat) (s : text)
    : option (list (string * tree) * text) :=
  match fuel with
  | 0 => None
  | S f =>
      match s with
      | q :: r =>
          if code_is q 34 then
            match parse_chars r with
            | Some (k, c :: r1) =>
                if code_is c 58 then
                  match parse_value f r1 with
                  | Some (x, c' :: r2) =>
                      if code_is c' 44 then
                        match parse_members f r2 with
                        | Some (l, r') => Some ((k, x) :: l, r')
                        | None => None
                        end
                      else if code_is c' 125 then Some ([(k, x)], r2)
                      else None
                  | _ => None
                  end
                else None
            | _ => None
            end
          else None
      | [] => None
      end
  end.

Fixpoint size (t : tree) : nat :=
  match t with
  | TArr l => S (foldr (λ x n, S (size x + n)) 0 l)
  | TObj l => S (foldr (λ kx n, S (size kx.2 + n)) 0 l)
  | _ => 1
  end.

Definition parse (s : string) : option tree :=
  match parse_value (S (String.length s)) (list_ascii_of_string s) with
  | Some (t, []) => Some t
  | _ => None
  end.

Definition stringify (t : tree) : string := string_of_list_ascii (print t).

(** From parsed trees to values and back.  Of two members with the same
    name the later one wins, as in [JSON.parse]. *)
Fixpoint of_tree (t : tree) : json :=
  match t with
  | TNull => JNull
  | TBool b => JBool b
  | TNum n => JNum n
  | TStr s => JStr s
  | TArr l => JArr (of_tree <$> l)
  | TObj l => JObj (list_to_map (reverse ((λ kx, (kx.1, of_tree kx.2)) <$> l)))
  end.

Fixpoint to_tree (v : json) : tree :=
  match v with
  | JNull => TNull
  | JBool b => TBool b
  | JNum n => TNum n
  | JStr s => TStr s
  | JArr l => TArr (to_tree <$> l)
  | JObj m => TObj (map_to_list (to_tree <$> m))
  end.

Definition JSON_parse (s : string) : option json := of_tree <$> parse s.
Definition JSON_stringify (v : json) : string := stringify (to_tree v).

(** What may follow a printed value: not a digit *)
Definition ok_tail (rest : text) : Prop :=
  match rest with
  | [] => True
  | c :: _ => is_digit c = false
  end.

End Codec.

(** * Properties *)

(** ** The model at work *)

Example isValidEmail_plain : isValidEmail "name@gmail.com" = true.
Proof. reflexivity. Qed.

Example isValidEmail_is_trimmed : isValidEmail "  a@b.co " = true.
Proof. reflexivity. Qed.

Example isValidEmail_short_domain_end : isValidEmail "a@b.c" = false.
Proof. reflexivity. Qed.

Example isValidEmail_inner_space : isValidEmail "a b@c.de" = false.
Proof. reflexivity. Qed.

Example isValidEmail_two_ats : isValidEmail "a@b@c.de" = false.
Proof. reflexivity. Qed.

Example isValidEmail_dots_in_domain : isValidEmail "a@x.y.zz" = true.
Proof. reflexivity. Qed.

Example trim_both_ends : Str.trim "  a b  " = "a b".
Proof. reflexivity. Qed.

Example toLowerCase_ascii : Str.toLowerCase "A@B.Com" = "a@b.com".
Proof. reflexivity. Qed.

Example toString16_255 : toString16 255 = "ff".
Proof. reflexivity. Qed.

Example toString16_zero : toString16 0 = "0".
Proof. reflexivity. Qed.

(** ** Strings *)

Module StrFacts.
Import Str.

Lemma ltrim_head_ok s : head_ok (ltrim s).
Proof.
  induction s as [|c s IH]; simpl; [done|].
  destruct (is_space c) eqn:E; [done|]. simpl. exact E.
Qed.

Lemma ltrim_id s : head_ok s → ltrim s = s.
Proof. destruct s as [|c s]; simpl; [done|]. by intros ->. Qed.

Lemma rtrim_head_ok s : head_ok s → head_ok (rtrim s).
Proof.
  destruct s as [|c s]; simpl; [done|]. intros Hc.
  destruct (rtrim s); simpl; [by rewrite Hc|done].
Qed.

Lemma rtrim_idem s : rtrim (rtrim s) = rtrim s.
Proof.
  induction s as [|c s IH]; simpl; [done|].
  destruct (rtrim s) as [|a r] eqn:E.
  - destruct (is_space c) eqn:Ec; simpl; [done|]. by rewrite Ec.
  - change (rtrim (String c (String a r)))
      with (match rtrim (String a r) with
            | EmptyString => if is_space c then EmptyString else String c EmptyString
            | r' => String c r'
            end).
    by rewrite IH.
Qed.

Lemma trim_idem s : trim (trim s) = trim s.
Proof.
  unfold trim. rewrite (ltrim_id (rtrim (ltrim s))).
  - apply rtrim_idem.
  - apply rtrim_head_ok, ltrim_head_ok.
Qed.

Lemma nonempty_true s : nonempty s = true ↔ s ≠ EmptyString.
Proof. destruct s; simpl; split; intros; congruence. Qed.

Lemma rtrim_no_space s : no_space s = true → rtrim s = s.
Proof.
  induction s as [|c s IH]; simpl; [done|].
  intros [Hc Hs]%andb_true_iff. rewrite (IH Hs).
  apply negb_true_iff in Hc. rewrite Hc. by destruct s.
Qed.

(** Trimming leaves a string without white space as it is. *)
Lemma trim_no_space s : no_space s = true → trim s = s.
Proof.
  intros Hs. unfold trim. rewrite ltrim_id; [by apply rtrim_no_space|].
  destruct s as [|c s]; simpl in *; [done|].
  apply andb_true_iff in Hs as [Hc _]. by apply negb_true_iff in Hc.
Qed.

Lemma no_space_app s t :
  no_space (s +:+ t) = no_space s && no_space t.
Proof.
  induction s as [|c s IH]; simpl; [done|]. by rewrite IH, andb_assoc.
Qed.

End StrFacts.

(** [isValidEmail] trims once more what [register] and [login] have
    trimmed already. *)
Lemma isValidEmail_trim email : isValidEmail (Str.trim email) = isValidEmail email.
Proof. unfold isValidEmail. by rewrite StrFacts.trim_idem. Qed.

(** ** The reference JSON primitives *)

(** *** The printer is inverted by the parser *)

Module CodecFacts.
Import Codec.

Lemma parse_chars_print_char c X :
  parse_chars (print_char c ++ X) = cons_char c (parse_chars X).
Proof.
  destruct c as [[] [] [] [] [] [] [] []]; reflexivity.
Qed.

Lemma parse_chars_print s rest :
  parse_chars (print_chars s ++ QUOTE :: rest) = Some (s, rest).
Proof.
  induction s as [|c s IH]; simpl.
  - reflexivity.
  - rewrite <- app_assoc, parse_chars_print_char, IH. reflexivity.
Qed.

Lemma span_digits_uint u rest :
  ok_tail rest →
  span_digits (lit (NilEmpty.string_of_uint u) ++ rest)
  = (lit (NilEmpty.string_of_uint u), rest).
Proof.
  intros Hrest. induction u; simpl; rewrite ?IHu; try reflexivity.
  destruct rest as [|c r]; simpl in *; [reflexivity|]. by rewrite Hrest.
Qed.

Lemma string_of_lit s : string_of_list_ascii (lit s) = s.
Proof. apply string_of_list_ascii_of_string. Qed.

Lemma to_uint_digit n :
  ∃ c r, print_N n = c :: r ∧ is_digit c = true.
Proof.
  unfold print_N.
  pose proof (DecimalN.Unsigned.to_of (N.to_uint n)) as Hn.
  rewrite DecimalN.Unsigned.of_to in Hn.
  destruct (N.to_uint n) eqn:E; simpl; eauto.
  exfalso. simpl in Hn. discriminate.
Qed.

Lemma parse_N_print n rest :
  ok_tail rest → parse_N (print_N n ++ rest) = Some (n, rest).
Proof.
  intros Hrest. unfold parse_N, print_N.
  rewrite span_digits_uint by done.
  destruct (to_uint_digit n) as (c & r & E & _). unfold print_N in E.
  rewrite E. rewrite <- E. rewrite string_of_lit, NilEmpty.usu.
  assert (Decimal.unorm (N.to_uint n) = N.to_uint n) as ->.
  { rewrite <- DecimalN.Unsigned.to_of. by rewrite DecimalN.Unsigned.of_to. }
  assert (Decimal.uint_beq (N.to_uint n) (N.to_uint n) = true) as ->.
  { apply Decimal.internal_uint_dec_lb. reflexivity. }
  by rewrite DecimalN.Unsigned.of_to.
Qed.

Lemma tree_ind' (P : tree → Prop) :
  P TNull → (∀ b, P (TBool b)) → (∀ n, P (TNum n)) → (∀ s, P (TStr s)) →
  (∀ l, Forall P l → P (TArr l)) →
  (∀ l, Forall (λ kx, P kx.2) l → P (TObj l)) →
  ∀ t, P t.
Proof.
  intros Hnull Hbool Hnum Hstr Harr Hobj.
  fix IH 1. intros [|b|n|s|l|l].
  - exact Hnull.
  - apply Hbool.
  - apply Hnum.
  - apply Hstr.
  - apply Harr. induction l as [|x l IHl]; constructor; [apply IH|exact IHl].
  - apply Hobj. induction l as [|[k x] l IHl]; constructor; [apply IH|exact IHl].
Qed.

Lemma parse_value_digit f c r :
  is_digit c = true →
  parse_value (S f) (c :: r)
  = match parse_N (c :: r) with
    | Some (n, r') => Some (TNum (Z.of_N n), r')
    | None => None
    end.
Proof.
  unfold is_digit. intros [H1 H2]%andb_true_iff.
  apply Nat.leb_le in H1, H2.
  cbn [parse_value]. unfold code_is.
  rewrite !(proj2 (Nat.eqb_neq (nat_of_ascii c) _)) by lia. reflexivity.
Qed.

Lemma digit_not_close c : is_digit c = true → code_is c 93 = false.
Proof.
  unfold is_digit, code_is. intros [H1 H2]%andb_true_iff.
  apply Nat.leb_le in H1, H2. apply Nat.eqb_neq. lia.
Qed.

Lemma print_head t :
  ∃ c r, print t = c :: r ∧ code_is c 93 = false.
Proof.
  destruct t as [|[]|n| | |].
  1-3, 5-7: by (do 2 eexists; split; [reflexivity|]).
  cbn [print]. destruct n as [|p|p]; unfold print_Z.
  - destruct (to_uint_digit 0) as (c & r & -> & Hc).
    eauto using digit_not_close.
  - destruct (to_uint_digit (N.pos p)) as (c & r & -> & Hc).
    eauto using digit_not_close.
  - by do 2 eexists.
Qed.

Lemma parse_print_Z n f rest :
  ok_tail rest → parse_value (S f) (print_Z n ++ rest) = Some (TNum n, rest).
Proof.
  intros Hrest. destruct n as [|p|p]; unfold print_Z.
  - destruct (to_uint_digit 0) as (c & r & E & Hc).
    rewrite E. simpl app. rewrite parse_value_digit by done.
    change (c :: r ++ rest) with ((c :: r) ++ rest). rewrite <- E.
    by rewrite parse_N_print.
  - destruct (to_uint_digit (N.pos p)) as (c & r & E & Hc).
    rewrite E. simpl app. rewrite parse_value_digit by done.
    change (c :: r ++ rest) with ((c :: r) ++ rest). rewrite <- E.
    by rewrite parse_N_print.
  - cbn [parse_value app]. change (code_is "-" 110) with false.
    cbv beta iota. change (code_is "-" 116) with false.
    change (code_is "-" 102) with false. change (code_is "-" 34) with false.
    change (code_is "-" 91) with false. change (code_is "-" 123) with false.
    change (code_is "-" 45) with true. cbv beta iota.
    by rewrite parse_N_print.
Qed.

Lemma ok_tail_cons c r : is_digit c = false → ok_tail (c :: r).
Proof. done. Qed.

Lemma parse_print t :
  ∀ fuel rest, size t ≤ fuel → ok_tail rest →
    parse_value fuel (print t ++ rest) = Some (t, rest).
Proof.
  induction t as [|b|n|s|l IH|l IH] using tree_ind';
    intros [|f] rest Hfuel Hrest; simpl in Hfuel; try lia.
  - reflexivity.
  - by destruct b.
  - by apply parse_print_Z.
  - cbn [print print_string app parse_value].
    change (code_is QUOTE 110) with false. change (code_is QUOTE 116) with false.
    change (code_is QUOTE 102) with false. change (code_is QUOTE 34) with true.
    cbv beta iota. rewrite <- app_assoc. simpl app.
    by rewrite parse_chars_print.
  - assert (∀ f rest, l ≠ [] → foldr (λ x n, S (size x + n)) 0 l ≤ f →
              ok_tail rest →
              parse_elems f (print_list print "]"%char l ++ rest) = Some (l, rest))
      as Helems.
    { clear f rest Hfuel Hrest.
      induction IH as [|x l Hx _ IHl]; intros f rest Hne Hf Hrest; [done|].
      destruct f as [|f]; simpl in Hf; [lia|].
      cbn [print_list parse_elems]. rewrite <- !app_assoc.
      destruct l as [|y l].
      - simpl app. rewrite Hx; [|lia|by apply ok_tail_cons].
        reflexivity.
      - simpl app at 1. cbn [app].
        rewrite Hx; [|lia|by apply ok_tail_cons].
        change (code_is "," 44) with true. cbv beta iota.
        rewrite IHl; [done|done|simpl in *; lia|done]. }
    destruct l as [|x l].
    + reflexivity.
    + cbn [print app parse_value].
      change (code_is "[" 110) with false. change (code_is "[" 116) with false.
      change (code_is "[" 102) with false. change (code_is "[" 34) with false.
      change (code_is "[" 91) with true. cbv beta iota.
      destruct (print_head x) as (c & r & E & Hc).
      assert (∃ r', print_list print "]"%char (x :: l) ++ rest = c :: r')
        as [r' Er'].
      { cbn [print_list]. rewrite E. simpl. eauto. }
      rewrite Er', Hc, <- Er'. rewrite Helems; [done|done|lia|done].
  - assert (∀ f rest, l ≠ [] → foldr (λ kx n, S (size kx.2 + n)) 0 l ≤ f →
              ok_tail rest →
              parse_members f
                (print_list (λ kx, print_string kx.1 ++ ":"%char :: print kx.2)
                   "}"%char l ++ rest) = Some (l, rest))
      as Hmembers.
    { clear f rest Hfuel Hrest.
      induction IH as [|[k x] l Hx _ IHl]; intros f rest Hne Hf Hrest; [done|].
      destruct f as [|f]; simpl in Hf; [lia|].
      cbn [print_list parse_members fst snd print_string app].
      change (code_is QUOTE 34) with true. cbv beta iota.
      rewrite <- !app_assoc. simpl app. rewrite parse_chars_print.
      change (code_is ":" 58) with true. cbv beta iota.
      simpl in Hx.
      destruct l as [|y l].
      - simpl app. rewrite Hx; [|lia|by apply ok_tail_cons].
        reflexivity.
      - cbn [app].
        rewrite Hx; [|lia|by apply ok_tail_cons].
        change (code_is "," 44) with true. cbv beta iota.
        rewrite IHl; [done|done|simpl in *; lia|done]. }
    destruct l as [|[k x] l].
    + reflexivity.
    + cbn [print app parse_value].
      change (code_is "{" 110) with false. change (code_is "{" 116) with false.
      change (code_is "{" 102) with false. change (code_is "{" 34) with false.
      change (code_is "{" 91) with false. change (code_is "{" 123) with true.
      cbv beta iota.
      assert (∃ r', print_list (λ kx, print_string kx.1 ++ ":"%char :: print kx.2)
                "}"%char ((k, x) :: l) ++ rest = QUOTE :: r')
        as [r' Er'].
      { cbn [print_list print_string]. simpl. eauto. }
      rewrite Er'. change (code_is QUOTE 125) with false. cbv beta iota.
      rewrite <- Er'. rewrite Hmembers; [done|done|lia|done].
Qed.

Lemma print_list_length {A} (item : A → text) (measure : A → nat) close l :
  Forall (λ x, measure x ≤ List.length (item x)) l →
  foldr (λ x n, S (measure x + n)) 0 l ≤ List.length (print_list item close l).
Proof.
  induction 1 as [|x l Hx _ IH]; cbn [print_list foldr]; [simpl; lia|].
  rewrite !length_app. destruct l; simpl in *; lia.
Qed.

Lemma size_print t : size t ≤ List.length (print t).
Proof.
  induction t as [|b|n|s|l IH|l IH] using tree_ind'.
  - simpl. lia.
  - destruct b; simpl; lia.
  - cbn [size print]. destruct n as [|p|p]; unfold print_Z;
      [destruct (to_uint_digit 0) as (c & r & -> & _)
      |destruct (to_uint_digit (N.pos p)) as (c & r & -> & _)|];
      simpl; lia.
  - simpl. lia.
  - cbn [size print List.length].
    pose proof (print_list_length print size "]"%char l IH). lia.
  - cbn [size print List.length].
    pose proof (print_list_length
      (λ kx, print_string kx.1 ++ ":"%char :: print kx.2) (λ kx, size kx.2)
      "}"%char l) as H.
    apply le_n_S, H. eapply Forall_impl; [exact IH|].
    intros [k x] Hx. rewrite length_app. simpl in *. lia.
Qed.

Lemma length_lit_string l :
  String.length (string_of_list_ascii l) = List.length l.
Proof. induction l; simpl; congruence. Qed.

Lemma parse_stringify t : parse (stringify t) = Some t.
Proof.
  unfold parse, stringify.
  rewrite list_ascii_of_string_of_list_ascii, length_lit_string.
  rewrite <- (List.app_nil_r (print t)) at 2.
  rewrite parse_print; [done| |done].
  pose proof (size_print t). lia.
Qed.

Lemma jsize_elem l x : x ∈ l → jsize x < jsize (JArr l).
Proof. simpl. induction 1; simpl; lia. Qed.

Lemma jsize_member (m : gmap string json) k x :
  m !! k = Some x → jsize x < jsize (JObj m).
Proof.
  simpl. intros H. rewrite <- (insert_delete_id m k x H).
  rewrite map_fold_insert_L; [lia|intros; lia|apply lookup_delete_eq].
Qed.

Lemma json_ind' (P : json → Prop) :
  P JNull → (∀ b, P (JBool b)) → (∀ n, P (JNum n)) → (∀ s, P (JStr s)) →
  (∀ l, Forall P l → P (JArr l)) →
  (∀ m : gmap string json, map_Forall (λ _ v, P v) m → P (JObj m)) →
  ∀ v, P v.
Proof.
  intros Hn Hb Hz Hs Ha Ho v.
  remember (jsize v) as n eqn:Hsz. revert v Hsz.
  induction n as [n IH] using lt_wf_ind. intros v ->.
  destruct v; auto.
  - apply Ha, Forall_forall. intros x Hx. eapply IH; [|reflexivity].
    by apply jsize_elem.
  - apply Ho. intros k x Hx. eapply IH; [|reflexivity].
    by eapply jsize_member.
Qed.

Lemma of_to_tree v : of_tree (to_tree v) = v.
Proof.
  induction v as [|b|n|s|l IH|m IH] using json_ind'; simpl; try done.
  - f_equal. rewrite <- list_fmap_compose.
    rewrite <- (list_fmap_id l) at 2. apply Forall_fmap_ext_1.
    eapply Forall_impl; [exact IH|]. done.
  - f_equal. apply map_eq. intros k.
    rewrite <- (list_to_map_proper (M:=gmap string)
       ((λ kx, (kx.1, of_tree kx.2)) <$> map_to_list (to_tree <$> m))).
    + change (λ kx : string * tree, (kx.1, of_tree kx.2)) with (prod_map (@id string) of_tree).
      rewrite list_to_map_fmap, list_to_map_to_list.
      rewrite !lookup_fmap. destruct (m !! k) as [x|] eqn:E; simpl; [|done].
      f_equal. by eapply IH.
    + rewrite <- list_fmap_compose. apply NoDup_fst_map_to_list.
    + by rewrite reverse_Permutation.
Qed.

Lemma JSON_roundtrip v : JSON_parse (JSON_stringify v) = Some v.
Proof.
  unfold JSON_parse, JSON_stringify. rewrite parse_stringify. simpl.
  by rewrite of_to_tree.
Qed.

End CodecFacts.

(** The platform of the examples: the reference JSON primitives, and a
    stand-in for the digest (the theorems hold for every digest
    function, the examples need one). *)
Definition reference_platform (subtle : bool) : Platform :=
  {| JSON_parse := Codec.JSON_parse;
     JSON_stringify := Codec.JSON_stringify;
     SHA256_hex := λ text, toString16 (checksum_loop 7 text);
     crypto_subtle := subtle;
     JSON_roundtrip := CodecFacts.JSON_roundtrip;
     JSON_parse_empty := eq_refl;
     JSON_parse_empty_array := eq_refl;
     JSON_parse_empty_object := eq_refl |}.

(** ** The store *)

Lemma keys_distinct :
  NoDup [USERS_KEY; SESSION_KEY; PROFILE_KEY; HISTORY_KEY; REF_LOG_KEY;
         INCOMING_REF_KEY].
Proof. by apply (bool_decide_unpack _). Qed.

Ltac keys := first [done | discriminate].

Section StoreFacts.
Context {platform : Platform}.

Lemma stringify_nonempty v : Str.nonempty (JSON_stringify v) = true.
Proof.
  destruct (JSON_stringify v) eqn:E; [|done].
  pose proof (JSON_roundtrip v) as H. rewrite E, JSON_parse_empty in H.
  discriminate.
Qed.

Lemma safeJsonParse_stringify v fallback :
  safeJsonParse (JSON_stringify v) fallback = v.
Proof. unfold safeJsonParse. by rewrite JSON_roundtrip. Qed.

Lemma table_write_eq key empty_text fallback v w :
  table key empty_text fallback (write key (JSON_stringify v) w) = v.
Proof.
  unfold table, write; simpl. rewrite lookup_insert_eq. simpl.
  rewrite stringify_nonempty. apply safeJsonParse_stringify.
Qed.

Lemma table_write_ne key key' empty_text fallback s w :
  key ≠ key' →
  table key empty_text fallback (write key' s w)
  = table key empty_text fallback w.
Proof. intros. unfold table, write; simpl. by rewrite lookup_insert_ne. Qed.

Lemma table_erase_ne key key' empty_text fallback w :
  key ≠ key' →
  table key empty_text fallback (erase key' w)
  = table key empty_text fallback w.
Proof. intros. unfold table, erase; simpl. by rewrite lookup_delete_ne. Qed.

Lemma table_drawn key empty_text fallback w :
  table key empty_text fallback (drawn w) = table key empty_text fallback w.
Proof. done. Qed.

Lemma session_write e w : session_of (write SESSION_KEY e w) = e.
Proof.
  unfold session_of, write; simpl. rewrite lookup_insert_eq.
  by destruct e.
Qed.

Lemma session_write_ne key s w :
  key ≠ SESSION_KEY → session_of (write key s w) = session_of w.
Proof. intros. unfold session_of, write; simpl. by rewrite lookup_insert_ne. Qed.

Lemma session_erase_ne key w :
  key ≠ SESSION_KEY → session_of (erase key w) = session_of w.
Proof. intros. unfold session_of, erase; simpl. by rewrite lookup_delete_ne. Qed.

Lemma incoming_write code w :
  incoming_of (write INCOMING_REF_KEY (Str.trim code) w) = Str.trim code.
Proof.
  unfold incoming_of, write; simpl. rewrite lookup_insert_eq.
  destruct (Str.trim code) eqn:E; simpl; [done|].
  rewrite <- E. apply StrFacts.trim_idem.
Qed.

Lemma incoming_write_ne key s w :
  key ≠ INCOMING_REF_KEY → incoming_of (write key s w) = incoming_of w.
Proof. intros. unfold incoming_of, write; simpl. by rewrite lookup_insert_ne. Qed.


Lemma incoming_trim w : Str.trim (incoming_of w) = incoming_of w.
Proof. apply StrFacts.trim_idem. Qed.

(** Running the accessors *)

Lemma run_getUsers w : getUsers w = (Return (users_of w), w).
Proof. done. Qed.
Lemma run_getProfile w : getProfile w = (Return (profiles_of w), w).
Proof. done. Qed.
Lemma run_getHistory w : getHistory w = (Return (history_of w), w).
Proof. done. Qed.
Lemma run_getRefLog w : getRefLog w = (Return (reflog_of w), w).
Proof. done. Qed.
Lemma run_getSessionEmail w : getSessionEmail w = (Return (session_of w), w).
Proof. done. Qed.
Lemma run_getIncomingRef w : getIncomingRef w = (Return (incoming_of w), w).
Proof. done. Qed.

End StoreFacts.

(** ** The referral ledger *)

Section Ledger.
Context {platform : Platform}.

Lemma entry_for_assign lm c e v :
  entry_for lm c = Some e → truthy v = true →
  entry_for (assign lm c v) c = Some v.
Proof.
  unfold entry_for, assign, get_prop. intros He Hv.
  destruct (lm !! c) eqn:E.
  - by rewrite lookup_insert_eq, Hv.
  - destruct (is_builtin_key c) eqn:Eb; [done|].
    destruct (String.eqb_spec c "__proto__") as [->|_]; [done|].
    by rewrite lookup_insert_eq, Hv.
Qed.

Lemma recordRefClick_run env code w lm em cl :
  Str.trim code ≠ EmptyString →
  reflog_of w = JObj lm →
  entry_for lm (Str.trim code) = Some (JObj em) →
  em !! "clicks" = Some (JArr cl) →
  recordRefClick env code w
  = (Return tt,
     write REF_LOG_KEY
       (JSON_stringify
          (JObj (assign lm (Str.trim code)
                   (JObj (<["clicks" := JArr (take 500 (click_record env :: cl))]> em)))))
       w).
Proof.
  intros Hc Hlog Hentry Hcl. unfold recordRefClick.
  apply StrFacts.nonempty_true in Hc. rewrite Hc.
  unfold bind; cbn [negb]; cbv beta iota. rewrite run_getRefLog, Hlog. cbn.
  rewrite Hentry. cbn. rewrite Hcl. reflexivity.
Qed.

Lemma recordRefClick_list env code w cl :
  Str.trim code ≠ EmptyString →
  ledger_list w (Str.trim code) "clicks" cl →
  ∃ w', recordRefClick env code w = (Return tt, w')
        ∧ ledger_list w' (Str.trim code) "clicks"
            (take 500 (click_record env :: cl)).
Proof.
  intros Hc (lm & em & Hlog & Hentry & Hcl).
  eexists. split; [by eapply recordRefClick_run|].
  eexists _, _. split; [apply table_write_eq|]. split.
  - by eapply entry_for_assign.
  - apply lookup_insert_eq.
Qed.

Lemma take_app_take {A} n (a b : list A) :
  take n (a ++ take n b) = take n (a ++ b).
Proof.
  rewrite !take_app, take_take. do 2 f_equal. lia.
Qed.

Lemma recordRefClicks_list env envs code w cl :
  Str.trim code ≠ EmptyString →
  ledger_list w (Str.trim code) "clicks" cl →
  ∃ w', recordRefClicks (env :: envs) code w = (Return tt, w')
        ∧ ledger_list w' (Str.trim code) "clicks"
            (take 500 (reverse (click_record <$> env :: envs) ++ cl)).
Proof.
  intros Hc. revert env w cl.
  induction envs as [|env2 envs IH]; intros env w cl Hl.
  - destruct (recordRefClick_list env code w cl Hc Hl) as (w' & Hrun & Hl').
    exists w'. split; [|done].
    cbn [recordRefClicks]. unfold bind. by rewrite Hrun.
  - destruct (recordRefClick_list env code w cl Hc Hl) as (w1 & Hrun & Hl1).
    destruct (IH env2 w1 _ Hl1) as (w' & Hrun' & Hl').
    exists w'. split.
    + change (recordRefClicks (env :: env2 :: envs) code)
        with (bind (recordRefClick env code)
                (λ _, recordRefClicks (env2 :: envs) code)).
      unfold bind at 1. by rewrite Hrun.
    + rewrite take_app_take in Hl'.
      rewrite (fmap_cons _ env), reverse_cons, <- app_assoc. exact Hl'.
Qed.

Lemma getRefStatsFor_list code w cl :
  Str.trim code ≠ EmptyString →
  ledger_list w (Str.trim code) "clicks" cl →
  ∃ regs, getRefStatsFor code w = (Return (stats (JArr cl) regs), w).
Proof.
  intros Hc (lm & em & Hlog & Hentry & Hcl).
  apply StrFacts.nonempty_true in Hc.
  unfold getRefStatsFor. rewrite Hc.
  unfold bind; cbn [negb]; cbv beta iota. rewrite run_getRefLog, Hlog. cbn.
  unfold entry_for in Hentry.
  destruct (get_prop lm (Str.trim code)) as [v| |] eqn:Ep; [|done|].
  - destruct (truthy v) eqn:Ev; unfold empty_entry in *; simplify_eq/=.
    + rewrite Hcl. cbn. eauto.
    + rewrite lookup_insert_eq in Hcl. simplify_eq. eauto.
  - unfold empty_entry in *. simplify_eq/=.
    rewrite lookup_insert_eq in Hcl. simplify_eq. eauto.
Qed.

Lemma click_record_now env env' :
  click_record env = click_record env' → now env = now env'.
Proof.
  unfold click_record. intros H.
  apply (f_equal (λ v, match v with JObj m => m !! "ts" | _ => None end)) in H.
  rewrite !lookup_insert_eq in H. congruence.
Qed.

(** Claim C5, amended.  Let [c] be the trimmed code, not empty, and let
    the ledger be an object in which [c] has no entry, or an entry (not
    one inherited from [Object.prototype]) with a list of clicks.  Each
    call of [recordRefClick] puts its click at the head of that list
    and keeps the first 500 entries.  After 501 calls the list read by
    [getRefStatsFor] holds exactly the 500 most recent clicks, newest
    first; the first click recorded is not among them when its time
    stamp differs from the later ones. *)
Theorem recordRefClick_capped_newest_first envs code w cl :
  Str.trim code ≠ EmptyString →
  ledger_list w (Str.trim code) "clicks" cl →
  List.length envs = 501 →
  (∀ env, ∃ w1, recordRefClick env code w = (Return tt, w1)
     ∧ ledger_list w1 (Str.trim code) "clicks"
         (take 500 (click_record env :: cl)))
  ∧ ∃ w' regs,
      recordRefClicks envs code w = (Return tt, w')
      ∧ getRefStatsFor code w'
        = (Return (stats (JArr (reverse (click_record <$> drop 1 envs))) regs), w')
      ∧ List.length (reverse (click_record <$> drop 1 envs)) = 500
      ∧ ∀ first, envs !! 0 = Some first →
          (∀ env, env ∈ drop 1 envs → now env ≠ now first) →
          click_record first ∉ reverse (click_record <$> drop 1 envs).
Proof.
  intros Hc Hl Hlen. split; [intros env; by apply recordRefClick_list|].
  destruct envs as [|env envs]; [done|].
  destruct (recordRefClicks_list env envs code w cl Hc Hl) as (w' & Hrun & Hl').
  assert (take 500 (reverse (click_record <$> env :: envs) ++ cl)
          = reverse (click_record <$> envs)) as Htake.
  { assert (List.length (reverse (click_record <$> envs)) = 500) as Hrev.
    { rewrite length_reverse, length_fmap. by injection Hlen. }
    rewrite fmap_cons, reverse_cons, <- app_assoc.
    rewrite take_app_le by lia. apply take_ge. lia. }
  rewrite Htake in Hl'.
  destruct (getRefStatsFor_list code w' _ Hc Hl') as [regs Hstats].
  exists w', regs. cbn [drop]. repeat split; [done|done| |].
  - rewrite length_reverse, length_fmap. by injection Hlen.
  - intros first [= <-] Hts [env' [Heq Hin]]%elem_of_reverse%list_elem_of_fmap.
    apply click_record_now in Heq. by apply (Hts env').
Qed.

End Ledger.

Lemma recordRefClick_capped_newest_first_witness :
  let envs := (λ i, example_env i None) <$> seq 0 501 in
  Str.trim "FRIEND42" ≠ EmptyString
  ∧ ledger_list (platform := reference_platform true) empty_world
      (Str.trim "FRIEND42") "clicks" []
  ∧ List.length envs = 501
  ∧ ∃ w' regs,
      recordRefClicks (platform := reference_platform true) envs "FRIEND42"
        empty_world = (Return tt, w')
      ∧ getRefStatsFor (platform := reference_platform true) "FRIEND42" w'
        = (Return (stats (JArr (reverse (click_record <$> drop 1 envs))) regs), w').
Proof.
  intros envs.
  assert (Str.trim "FRIEND42" ≠ EmptyString) as Hc by done.
  assert (ledger_list (platform := reference_platform true) empty_world
            (Str.trim "FRIEND42") "clicks" []) as Hl.
  { exists ∅, (<["clicks" := JArr []]> {[ "regs" := JArr [] ]}).
    split; [reflexivity|]. split; reflexivity. }
  assert (List.length envs = 501) as Hlen by reflexivity.
  split; [exact Hc|]. split; [exact Hl|]. split; [exact Hlen|].
  destruct (recordRefClick_capped_newest_first (platform := reference_platform true)
              envs "FRIEND42" empty_world [] Hc Hl Hlen)
    as (_ & w' & regs & Hrun & Hstats & _).
  exists w', regs. exact (conj Hrun Hstats).
Defined.

(** Claim C5 as stated fails for a code that is not empty but blank:
    501 calls record nothing. *)
Lemma recordRefClick_blank_code_counterexample :
  let envs := (λ i, example_env i None) <$> seq 0 501 in
  " " ≠ EmptyString
  ∧ List.length envs = 501
  ∧ recordRefClicks (platform := reference_platform true) envs " " empty_world
    = (Return tt, empty_world)
  ∧ getRefStatsFor (platform := reference_platform true) " " empty_world
    = (Return (stats (JArr []) (JArr [])), empty_world).
Proof.
  split; [done|]. split; [reflexivity|]. split; vm_compute; reflexivity.
Qed.

(** A code that names a property of [Object.prototype] makes
    [recordRefClick] throw: nothing is recorded. *)
Lemma recordRefClick_builtin_name_throws :
  recordRefClick (platform := reference_platform true) (example_env 0 None)
    "toString" empty_world = (Throw, empty_world).
Proof. vm_compute. done. Qed.

(** ** Reading the store *)

Section Reads.
Context {platform : Platform}.

Lemma store_reads_table read key fallback :
  (read, key, fallback) ∈ store_reads →
  ∃ empty_text,
    JSON_parse empty_text = Some fallback
    ∧ ∀ w, read w = (Return (table key empty_text fallback w), w).
Proof.
  unfold store_reads. rewrite !elem_of_cons, elem_of_nil.
  intros [H|[H|[H|[H|[]]]]]; simplify_eq.
  - exists "[]". split; [apply JSON_parse_empty_array|done].
  - exists "{}". split; [apply JSON_parse_empty_object|done].
  - exists "[]". split; [apply JSON_parse_empty_array|done].
  - exists "{}". split; [apply JSON_parse_empty_object|done].
Qed.

(** Claim C8, amended.  A read operation never throws and never
    changes the store.  It returns the empty default when nothing (or
    the empty string) is stored under its key and when the stored string
    is not JSON; a stored string that is JSON is returned as parsed,
    whatever its shape. *)
Theorem store_read_falls_back_unless_json read key fallback w :
  (read, key, fallback) ∈ store_reads →
  (∃ v, read w = (Return v, w))
  ∧ (storage w !! key = None ∨ storage w !! key = Some EmptyString →
     read w = (Return fallback, w))
  ∧ (∀ s, storage w !! key = Some s → JSON_parse s = None →
     read w = (Return fallback, w))
  ∧ (∀ s v, storage w !! key = Some s → s ≠ EmptyString →
     JSON_parse s = Some v → read w = (Return v, w)).
Proof.
  intros (empty_text & Hempty & Hread)%store_reads_table.
  rewrite Hread. unfold table, safeJsonParse.
  split; [eauto|]. split; [|split].
  - intros [-> | ->]; simpl; by rewrite Hempty.
  - intros s -> Hs. destruct s as [|c s]; simpl.
    + by rewrite Hempty.
    + by rewrite Hs.
  - intros s v -> Hne Hs. destruct s as [|c s]; [done|]. simpl.
    by rewrite Hs.
Qed.

End Reads.

Lemma store_read_falls_back_unless_json_witness :
  let w := write USERS_KEY "{not json" empty_world in
  (getUsers (platform := reference_platform true), USERS_KEY, JArr [])
    ∈ store_reads (platform := reference_platform true)
  ∧ getUsers (platform := reference_platform true) w = (Return (JArr []), w).
Proof.
  intros w.
  assert ((getUsers (platform := reference_platform true), USERS_KEY, JArr [])
            ∈ store_reads (platform := reference_platform true)) as Hin
    by (unfold store_reads; left).
  split; [exact Hin|].
  destruct (store_read_falls_back_unless_json (platform := reference_platform true)
              _ _ _ w Hin) as (_ & _ & Hbad & _).
  apply (Hbad "{not json"); reflexivity.
Defined.

(** Claim C8 as stated fails for a stored string that is JSON of another
    shape: with [null] under the users key, [getUsers] returns [null],
    not a list, and its callers [register] and [login] throw. *)
Lemma store_read_null_counterexample :
  let w := write USERS_KEY "null" empty_world in
  getUsers (platform := reference_platform true) w = (Return JNull, w)
  ∧ (register (platform := reference_platform true) (example_env 0 None)
       "a@b.com" "password1" w).1 = Throw
  ∧ (login (platform := reference_platform true) (example_env 0 None)
       "a@b.com" "password1" w).1 = Throw.
Proof. split; [|split]; vm_compute; reflexivity. Qed.

(** ** Password hashing *)

Lemma checksum_loop_poly text : ∀ h,
  (0 ≤ h < 2 ^ 32)%Z →
  checksum_loop h text
  = ((h * 31 ^ Z.of_nat (String.length text) + poly31 text) `mod` 2 ^ 32)%Z.
Proof.
  induction text as [|c t IH]; intros h Hh.
  - simpl. rewrite Z.mul_1_r, Z.add_0_r, Z.mod_small; lia.
  - cbn [checksum_loop poly31 String.length].
    rewrite IH by (apply Z.mod_pos_bound; lia).
    rewrite Nat2Z.inj_succ, Z.pow_succ_r by lia.
    rewrite Z.add_mod by lia. rewrite Z.mul_mod by lia.
    rewrite Z.mod_mod by lia.
    rewrite <- Z.mul_mod by lia. rewrite <- Z.add_mod by lia.
    f_equal. ring.
Qed.

Lemma hex_digit_value_digit d :
  (0 ≤ d < 16)%Z → hex_digit_value (hex_digit d) = d.
Proof.
  intros Hd.
  assert (d ∈ [0; 1; 2; 3; 4; 5; 6; 7; 8; 9; 10; 11; 12; 13; 14; 15]%Z) as Hin.
  { rewrite !elem_of_cons. lia. }
  rewrite !elem_of_cons, elem_of_nil in Hin.
  repeat (destruct Hin as [->|Hin]; [reflexivity|]). done.
Qed.

Lemma hex_loop_value fuel : ∀ n acc,
  (0 ≤ n < 16 ^ Z.of_nat fuel)%Z →
  0 < fuel →
  hex_value (hex_loop fuel n acc)
  = (n * 16 ^ Z.of_nat (String.length acc) + hex_value acc)%Z.
Proof.
  induction fuel as [|f IH]; intros n acc Hn Hfuel; [lia|].
  cbn [hex_loop].
  assert (hex_value (String (hex_digit (n `mod` 16)) acc)
          = ((n `mod` 16) * 16 ^ Z.of_nat (String.length acc) + hex_value acc)%Z)
    as Hacc.
  { cbn [hex_value]. rewrite hex_digit_value_digit; [done|].
    apply Z.mod_pos_bound. lia. }
  destruct (Z.eqb_spec (n `div` 16) 0) as [Hz|Hnz].
  - rewrite Hacc. f_equal. f_equal.
    rewrite (Z.div_mod n 16) at 2 by lia. lia.
  - destruct f as [|f].
    { exfalso. apply Hnz. apply Z.div_small. simpl in Hn. lia. }
    rewrite IH; [|split|lia].
    + rewrite Hacc. cbn [String.length].
      rewrite Nat2Z.inj_succ, Z.pow_succ_r by lia.
      rewrite (Z.div_mod n 16) at 3 by lia. ring.
    + apply Z.div_pos; lia.
    + apply Z.div_lt_upper_bound; [lia|].
      rewrite Nat2Z.inj_succ, Z.pow_succ_r in Hn by lia. lia.
Qed.

(** [toString16] writes the hexadecimal numeral of its argument. *)
Lemma hex_value_toString16 n : (0 ≤ n)%Z → hex_value (toString16 n) = n.
Proof.
  intros Hn. unfold toString16. rewrite hex_loop_value; [simpl; lia| |lia].
  split; [done|].
  destruct (Z.eq_dec n 0) as [->|Hne]; [simpl; lia|].
  destruct (Z.log2_spec n) as [_ Hlt]; [lia|].
  rewrite Nat2Z.inj_succ, Z2Nat.id by apply Z.log2_nonneg.
  eapply Z.lt_le_trans; [exact Hlt|].
  apply Z.pow_le_mono_l. lia.
Qed.

Section Hashing.
Context {platform : Platform}.

(** Claim C2, amended.  Without [crypto.subtle], [sha256Hex] does not
    refuse: it returns the text [fallback_] followed by the hexadecimal
    numeral of a 32-bit checksum, the base-31 value of the code units
    modulo 2^32. *)
Theorem sha256Hex_fallback_checksum text :
  crypto_subtle = false →
  ∃ h, sha256Hex text = Return ("fallback_" +:+ toString16 h)
       ∧ h = (poly31 text `mod` 2 ^ 32)%Z
       ∧ (0 ≤ h < 2 ^ 32)%Z
       ∧ hex_value (toString16 h) = h.
Proof.
  intros Hno. exists (checksum_loop 0 text).
  unfold sha256Hex. rewrite Hno. split; [done|].
  rewrite checksum_loop_poly by lia. rewrite Z.mul_0_l, Z.add_0_l.
  split; [done|].
  assert (0 ≤ poly31 text `mod` 2 ^ 32 < 2 ^ 32)%Z as Hh
    by (apply Z.mod_pos_bound; lia).
  split; [done|]. apply hex_value_toString16. lia.
Qed.

(** With [crypto.subtle] the result is the platform's digest. *)
Lemma sha256Hex_subtle text :
  crypto_subtle = true → sha256Hex text = Return (SHA256_hex text).
Proof. intros H. unfold sha256Hex. by rewrite H. Qed.

(** In both cases the hash is a function of the text alone. *)
Lemma sha256Hex_total text : ∃ hash, sha256Hex text = Return hash.
Proof. unfold sha256Hex. destruct crypto_subtle; eauto. Qed.

End Hashing.

Lemma sha256Hex_fallback_checksum_witness :
  crypto_subtle (Platform := reference_platform false) = false
  ∧ ∃ h, sha256Hex (platform := reference_platform false) "password1"
         = Return ("fallback_" +:+ toString16 h)
         ∧ h = (poly31 "password1" `mod` 2 ^ 32)%Z.
Proof.
  split; [reflexivity|].
  destruct (sha256Hex_fallback_checksum (platform := reference_platform false)
              "password1" eq_refl) as (h & Hrun & Hh & _ & _).
  exists h. exact (conj Hrun Hh).
Defined.

(** Claim C2 as stated fails: on a platform without [crypto.subtle] the
    hash of a password is returned, not refused, and it is the weak
    checksum (two passwords with the same hash are easy to find). *)
Lemma sha256Hex_fallback_counterexample :
  sha256Hex (platform := reference_platform false) "password1"
  = Return "fallback_c8ad98f6"
  ∧ sha256Hex (platform := reference_platform false) "AaAaAaAa"
    = sha256Hex (platform := reference_platform false) "BBBBBBBB".
Proof. split; vm_compute; reflexivity. Qed.

(** ** Profiles *)

(** No valid address is the name of a property of [Object.prototype]. *)
Lemma valid_email_not_builtin e :
  isValidEmail e = true → is_builtin_key e = false.
Proof.
  intros Hvalid. unfold is_builtin_key. apply bool_decide_eq_false.
  unfold Object_prototype_keys. rewrite !elem_of_cons, elem_of_nil.
  intros H. repeat (destruct H as [->|H]; [by vm_compute in Hvalid|]). done.
Qed.

Lemma builtin_proto : is_builtin_key "__proto__" = true.
Proof. reflexivity. Qed.

Section Profiles.
Context {platform : Platform}.

Lemma getMyProfile_run w pm :
  session_of w ≠ EmptyString →
  profiles_of w = JObj pm →
  getMyProfile w
  = (Return
       match get_prop pm (session_of w) with
       | Own v =>
           Json (if truthy v then v
                 else JObj {[ "email" := JStr (session_of w) ]})
       | Inherited => Builtin
       | Missing => Json (JObj {[ "email" := JStr (session_of w) ]})
       end, w).
Proof.
  intros He%StrFacts.nonempty_true Hp. unfold getMyProfile.
  unfold bind at 1. rewrite run_getSessionEmail. cbv beta iota. rewrite He.
  unfold bind; cbn [negb]; cbv beta iota. rewrite run_getProfile, Hp. cbn.
  by destruct (get_prop pm (session_of w)).
Qed.

(** Claim C9, amended.  With an active session for [e] and a profile
    table that is an object, [getMyProfile] returns without failing.  A
    stored record for [e] is returned as it is.  When there is none (and
    [e] is not the name of a property of [Object.prototype], as no valid
    address is), the result is the record [{ email: e }]: it holds the
    address and none of the optional fields. *)
Theorem getMyProfile_default_is_email_only w pm :
  session_of w ≠ EmptyString →
  profiles_of w = JObj pm →
  let e := session_of w in
  (∃ r, getMyProfile w = (Return r, w))
  ∧ (∀ v, pm !! e = Some v → truthy v = true →
     getMyProfile w = (Return (Json v), w))
  ∧ (pm !! e = None → is_builtin_key e = false →
     getMyProfile w = (Return (Json (JObj {[ "email" := JStr e ]})), w)
     ∧ ∀ name, name ∈ ["lastName"; "firstName"; "middleName"; "telegram"; "phone"] →
         ({[ "email" := JStr e ]} : gmap string json) !! name = None).
Proof.
  intros He Hp e. rewrite (getMyProfile_run w pm He Hp). fold e.
  split; [eauto|]. unfold get_prop. split.
  - intros v -> ->. done.
  - intros -> ->. split; [done|].
    intros name Hname. apply lookup_singleton_ne.
    intros <-. revert Hname. rewrite !elem_of_cons, elem_of_nil.
    intros H. repeat (destruct H as [H|H]; [discriminate|]). done.
Qed.

Lemma updateProfile_run fields w pm :
  session_of w ≠ EmptyString →
  profiles_of w = JObj pm →
  let e := session_of w in
  let pm1 :=
    match get_prop pm e with
    | Own v => if truthy v then pm
               else assign pm e (JObj {[ "email" := JStr e ]})
    | Inherited => pm
    | Missing => assign pm e (JObj {[ "email" := JStr e ]})
    end in
  let old := match get_prop pm1 e with Own v => spread v | _ => ∅ end in
  updateProfile fields w
  = (Return ok_true,
     write PROFILE_KEY
       (JSON_stringify
          (JObj (assign pm1 e
                   (JObj (<["email" := JStr e]> (spread fields ∪ old))))))
       w).
Proof.
  intros He%StrFacts.nonempty_true Hp. unfold updateProfile.
  unfold bind at 1. rewrite run_getSessionEmail. cbv beta iota. rewrite He.
  unfold bind; cbn [negb]; cbv beta iota. rewrite run_getProfile, Hp. cbn.
  reflexivity.
Qed.

Lemma assign_lookup_eq m k v :
  k ≠ "__proto__" → assign m k v !! k = Some v.
Proof.
  intros Hk. unfold assign. destruct (m !! k); [apply lookup_insert_eq|].
  destruct (String.eqb_spec k "__proto__"); [done|apply lookup_insert_eq].
Qed.

Lemma assign_lookup_ne m k k' v :
  k ≠ k' → assign m k v !! k' = m !! k'.
Proof.
  intros Hk. unfold assign. destruct (m !! k).
  - by apply lookup_insert_ne.
  - destruct (String.eqb k "__proto__"); [done|by apply lookup_insert_ne].
Qed.

(** Claim C10, amended.  With an active session for [e] and a profile
    table that is an object, [updateProfile(fields)] succeeds for every
    [fields], and the record then stored under [e] has [e] as its
    [email], whatever [email] the fields carry.  The records of other
    addresses and the session stay as they are.  ([e] is an address: it
    is not the accessor name [__proto__].) *)
Theorem updateProfile_keeps_email fields w pm :
  session_of w ≠ EmptyString →
  session_of w ≠ "__proto__" →
  profiles_of w = JObj pm →
  let e := session_of w in
  ∃ w' pm' record,
    updateProfile fields w = (Return ok_true, w')
    ∧ profiles_of w' = JObj pm'
    ∧ pm' !! e = Some (JObj record)
    ∧ record !! "email" = Some (JStr e)
    ∧ (∀ other, other ≠ e → pm' !! other = pm !! other)
    ∧ session_of w' = e.
Proof.
  intros He Hproto Hp e.
  pose proof (updateProfile_run fields w pm He Hp) as Hrun.
  cbv zeta in Hrun. fold e in Hrun.
  eexists _, _, _. split; [exact Hrun|].
  split; [apply table_write_eq|].
  split; [by apply assign_lookup_eq|].
  split; [apply lookup_insert_eq|]. split.
  - intros other Hother. rewrite assign_lookup_ne by done.
    destruct (get_prop pm e) as [v| |]; [destruct (truthy v)| |];
      rewrite ?assign_lookup_ne by done; done.
  - by rewrite session_write_ne.
Qed.

End Profiles.

Lemma updateProfile_keeps_email_witness :
  let w := write SESSION_KEY "a@b.com" empty_world in
  let fields := JObj (<["email" := JStr "eve@x.org"]> {[ "phone" := JStr "123" ]}) in
  session_of w ≠ EmptyString
  ∧ session_of w ≠ "__proto__"
  ∧ profiles_of (platform := reference_platform true) w = JObj ∅
  ∧ ∃ w' pm' record,
      updateProfile (platform := reference_platform true) fields w
      = (Return ok_true, w')
      ∧ profiles_of (platform := reference_platform true) w' = JObj pm'
      ∧ pm' !! "a@b.com" = Some (JObj record)
      ∧ record !! "email" = Some (JStr "a@b.com").
Proof.
  intros w fields.
  assert (session_of w ≠ EmptyString) as H1 by done.
  assert (session_of w ≠ "__proto__") as H2 by done.
  assert (profiles_of (platform := reference_platform true) w = JObj ∅) as H3
    by reflexivity.
  split; [exact H1|]. split; [exact H2|]. split; [exact H3|].
  destruct (updateProfile_keeps_email (platform := reference_platform true)
              fields w ∅ H1 H2 H3)
    as (w' & pm' & record & Hrun & Hp & Hrec & Hemail & _).
  exists w', pm', record. exact (conj Hrun (conj Hp (conj Hrec Hemail))).
Defined.

(** Claim C10 as stated fails when the profile table is not an object.
    With a session for [a@b.com] and [null] stored as the table (the
    read [profile[email]] has nothing to index), [updateProfile] throws:
    nothing is written, and no record is stored under the address. *)
Lemma updateProfile_null_table_counterexample :
  let w := write PROFILE_KEY "null" (write SESSION_KEY "a@b.com" empty_world) in
  let fields := JObj {[ "phone" := JStr "123" ]} in
  let run := updateProfile (platform := reference_platform true) fields w in
  session_of w = "a@b.com"
  ∧ run = (Throw, w)
  ∧ profiles_of (platform := reference_platform true) run.2 = JNull.
Proof. repeat split; vm_compute; reflexivity. Qed.

Lemma getMyProfile_default_is_email_only_witness :
  let w := write SESSION_KEY "a@b.com" empty_world in
  session_of w ≠ EmptyString
  ∧ profiles_of (platform := reference_platform true) w = JObj ∅
  ∧ getMyProfile (platform := reference_platform true) w
    = (Return (Json (JObj {[ "email" := JStr "a@b.com" ]})), w).
Proof.
  intros w.
  assert (session_of w ≠ EmptyString) as H1 by done.
  assert (profiles_of (platform := reference_platform true) w = JObj ∅) as H2
    by reflexivity.
  split; [exact H1|]. split; [exact H2|].
  destruct (getMyProfile_default_is_email_only (platform := reference_platform true)
              w ∅ H1 H2) as (_ & _ & Hdefault).
  apply Hdefault; reflexivity.
Defined.

(** Claim C9 as stated fails twice.  With a session and no stored
    profile the result is [{ email }] only: it has no [lastName] (nor
    any other optional field).  And with [null] stored as the profile
    table the read throws. *)
Lemma getMyProfile_counterexample :
  let w := write SESSION_KEY "a@b.com" empty_world in
  (∃ record,
     getMyProfile (platform := reference_platform true) w
     = (Return (Json (JObj record)), w)
     ∧ record !! "email" = Some (JStr "a@b.com")
     ∧ record !! "lastName" = None)
  ∧ getMyProfile (platform := reference_platform true)
      (write PROFILE_KEY "null" w)
    = (Throw, write PROFILE_KEY "null" w).
Proof.
  split.
  - exists {[ "email" := JStr "a@b.com" ]}. split; [|split]; vm_compute; reflexivity.
  - vm_compute. reflexivity.
Qed.

(** ** Running operations step by step *)

Lemma bind_Return {A B} (m : M A) (k : A → M B) w a w1 :
  m w = (Return a, w1) → bind m k w = k a w1.
Proof. intros H. unfold bind. by rewrite H. Qed.

Lemma bind_Throw {A B} (m : M A) (k : A → M B) w w1 :
  m w = (Throw, w1) → bind m k w = (Throw, w1).
Proof. intros H. unfold bind. by rewrite H. Qed.

Lemma bind_inv {A B} (m : M A) (k : A → M B) w b w' :
  bind m k w = (Return b, w') →
  ∃ a w1, m w = (Return a, w1) ∧ k a w1 = (Return b, w').
Proof.
  unfold bind. destruct (m w) as [[a| |] w1]; [eauto|done|done].
Qed.

Lemma lift_inv {A} (o : outcome A) w a w' :
  lift o w = (Return a, w') → o = Return a ∧ w' = w.
Proof. unfold lift. by intros [= -> ->]. Qed.

Lemma ret_inv {A} (x : A) w a w' :
  ret x w = (Return a, w') → a = x ∧ w' = w.
Proof. unfold ret. by intros [= -> ->]. Qed.

(** ** Searching the list of users *)

Section FindIndex.
Variable key : json → outcome string.
Variable target : string.

Lemma findIndex_from_None i l :
  findIndex_from key target i l = Return None ↔ Forall (passes key target) l.
Proof.
  revert i. induction l as [|x l IH]; intros i; simpl.
  - split; [constructor|done].
  - destruct (key x) as [k| |] eqn:Ek.
    + destruct (String.eqb_spec k target) as [->|Hne].
      * split; [done|]. intros [(k' & Hk' & Hne) _]%Forall_cons.
        congruence.
      * rewrite IH. split.
        -- intros Hl. constructor; [by exists k|done].
        -- by intros [_ Hl]%Forall_cons.
    + split; [done|]. intros [(k' & Hk' & _) _]%Forall_cons. congruence.
    + split; [done|]. intros [(k' & Hk' & _) _]%Forall_cons. congruence.
Qed.

Lemma findIndex_from_Some i l j :
  findIndex_from key target i l = Return (Some j) ↔
  ∃ n x, j = i + n ∧ l !! n = Some x ∧ key x = Return target
         ∧ Forall (passes key target) (take n l).
Proof.
  revert i j. induction l as [|x l IH]; intros i j; simpl.
  - split; [done|]. by intros (n & y & _ & Hn & _).
  - destruct (key x) as [k| |] eqn:Ek.
    + destruct (String.eqb_spec k target) as [->|Hne].
      * split.
        -- intros [= <-]. exists 0, x. rewrite Nat.add_0_r.
           repeat split; [done|constructor].
        -- intros ([|n] & y & -> & Hn & Hy & Hpass).
           ++ by rewrite Nat.add_0_r.
           ++ simpl in Hpass. apply Forall_cons in Hpass as [(k' & Hk' & Hne) _].
              congruence.
      * rewrite IH. split.
        -- intros (n & y & -> & Hn & Hy & Hpass). exists (S n), y.
           repeat split; [lia|done|done|].
           simpl. constructor; [by exists k|done].
        -- intros ([|n] & y & -> & Hn & Hy & Hpass).
           ++ simpl in Hn. simplify_eq. congruence.
           ++ exists n, y. simpl in Hn, Hpass.
              apply Forall_cons in Hpass as [_ Hpass].
              repeat split; [lia|done|done|done].
    + split; [done|]. intros ([|n] & y & -> & Hn & Hy & Hpass).
      * simpl in Hn. simplify_eq. congruence.
      * simpl in Hpass. apply Forall_cons in Hpass as [(k' & Hk' & _) _].
        congruence.
    + split; [done|]. intros ([|n] & y & -> & Hn & Hy & Hpass).
      * simpl in Hn. simplify_eq. congruence.
      * simpl in Hpass. apply Forall_cons in Hpass as [(k' & Hk' & _) _].
        congruence.
Qed.

Lemma findIndex_None l :
  findIndex key target l = Return None ↔ Forall (passes key target) l.
Proof. apply findIndex_from_None. Qed.

Lemma findIndex_Some l j :
  findIndex key target l = Return (Some j) ↔
  ∃ x, l !! j = Some x ∧ key x = Return target ∧ Forall (passes key target) (take j l).
Proof.
  unfold findIndex. rewrite findIndex_from_Some. split.
  - intros (n & x & -> & H). by exists x.
  - intros (x & H). by exists j, x.
Qed.

End FindIndex.

(** Where [x.email.toLowerCase()] returns, [(u.email || "").toLowerCase()]
    returns the same. *)
Lemma email_key_lenient_strict x k :
  email_key_strict x = Return k → email_key_lenient x = Return k.
Proof.
  destruct x as [| | | | |m]; try done. simpl.
  destruct (m !! "email") as [[| | |s| |]|]; try done.
  intros [= <-]. simpl. by destruct s.
Qed.

Lemma findIndex_lenient_strict target l j :
  findIndex email_key_strict target l = Return (Some j) →
  findIndex email_key_lenient target l = Return (Some j).
Proof.
  rewrite !findIndex_Some. intros (x & Hx & Hk & Hpass).
  exists x. split; [done|]. split; [by apply email_key_lenient_strict|].
  eapply Forall_impl; [exact Hpass|].
  intros y (k & Hk' & Hne). exists k. split; [|done].
  by apply email_key_lenient_strict.
Qed.

(** The element found by the strict search is an object with a string
    under [email]. *)
Lemma email_key_strict_inv x k :
  email_key_strict x = Return k →
  ∃ m s, x = JObj m ∧ m !! "email" = Some (JStr s) ∧ k = Str.toLowerCase s.
Proof.
  destruct x as [| | | | |m]; try done. simpl.
  destruct (m !! "email") as [[| | |s| |]|] eqn:E; try done.
  intros [= <-]. eauto.
Qed.

(** ** Referral codes *)

Lemma same_store_refl w : same_store w w.
Proof. done. Qed.

Lemma same_store_drawn w w' : same_store w w' → same_store w (drawn w').
Proof. by intros [? ?]. Qed.

Lemma append_nonempty s c t : Str.nonempty (s +:+ String c t) = true.
Proof. by destruct s. Qed.

Lemma append_nonempty_l s t :
  Str.nonempty s = true → Str.nonempty (s +:+ t) = true.
Proof. by destruct s. Qed.

Section RefCodes.
Context {platform : Platform}.

Lemma table_same_store key empty_text fallback w w' :
  same_store w w' →
  table key empty_text fallback w' = table key empty_text fallback w.
Proof. intros [Hs _]. unfold table. by rewrite Hs. Qed.

Lemma session_same_store w w' : same_store w w' → session_of w' = session_of w.
Proof. intros [Hs _]. unfold session_of. by rewrite Hs. Qed.

Lemma incoming_same_store w w' : same_store w w' → incoming_of w' = incoming_of w.
Proof. intros [Hs _]. unfold incoming_of. by rewrite Hs. Qed.

Lemma generateRefCode_loop_run env n : ∀ s w,
  ∃ code w',
    generateRefCode_loop env n s w = (Return code, w')
    ∧ same_store w w'
    ∧ (Str.nonempty s = true ∨ 0 < n → Str.nonempty code = true).
Proof.
  induction n as [|n IH]; intros s w.
  - exists s, w. split; [done|]. split; [done|]. intros [H|H]; [done|lia].
  - cbn [generateRefCode_loop]. unfold bind, random_index.
    destruct (String.get (random env (draws w) `mod` 32) alphabet) as [c|].
    + destruct (IH (s +:+ String c EmptyString) (drawn w))
        as (code & w' & Hrun & Hsame & Hne).
      exists code, w'. split; [done|].
      split; [by destruct Hsame|].
      intros _. apply Hne. left. apply append_nonempty.
    + destruct (IH (s +:+ "undefined") (drawn w))
        as (code & w' & Hrun & Hsame & Hne).
      exists code, w'. split; [done|].
      split; [by destruct Hsame|].
      intros _. apply Hne. left. apply append_nonempty.
Qed.

(** [generateRefCode] always returns, a code that is not empty, and
    leaves the store as it is. *)
Lemma generateRefCode_run env w :
  ∃ code w',
    generateRefCode env w = (Return code, w')
    ∧ same_store w w'
    ∧ Str.nonempty code = true.
Proof.
  destruct (generateRefCode_loop_run env 8 EmptyString w)
    as (code & w' & Hrun & Hsame & Hne).
  exists code, w'. split; [done|]. split; [done|]. apply Hne. right. lia.
Qed.

Lemma alphabet_no_space i c :
  String.get i alphabet = Some c → Str.is_space c = false.
Proof.
  do 32 (destruct i as [|i]; [by intros [= <-]|]). done.
Qed.

Lemma generateRefCode_loop_no_space env n : ∀ s w code w',
  generateRefCode_loop env n s w = (Return code, w') →
  Str.no_space s = true → Str.no_space code = true.
Proof.
  induction n as [|n IH]; intros s w code w'.
  - by intros [-> _]%ret_inv.
  - cbn [generateRefCode_loop]. unfold bind, random_index.
    destruct (String.get (random env (draws w) `mod` 32) alphabet) as [c|] eqn:Ec.
    + intros Hrun Hs. eapply IH; [exact Hrun|].
      rewrite StrFacts.no_space_app, Hs. simpl.
      by rewrite (alphabet_no_space _ _ Ec).
    + intros Hrun Hs. eapply IH; [exact Hrun|].
      by rewrite StrFacts.no_space_app, Hs.
Qed.

(** A generated code has no white space: trimming leaves it as it is. *)
Lemma generateRefCode_trimmed env w code w' :
  generateRefCode env w = (Return code, w') → Str.trim code = code.
Proof.
  intros Hrun. apply StrFacts.trim_no_space.
  by eapply generateRefCode_loop_no_space.
Qed.

Lemma ensureUserRefCode_present env l i m email w :
  findIndex email_key_lenient (Str.toLowerCase email) l = Return (Some i) →
  l !! i = Some (JObj m) →
  has_refCode m = true →
  ensureUserRefCode env (JArr l) email w = (Return (m !! "refCode"), w).
Proof.
  intros Hidx Hi Hcode. unfold ensureUserRefCode.
  unfold bind, lift; cbn. rewrite Hidx, Hi. by rewrite Hcode.
Qed.

Lemma ensureUserRefCode_backfill env l i m email w :
  findIndex email_key_lenient (Str.toLowerCase email) l = Return (Some i) →
  l !! i = Some (JObj m) →
  has_refCode m = false →
  ∃ code w1,
    generateRefCode env w = (Return code, w1)
    ∧ same_store w w1
    ∧ Str.nonempty code = true
    ∧ ensureUserRefCode env (JArr l) email w
      = (Return (Some (JStr code)),
         write USERS_KEY
           (JSON_stringify
              (JArr (<[i := JObj (<["refCode" := JStr code]> m)]> l))) w1).
Proof.
  intros Hidx Hi Hcode.
  destruct (generateRefCode_run env w) as (code & w1 & Hgen & Hsame & Hne).
  exists code, w1. repeat split; try done; try apply Hsame.
  unfold ensureUserRefCode.
  unfold bind at 1, lift at 1; cbn [as_array].
  unfold bind at 1, lift at 1. rewrite Hidx, Hi, Hcode.
  unfold bind at 1. rewrite Hgen. reflexivity.
Qed.

Lemma getCurrentUser_present env w l i m uemail :
  session_of w ≠ EmptyString →
  users_of w = JArr l →
  findIndex email_key_strict (Str.toLowerCase (session_of w)) l
  = Return (Some i) →
  l !! i = Some (JObj m) →
  m !! "email" = Some (JStr uemail) →
  has_refCode m = true →
  getCurrentUser env w
  = (Return (Some {| v_email := uemail;
                     v_refCode := or_else (m !! "refCode") (JStr "") |}), w).
Proof.
  intros He%StrFacts.nonempty_true Hu Hidx Hi Hm Hcode.
  unfold getCurrentUser.
  unfold bind at 1. rewrite run_getSessionEmail. cbv beta iota. rewrite He.
  cbn [negb]. cbv iota. unfold bind at 1. rewrite run_getUsers, Hu.
  unfold bind, lift; cbn. rewrite Hidx, Hi, Hm. by rewrite Hcode.
Qed.

End RefCodes.

(** ** Following a referral link *)

Section Referral.
Context {platform : Platform}.

(** The guard of [initRefFromUrl] where it holds: when the [ref]
    parameter is, code unit for code unit, the logged-in viewer's own
    code, the call returns with one write only.  The code is put into
    the staging slot, trimmed as [setIncomingRef] does (a code without
    white space, as every generated code is, is stored as it is); the
    ledger is not written. *)
Lemma initRefFromUrl_own_code_not_counted env w code m :
  ref_param env = Some code →
  code ≠ EmptyString →
  session_of w ≠ EmptyString →
  viewer_record w m →
  m !! "refCode" = Some (JStr code) →
  ∃ w',
    initRefFromUrl env w = (Return tt, w')
    ∧ journal w' = journal w ++ [SetItem INCOMING_REF_KEY (Str.trim code)]
    ∧ storage w' !! REF_LOG_KEY = storage w !! REF_LOG_KEY
    ∧ reflog_of w' = reflog_of w
    ∧ storage w' !! INCOMING_REF_KEY = Some (Str.trim code)
    ∧ incoming_of w' = Str.trim code
    ∧ (Str.no_space code = true → storage w' !! INCOMING_REF_KEY = Some code).
Proof.
  intros Hparam Hcode He (l & i & Hu & Hidx & Hi) Hm.
  set (w0 := write INCOMING_REF_KEY (Str.trim code) w).
  assert (session_of w0 = session_of w) as Hs0
    by (apply session_write_ne; keys).
  assert (users_of w0 = JArr l) as Hu0.
  { unfold users_of, w0. rewrite table_write_ne by keys. exact Hu. }
  pose proof Hidx as Hfound. apply findIndex_Some in Hfound
    as (x & Hx & Hkey & _).
  rewrite Hi in Hx. injection Hx as <-.
  apply email_key_strict_inv in Hkey as (m' & uemail & [= <-] & Hemail & Hlow).
  assert (has_refCode m = true) as Hhas.
  { unfold has_refCode. rewrite Hm. simpl.
    apply StrFacts.nonempty_true in Hcode. by rewrite Hcode. }
  exists w0. split.
  - unfold initRefFromUrl, try_catch. rewrite Hparam.
    apply StrFacts.nonempty_true in Hcode as Hcode'. rewrite Hcode'.
    cbn [negb]. cbv iota.
    rewrite (bind_Return _ _ w tt w0) by reflexivity.
    rewrite (bind_Return _ _ w0 _ w0
               (getCurrentUser_present env w0 l i m uemail
                  ltac:(by rewrite Hs0) Hu0 ltac:(by rewrite Hs0) Hi Hemail Hhas)).
    cbv beta iota.
    rewrite (bind_Return _ _ w0 true w0).
    { reflexivity. }
    rewrite (bind_Return _ _ w0 _ w0 (run_getUsers w0)), Hu0.
    cbn [v_email].
    rewrite (bind_Return _ _ w0 _ w0
               (ensureUserRefCode_present env l i m uemail w0
                  ltac:(rewrite <- Hlow; by apply findIndex_lenient_strict)
                  Hi Hhas)).
    rewrite Hm, Hcode', String.eqb_refl. reflexivity.
  - split; [done|]. split; [by apply lookup_insert_ne|].
    split; [apply table_write_ne; keys|].
    split; [apply lookup_insert_eq|]. split; [apply incoming_write|].
    intros Hns. unfold w0; simpl.
    rewrite lookup_insert_eq. by rewrite StrFacts.trim_no_space.
Qed.

End Referral.

(** The guard on an example: the parameter is the code as stored. *)
Lemma initRefFromUrl_own_code_not_counted_witness :
  let user :=
    new_user "a@b.com" "0123abcd" "ABCDEFGH" "" in
  let w :=
    write SESSION_KEY "a@b.com"
      (write USERS_KEY (Codec.JSON_stringify (JArr [user])) empty_world) in
  let env := example_env 0 (Some "ABCDEFGH") in
  ∃ m,
    ref_param env = Some "ABCDEFGH"
    ∧ session_of w ≠ EmptyString
    ∧ viewer_record (platform := reference_platform true) w m
    ∧ m !! "refCode" = Some (JStr "ABCDEFGH")
    ∧ ∃ w', initRefFromUrl (platform := reference_platform true) env w
            = (Return tt, w')
            ∧ reflog_of (platform := reference_platform true) w'
              = reflog_of (platform := reference_platform true) w
            ∧ storage w' !! INCOMING_REF_KEY = Some "ABCDEFGH".
Proof.
  intros user w env.
  assert (∃ m, user = JObj m ∧ m !! "refCode" = Some (JStr "ABCDEFGH"))
    as (m & Huser & Hm) by (eexists; split; reflexivity).
  exists m.
  assert (ref_param env = Some "ABCDEFGH") as H1 by reflexivity.
  assert (session_of w ≠ EmptyString) as H2 by done.
  assert (viewer_record (platform := reference_platform true) w m) as H3.
  { exists [user], 0. split; [|split].
    - vm_compute; reflexivity.
    - reflexivity.
    - by rewrite Huser. }
  split; [exact H1|]. split; [exact H2|]. split; [exact H3|]. split; [exact Hm|].
  destruct (initRefFromUrl_own_code_not_counted (platform := reference_platform true)
              env w "ABCDEFGH" m H1 ltac:(done) H2 H3 Hm)
    as (w' & Hrun & _ & _ & Hlog & _ & _ & Hinc).
  exists w'. exact (conj Hrun (conj Hlog (Hinc eq_refl))).
Defined.

(** Claim C6 fails on the code.  The user [a@b.com], whose code is
    [ABCDEFGH], is logged in and opens the page with [ref] set to the
    code with a blank before it.  [setIncomingRef] and [recordRefClick]
    trim the parameter, the guard [String(myCode) === String(code)] does
    not: the code staged is the viewer's own, the guard does not see it,
    and a click is recorded in the ledger under the viewer's own code,
    which had none before.  (Lemma
    [initRefFromUrl_counts_padded_own_code] shows the same for every store,
    viewer and padding.) *)
Theorem initRefFromUrl_padded_own_code_is_counted :
  let user := new_user "a@b.com" "0123abcd" "ABCDEFGH" "" in
  let w :=
    write SESSION_KEY "a@b.com"
      (write USERS_KEY (Codec.JSON_stringify (JArr [user])) empty_world) in
  let env := example_env 0 (Some " ABCDEFGH") in
  let run := initRefFromUrl (platform := reference_platform true) env w in
  (getCurrentUser (platform := reference_platform true) env w).1
  = Return (Some {| v_email := "a@b.com"; v_refCode := JStr "ABCDEFGH" |})
  ∧ (getRefStatsFor (platform := reference_platform true) "ABCDEFGH" w).1
    = Return (stats (JArr []) (JArr []))
  ∧ run.1 = Return tt
  ∧ storage run.2 !! INCOMING_REF_KEY = Some "ABCDEFGH"
  ∧ (getRefStatsFor (platform := reference_platform true) "ABCDEFGH" run.2).1
    = Return (stats (JArr [click_record env]) (JArr [])).
Proof. repeat split; vm_compute; reflexivity. Qed.

(** ** Logging in *)

Lemma ok_true_not_failure message : ok_true ≠ failure message.
Proof.
  intros H.
  apply (f_equal (λ v, match v with JObj m => m !! "ok" | _ => None end)) in H.
  unfold ok_true, failure in H.
  rewrite lookup_singleton_eq, lookup_insert_eq in H. discriminate.
Qed.

Section Login.
Context {platform : Platform}.

Lemma registered_email w e l i m :
  registered w e l i m →
  ∃ uemail, m !! "email" = Some (JStr uemail)
            ∧ Str.toLowerCase uemail = Str.toLowerCase e.
Proof.
  intros (_ & Hidx & Hi). apply findIndex_Some in Hidx as (x & Hx & Hkey & _).
  rewrite Hi in Hx. injection Hx as <-.
  apply email_key_strict_inv in Hkey as (m' & uemail & [= <-] & Hemail & Hlow).
  eauto.
Qed.

(** What [login] does once the user is found and the hash is equal. *)
Lemma login_commit env w e l i m uemail :
  registered w e l i m →
  m !! "email" = Some (JStr uemail) →
  ∃ w' m',
    (let! _ := setSessionEmail uemail in
     let! users2 := getUsers in
     let! _ := ensureUserRefCode env users2 uemail in
     ret ok_true) w = (Return ok_true, w')
    ∧ session_of w' = uemail
    ∧ users_of w' = JArr (<[i := JObj m']> l)
    ∧ has_refCode m' = true
    ∧ (has_refCode m = true → m' = m)
    ∧ (∀ name, name ≠ "refCode" → m' !! name = m !! name)
    ∧ ∀ key, key ≠ SESSION_KEY → key ≠ USERS_KEY →
        storage w' !! key = storage w !! key.
Proof.
  intros Hreg Hemail.
  destruct (registered_email _ _ _ _ _ Hreg) as (uemail' & Hemail' & Hlow).
  rewrite Hemail in Hemail'. injection Hemail' as <-.
  destruct Hreg as (Hu & Hidx & Hi).
  set (w1 := write SESSION_KEY uemail w).
  assert (users_of w1 = JArr l) as Hu1.
  { unfold users_of, w1. rewrite table_write_ne by keys. exact Hu. }
  assert (findIndex email_key_lenient (Str.toLowerCase uemail) l
          = Return (Some i)) as Hidx'.
  { rewrite Hlow. by apply findIndex_lenient_strict. }
  rewrite (bind_Return _ _ w tt w1) by reflexivity.
  rewrite (bind_Return _ _ w1 _ w1 (run_getUsers w1)), Hu1.
  destruct (has_refCode m) eqn:Hhas.
  - exists w1, m.
    rewrite (bind_Return _ _ w1 _ w1
               (ensureUserRefCode_present env l i m uemail w1 Hidx' Hi Hhas)).
    split; [done|]. split; [apply session_write|].
    split; [by rewrite list_insert_id|].
    split; [done|]. split; [done|]. split; [done|].
    intros key Hk _. unfold w1; simpl. by rewrite lookup_insert_ne.
  - destruct (ensureUserRefCode_backfill env l i m uemail w1 Hidx' Hi Hhas)
      as (code & w2 & Hgen & [Hst Hj] & Hne & Hrun).
    eexists _, (<["refCode" := JStr code]> m).
    rewrite (bind_Return _ _ w1 _ _ Hrun).
    split; [done|]. split; [|split; [|split; [|split; [|split]]]].
    + rewrite session_write_ne by keys.
      rewrite (session_same_store w1 w2) by done. apply session_write.
    + apply table_write_eq.
    + unfold has_refCode. rewrite lookup_insert_eq. simpl. by rewrite Hne.
    + done.
    + intros name Hname. by apply lookup_insert_ne.
    + intros key Hk1 Hk2. simpl. rewrite lookup_insert_ne by done.
      rewrite Hst. unfold w1; simpl. by rewrite lookup_insert_ne.
Qed.

Lemma login_found env email password w l i m uemail :
  isValidEmail (Str.trim email) = true →
  8 ≤ String.length password →
  registered w (Str.trim email) l i m →
  m !! "email" = Some (JStr uemail) →
  login env email password w
  = (let! passHash := lift (sha256Hex password) in
     let same :=
       match m !! "passHash" with
       | Some (JStr h) => String.eqb passHash h
       | _ => false
       end in
     if negb same then ret (failure MSG_WRONG_PASSWORD)
     else
       let! _ := setSessionEmail uemail in
       let! users2 := getUsers in
       let! _ := ensureUserRefCode env users2 uemail in
       ret ok_true) w.
Proof.
  intros Hvalid Hlen (Hu & Hidx & Hi) Hemail. unfold login.
  rewrite Hvalid. cbn [negb]. cbv iota.
  apply Nat.ltb_ge in Hlen. rewrite Hlen.
  rewrite (bind_Return _ _ w _ w (run_getUsers w)), Hu.
  rewrite (bind_Return _ _ w l w) by reflexivity.
  rewrite (bind_Return _ _ w (Some i) w) by (unfold lift; by rewrite Hidx).
  cbv beta iota. by rewrite Hi, Hemail.
Qed.

Lemma login_inv env email password w r w' :
  login env email password w = (Return r, w') →
  (w' = w
   ∧ (r = failure MSG_INVALID_EMAIL ∨ r = failure MSG_WEAK_PASSWORD
      ∨ r = failure MSG_USER_NOT_FOUND ∨ r = failure MSG_WRONG_PASSWORD))
  ∨ (r = ok_true
     ∧ isValidEmail (Str.trim email) = true
     ∧ 8 ≤ String.length password
     ∧ ∃ l i m uemail h,
         registered w (Str.trim email) l i m
         ∧ m !! "email" = Some (JStr uemail)
         ∧ sha256Hex password = Return h
         ∧ m !! "passHash" = Some (JStr h)).
Proof.
  intros H. unfold login in H.
  destruct (isValidEmail (Str.trim email)) eqn:Hvalid; cbn [negb] in H;
    [|apply ret_inv in H as [-> ->]; left; auto].
  destruct (String.length password <? 8) eqn:Hlen;
    [apply ret_inv in H as [-> ->]; left; auto|].
  apply Nat.ltb_ge in Hlen.
  apply bind_inv in H as (users & w1 & Husers & H).
  rewrite run_getUsers in Husers. injection Husers as <- <-.
  apply bind_inv in H as (l & w1 & Hl & H).
  apply lift_inv in Hl as [Hl ->].
  assert (users_of w = JArr l) as Hu
    by (destruct (users_of w); simpl in Hl; congruence).
  apply bind_inv in H as (idx & w1 & Hidx & H).
  apply lift_inv in Hidx as [Hidx ->].
  destruct idx as [i|]; [|apply ret_inv in H as [-> ->]; left; auto].
  destruct (l !! i) as [[| | | | |m]|] eqn:Hi;
    try (by apply lift_inv in H as [? _]).
  destruct (m !! "email") as [[| | |uemail| |]|] eqn:Hemail;
    try (by apply lift_inv in H as [? _]).
  apply bind_inv in H as (h & w1 & Hh & H).
  apply lift_inv in Hh as [Hh ->].
  destruct (m !! "passHash") as [[| | |h'| |]|] eqn:Hpass; cbn [negb] in H;
    try (apply ret_inv in H as [-> ->]; left; by auto).
  destruct (String.eqb_spec h h') as [<-|Hne]; cbn [negb] in H;
    [|apply ret_inv in H as [-> ->]; left; auto].
  right.
  apply bind_inv in H as (? & w1 & _ & H).
  apply bind_inv in H as (? & w2 & _ & H).
  apply bind_inv in H as (? & w3 & _ & H).
  apply ret_inv in H as [-> _].
  split; [done|]. split; [done|]. split; [done|].
  by exists l, i, m, uemail, h.
Qed.

(** A registered user logs in with the password whose hash is stored. *)
Lemma login_ok_run env email password w l i m uemail h :
  isValidEmail (Str.trim email) = true →
  8 ≤ String.length password →
  registered w (Str.trim email) l i m →
  m !! "email" = Some (JStr uemail) →
  sha256Hex password = Return h →
  m !! "passHash" = Some (JStr h) →
  ∃ w' m',
    login env email password w = (Return ok_true, w')
    ∧ session_of w' = uemail
    ∧ users_of w' = JArr (<[i := JObj m']> l)
    ∧ has_refCode m' = true
    ∧ (has_refCode m = true → m' = m)
    ∧ (∀ name, name ≠ "refCode" → m' !! name = m !! name).
Proof.
  intros Hvalid Hlen Hreg Hemail Hh Hpass.
  rewrite (login_found env email password w l i m uemail) by done.
  rewrite (bind_Return _ _ w h w) by (unfold lift; by rewrite Hh).
  rewrite Hpass, String.eqb_refl. cbn [negb]. cbv iota zeta.
  destruct (login_commit env w _ l i m uemail Hreg Hemail)
    as (w' & m' & Hrun & Hs & Hu & Hhas & Hsame & Hother & _).
  by exists w', m'.
Qed.

(** Claim C7, amended.  A [login] that returns normally returns either
    the flag object [{ ok: true }] (and nothing of the matched user) or
    one of the four failures, which leave the world as it is.  For a
    registered user and the password whose hash is stored, it returns
    the flag; the session then holds the stored address of the matched
    user, and that record has a referral code: its own when it had one,
    a fresh one otherwise, nothing else in the record being changed. *)
Theorem login_returns_flag_and_backfills env email password w :
  (∀ r w', login env email password w = (Return r, w') →
     (r = ok_true ∨ r = failure MSG_INVALID_EMAIL
      ∨ r = failure MSG_WEAK_PASSWORD ∨ r = failure MSG_USER_NOT_FOUND
      ∨ r = failure MSG_WRONG_PASSWORD)
     ∧ (r ≠ ok_true → w' = w))
  ∧ (∀ l i m uemail h,
       isValidEmail (Str.trim email) = true →
       8 ≤ String.length password →
       registered w (Str.trim email) l i m →
       m !! "email" = Some (JStr uemail) →
       sha256Hex password = Return h →
       m !! "passHash" = Some (JStr h) →
       ∃ w' m',
         login env email password w = (Return ok_true, w')
         ∧ session_of w' = uemail
         ∧ users_of w' = JArr (<[i := JObj m']> l)
         ∧ has_refCode m' = true
         ∧ (has_refCode m = true → m' = m)
         ∧ (∀ name, name ≠ "refCode" → m' !! name = m !! name)).
Proof.
  split.
  - intros r w' [(-> & H)|(-> & _)]%login_inv.
    + split; [tauto|done].
    + split; [tauto|done].
  - intros l i m uemail h. apply login_ok_run.
Qed.

End Login.

Lemma login_returns_flag_and_backfills_witness :
  let user :=
    JObj (<["email" := JStr "a@b.com"]>
          {[ "passHash" := JStr (SHA256_hex (Platform := reference_platform true)
                                   "password1") ]}) in
  let w := write USERS_KEY (Codec.JSON_stringify (JArr [user])) empty_world in
  ∃ m h,
    isValidEmail (Str.trim "A@B.com") = true
    ∧ 8 ≤ String.length "password1"
    ∧ registered (platform := reference_platform true) w (Str.trim "A@B.com")
        [user] 0 m
    ∧ m !! "email" = Some (JStr "a@b.com")
    ∧ sha256Hex (platform := reference_platform true) "password1" = Return h
    ∧ m !! "passHash" = Some (JStr h)
    ∧ ∃ w' m',
        login (platform := reference_platform true) (example_env 0 None)
          "A@B.com" "password1" w = (Return ok_true, w')
        ∧ session_of w' = "a@b.com"
        ∧ users_of (platform := reference_platform true) w'
          = JArr [JObj m']
        ∧ has_refCode m' = true.
Proof.
  intros user w.
  assert (∃ m, user = JObj m
               ∧ m !! "email" = Some (JStr "a@b.com")
               ∧ m !! "passHash"
                 = Some (JStr (SHA256_hex (Platform := reference_platform true)
                                 "password1")))
    as (m & Huser & Hemail & Hpass) by (eexists; repeat split; reflexivity).
  exists m, (SHA256_hex (Platform := reference_platform true) "password1").
  assert (isValidEmail (Str.trim "A@B.com") = true) as H1 by reflexivity.
  assert (8 ≤ String.length "password1") as H2 by (simpl; lia).
  assert (registered (platform := reference_platform true) w
            (Str.trim "A@B.com") [user] 0 m) as H3.
  { split; [|split].
    - vm_compute; reflexivity.
    - reflexivity.
    - by rewrite Huser. }
  assert (sha256Hex (platform := reference_platform true) "password1"
          = Return (SHA256_hex (Platform := reference_platform true) "password1"))
    as H5 by reflexivity.
  split; [exact H1|]. split; [exact H2|]. split; [exact H3|].
  split; [exact Hemail|]. split; [exact H5|]. split; [exact Hpass|].
  destruct (login_returns_flag_and_backfills (platform := reference_platform true)
              (example_env 0 None) "A@B.com" "password1" w) as [_ Hok].
  destruct (Hok [user] 0 m "a@b.com" _ H1 H2 H3 Hemail H5 Hpass)
    as (w' & m' & Hrun & Hs & Hu & Hhas & _).
  exists w', m'. exact (conj Hrun (conj Hs (conj Hu Hhas))).
Defined.

(** Claim C7 as stated fails: a successful [login] returns the flag
    object [{ ok: true }]; the record of the matched user is not in it. *)
Lemma login_result_counterexample :
  let user := new_user "a@b.com"
                (SHA256_hex (Platform := reference_platform true) "password1")
                "ABCDEFGH" "" in
  let w := write USERS_KEY (Codec.JSON_stringify (JArr [user])) empty_world in
  let r := (login (platform := reference_platform true) (example_env 0 None)
              "a@b.com" "password1" w).1 in
  r = Return ok_true
  ∧ r ≠ Return user
  ∧ match r with
    | Return (JObj flag) => flag !! "email" = None ∧ flag !! "refCode" = None
    | _ => False
    end.
Proof.
  intros user w r.
  assert (r = Return ok_true) as H by (vm_compute; reflexivity).
  split; [exact H|]. rewrite H. split; [|split; vm_compute; reflexivity].
  intros Heq.
  apply (f_equal (λ o, match o with
                       | Return (JObj m) => m !! "ok"
                       | _ => None
                       end)) in Heq.
  vm_compute in Heq. discriminate.
Qed.

(** ** Registering *)

Lemma new_user_email e h c r :
  new_user_fields e h c r !! "email" = Some (JStr e).
Proof. apply lookup_insert_eq. Qed.

Lemma new_user_passHash e h c r :
  new_user_fields e h c r !! "passHash" = Some (JStr h).
Proof.
  unfold new_user_fields. rewrite lookup_insert_ne by done.
  apply lookup_insert_eq.
Qed.

Lemma new_user_refCode e h c r :
  new_user_fields e h c r !! "refCode" = Some (JStr c).
Proof.
  unfold new_user_fields. rewrite !lookup_insert_ne by done.
  apply lookup_insert_eq.
Qed.

Lemma new_user_key e h c r :
  email_key_strict (new_user e h c r) = Return (Str.toLowerCase e).
Proof. unfold new_user, email_key_strict. by rewrite new_user_email. Qed.

Lemma findIndex_snoc key target l x :
  Forall (passes key target) l → key x = Return target →
  findIndex key target (l ++ [x]) = Return (Some (List.length l)).
Proof.
  intros Hl Hx. apply findIndex_Some. exists x.
  split; [by rewrite lookup_app_r, Nat.sub_diag|]. split; [done|].
  by rewrite take_app_length.
Qed.

Section Register.
Context {platform : Platform}.

Lemma recordRefReg_run env code email w lm em regs :
  Str.trim code ≠ EmptyString →
  reflog_of w = JObj lm →
  entry_for lm (Str.trim code) = Some (JObj em) →
  em !! "regs" = Some (JArr regs) →
  recordRefReg env code email w
  = (Return tt,
     write REF_LOG_KEY
       (JSON_stringify
          (JObj (assign lm (Str.trim code)
                   (JObj (<["regs" := JArr (take 500 (reg_record env email :: regs))]> em)))))
       w).
Proof.
  intros Hc Hlog Hentry Hregs. unfold recordRefReg.
  apply StrFacts.nonempty_true in Hc. rewrite Hc.
  unfold bind; cbn [negb]; cbv beta iota. rewrite run_getRefLog, Hlog. cbn.
  rewrite Hentry. cbn. rewrite Hregs. reflexivity.
Qed.

(** A call of [recordRefReg] that returns has written the ledger, or
    nothing (for a blank code). *)
Lemma recordRefReg_inv env code email w w' :
  recordRefReg env code email w = (Return tt, w') →
  (Str.trim code = EmptyString ∧ w' = w)
  ∨ (Str.trim code ≠ EmptyString
     ∧ ∃ lm em regs,
         reflog_of w = JObj lm
         ∧ entry_for lm (Str.trim code) = Some (JObj em)
         ∧ em !! "regs" = Some (JArr regs)
         ∧ w' = write REF_LOG_KEY
                  (JSON_stringify
                     (JObj (assign lm (Str.trim code)
                              (JObj (<["regs" := JArr (take 500 (reg_record env email :: regs))]> em)))))
                  w).
Proof.
  unfold recordRefReg. destruct (Str.trim code) as [|c0 c] eqn:Ec.
  - intros [_ ->]%ret_inv. by left.
  - cbn [Str.nonempty negb]. intros H. right. split; [done|].
    apply bind_inv in H as (log & w1 & Hlog & H).
    rewrite run_getRefLog in Hlog. injection Hlog as <- <-.
    apply bind_inv in H as (lm & w1 & Hlm & H).
    apply lift_inv in Hlm as [Hlm ->].
    apply bind_inv in H as (entry & w1 & Hentry & H).
    apply lift_inv in Hentry as [Hentry ->].
    injection H as <-.
    assert (reflog_of w = JObj lm) as Hobj
      by (destruct (reflog_of w); simpl in Hlm; congruence).
    unfold unshift_capped in Hentry.
    destruct (entry_for lm (String c0 c)) as [[| | | | |em]|] eqn:He; try done.
    destruct (em !! "regs") as [[| | | |regs|]|] eqn:Hr; try done.
    injection Hentry as <-. by exists lm, em, regs.
Qed.

Lemma attributed_users env e w w' :
  attributed env e w w' → users_of w' = users_of w.
Proof.
  intros [[_ ->]|(_ & lm & em & regs & _ & _ & _ & ->)]; [done|].
  unfold users_of. rewrite table_erase_ne, table_write_ne by keys. done.
Qed.

Lemma attributed_profiles env e w w' :
  attributed env e w w' → profiles_of w' = profiles_of w.
Proof.
  intros [[_ ->]|(_ & lm & em & regs & _ & _ & _ & ->)]; [done|].
  unfold profiles_of. rewrite table_erase_ne, table_write_ne by keys. done.
Qed.

Lemma attributed_run env e w w' :
  attributed env e w w' →
  (if Str.nonempty (incoming_of w)
   then do! recordRefReg env (incoming_of w) e in clearIncomingRef
   else ret tt) w = (Return tt, w').
Proof.
  intros [[Hinc ->]|(Hinc & lm & em & regs & Hlog & Hentry & Hregs & ->)].
  - by rewrite Hinc.
  - pose proof Hinc as Hne. apply StrFacts.nonempty_true in Hne. rewrite Hne.
    pose proof (recordRefReg_run env (incoming_of w) e w lm em regs) as Hrun.
    rewrite !incoming_trim in Hrun. specialize (Hrun Hinc Hlog Hentry Hregs).
    by rewrite (bind_Return _ _ _ _ _ Hrun).
Qed.

Lemma attributed_inv env e w w' :
  (if Str.nonempty (incoming_of w)
   then do! recordRefReg env (incoming_of w) e in clearIncomingRef
   else ret tt) w = (Return tt, w') →
  attributed env e w w'.
Proof.
  destruct (Str.nonempty (incoming_of w)) eqn:Hne.
  - intros H. apply bind_inv in H as ([] & w1 & Hrec & H).
    injection H as <-. apply StrFacts.nonempty_true in Hne.
    apply recordRefReg_inv in Hrec
      as [[Hblank _]|(_ & lm & em & regs & Hlog & Hentry & Hregs & ->)].
    + rewrite incoming_trim in Hblank. done.
    + rewrite incoming_trim in *. right. split; [done|].
      by exists lm, em, regs.
  - intros [_ ->]%ret_inv. left. split; [|done].
    by destruct (incoming_of w).
Qed.

Lemma register_ok_run env email password w l h code w_g w_r pm :
  isValidEmail (Str.trim email) = true →
  8 ≤ String.length password →
  users_of w = JArr l →
  findIndex email_key_strict (Str.toLowerCase (Str.trim email)) l
  = Return None →
  sha256Hex password = Return h →
  generateRefCode env w = (Return code, w_g) →
  same_store w w_g →
  attributed env (Str.trim email) w_g w_r →
  profiles_of w = JObj pm →
  register env email password w
  = (Return ok_true,
     registered_world (Str.trim email)
       (l ++ [new_user (Str.trim email) h code (incoming_of w)]) pm w_r).
Proof.
  intros Hvalid Hlen Hu Hidx Hh Hgen Hsame Hattr Hp. unfold register.
  rewrite Hvalid. cbn [negb]. cbv iota.
  apply Nat.ltb_ge in Hlen. rewrite Hlen.
  rewrite (bind_Return _ _ w _ w (run_getUsers w)), Hu.
  rewrite (bind_Return _ _ w l w) by reflexivity.
  rewrite (bind_Return _ _ w None w) by (unfold lift; by rewrite Hidx).
  rewrite bool_decide_eq_false_2 by (by intros [? ?]).
  rewrite (bind_Return _ _ w h w) by (unfold lift; by rewrite Hh).
  rewrite (bind_Return _ _ w code w_g Hgen).
  rewrite (bind_Return _ _ w_g _ w_g (run_getIncomingRef w_g)).
  rewrite (bind_Return _ _ w_g tt w_r (attributed_run _ _ _ _ Hattr)).
  rewrite (incoming_same_store w w_g Hsame).
  erewrite bind_Return; [|reflexivity].
  erewrite bind_Return; [|apply run_getProfile].
  assert (profiles_of
            (write USERS_KEY
               (JSON_stringify
                  (JArr (l ++ [new_user (Str.trim email) h code (incoming_of w)])))
               w_r) = JObj pm) as ->.
  { unfold profiles_of at 1. rewrite table_write_ne by keys.
    fold profiles_of. rewrite (attributed_profiles _ _ _ _ Hattr).
    unfold profiles_of. by rewrite (table_same_store _ _ _ w w_g). }
  reflexivity.
Qed.

Lemma register_inv env email password w r w' :
  register env email password w = (Return r, w') →
  (w' = w
   ∧ (r = failure MSG_INVALID_EMAIL ∨ r = failure MSG_WEAK_PASSWORD
      ∨ r = failure MSG_DUPLICATE_EMAIL))
  ∨ (r = ok_true
     ∧ isValidEmail (Str.trim email) = true
     ∧ 8 ≤ String.length password
     ∧ ∃ l h code w_g w_r pm,
         users_of w = JArr l
         ∧ findIndex email_key_strict (Str.toLowerCase (Str.trim email)) l
           = Return None
         ∧ sha256Hex password = Return h
         ∧ generateRefCode env w = (Return code, w_g)
         ∧ same_store w w_g
         ∧ attributed env (Str.trim email) w_g w_r
         ∧ profiles_of w = JObj pm
         ∧ w' = registered_world (Str.trim email)
                  (l ++ [new_user (Str.trim email) h code (incoming_of w)])
                  pm w_r).
Proof.
  intros H. unfold register in H.
  destruct (isValidEmail (Str.trim email)) eqn:Hvalid; cbn [negb] in H;
    [|apply ret_inv in H as [-> ->]; left; auto].
  destruct (String.length password <? 8) eqn:Hlen;
    [apply ret_inv in H as [-> ->]; left; auto|].
  apply Nat.ltb_ge in Hlen.
  apply bind_inv in H as (users & w1 & Husers & H).
  rewrite run_getUsers in Husers. injection Husers as <- <-.
  apply bind_inv in H as (l & w1 & Hl & H).
  apply lift_inv in Hl as [Hl ->].
  assert (users_of w = JArr l) as Hu
    by (destruct (users_of w); simpl in Hl; congruence).
  apply bind_inv in H as (idx & w1 & Hidx & H).
  apply lift_inv in Hidx as [Hidx ->].
  destruct idx as [i|].
  { rewrite bool_decide_eq_true_2 in H by eauto.
    apply ret_inv in H as [-> ->]. left; auto. }
  rewrite bool_decide_eq_false_2 in H by (by intros [? ?]).
  right.
  apply bind_inv in H as (h & w1 & Hh & H).
  apply lift_inv in Hh as [Hh ->].
  apply bind_inv in H as (code & w_g & Hgen & H).
  destruct (generateRefCode_run env w) as (code' & w_g' & Hgen' & Hsame & _).
  rewrite Hgen in Hgen'. injection Hgen' as <- <-.
  apply bind_inv in H as (inc & w1 & Hinc & H).
  rewrite run_getIncomingRef in Hinc. injection Hinc as <- <-.
  apply bind_inv in H as ([] & w_r & Hattr & H).
  apply attributed_inv in Hattr.
  apply bind_inv in H as ([] & w_u & Hset & H).
  injection Hset as <-.
  apply bind_inv in H as (profile & w1 & Hprof & H).
  rewrite run_getProfile in Hprof. injection Hprof as <- <-.
  apply bind_inv in H as (pm & w1 & Hpm & H).
  apply lift_inv in Hpm as [Hpm ->].
  apply bind_inv in H as ([] & w_p & Hsetp & H).
  injection Hsetp as <-.
  apply bind_inv in H as ([] & w_s & Hsets & H).
  injection Hsets as <-.
  apply ret_inv in H as [-> ->].
  split; [done|]. split; [done|]. split; [done|].
  exists l, h, code, w_g, w_r, pm.
  rewrite (incoming_same_store w w_g Hsame) in *.
  repeat (split; [done|]). split; [|done].
  match type of Hpm with as_object ?t = _ =>
    assert (t = JObj pm) as Hobj by (destruct t; simpl in Hpm; congruence)
  end.
  rewrite <- Hobj. symmetry.
  unfold profiles_of at 1. rewrite table_write_ne by keys.
  fold profiles_of. rewrite (attributed_profiles _ _ _ _ Hattr).
  unfold profiles_of. by rewrite (table_same_store _ _ _ w w_g).
Qed.

Lemma registered_world_users e users pm w_r :
  users_of (registered_world e users pm w_r) = JArr users.
Proof.
  unfold registered_world, users_of.
  rewrite !table_write_ne by keys. apply table_write_eq.
Qed.

Lemma registered_world_session e users pm w_r :
  session_of (registered_world e users pm w_r) = e.
Proof. apply session_write. Qed.

Lemma attributed_journal env e w w' :
  attributed env e w w' →
  ∃ referral,
    touched <$> journal w' = (touched <$> journal w) ++ referral
    ∧ (incoming_of w = EmptyString → referral = [])
    ∧ (incoming_of w ≠ EmptyString →
       referral = [(true, REF_LOG_KEY); (false, INCOMING_REF_KEY)]).
Proof.
  intros [[Hinc ->]|(Hinc & lm & em & regs & _ & _ & _ & ->)].
  - exists []. by rewrite app_nil_r.
  - exists [(true, REF_LOG_KEY); (false, INCOMING_REF_KEY)].
    split; [|done]. simpl. by rewrite !fmap_app, <- app_assoc.
Qed.

(** Claim C3, amended.  A [register] that returns a failure (invalid
    address, short password, address taken) has written nothing: the
    world, journal included, is the one before.  A [register] that
    succeeds has written, in this order: the ledger and the removal of
    the staged code when a code was staged (the attribution), then the
    list of users with the new user, then the profiles, then the
    session. *)
Theorem register_writes_nothing_on_failure_and_in_order
    env email password w r w' :
  register env email password w = (Return r, w') →
  (r ≠ ok_true →
     w' = w
     ∧ (r = failure MSG_INVALID_EMAIL ∨ r = failure MSG_WEAK_PASSWORD
        ∨ r = failure MSG_DUPLICATE_EMAIL))
  ∧ (r = ok_true →
     ∃ referral,
       touched <$> journal w'
       = (touched <$> journal w) ++ referral
         ++ [(true, USERS_KEY); (true, PROFILE_KEY); (true, SESSION_KEY)]
       ∧ (incoming_of w = EmptyString → referral = [])
       ∧ (incoming_of w ≠ EmptyString →
          referral = [(true, REF_LOG_KEY); (false, INCOMING_REF_KEY)])).
Proof.
  intros [(-> & Hr)|(-> & _ & _ & l & h & code & w_g & w_r & pm & _ & _ & _
                     & _ & Hsame & Hattr & _ & ->)]%register_inv.
  - split; [done|]. intros ->.
    destruct Hr as [Hr|[Hr|Hr]]; by apply ok_true_not_failure in Hr.
  - split; [done|]. intros _.
    destruct (attributed_journal _ _ _ _ Hattr) as (referral & Hjr & H0 & H1).
    exists referral.
    rewrite (incoming_same_store w w_g Hsame) in H0, H1.
    destruct Hsame as [_ Hj].
    split; [|done]. unfold registered_world; simpl.
    rewrite !fmap_app, Hjr, Hj. simpl. by rewrite <- !app_assoc.
Qed.

Lemma filter_passes target l :
  Forall (passes email_key_strict target) l →
  List.filter (has_email target) l = [].
Proof.
  induction 1 as [|x l (k & Hk & Hne) _ IH]; simpl; [done|].
  unfold has_email at 1. rewrite Hk.
  by destruct (String.eqb_spec k target).
Qed.

(** Claim C4, amended.  After a [register] that succeeded for an
    address, a second [register] for an address that passes the validity
    check and is the same up to letter case fails and writes nothing:
    with [DuplicateEmail] when its password has 8 characters or more,
    with [WeakPassword] otherwise (the length is checked first).  The
    list of users then holds exactly one record with that address up to
    letter case.  (The second address is checked on its own, before the
    search: an address that is not valid is refused as such, whatever
    its lower case.) *)
Theorem register_same_email_again_fails
    env env2 email email2 password password2 w w1 :
  register env email password w = (Return ok_true, w1) →
  isValidEmail (Str.trim email2) = true →
  Str.toLowerCase (Str.trim email2) = Str.toLowerCase (Str.trim email) →
  (8 ≤ String.length password2 →
     register env2 email2 password2 w1
     = (Return (failure MSG_DUPLICATE_EMAIL), w1))
  ∧ (String.length password2 < 8 →
     register env2 email2 password2 w1
     = (Return (failure MSG_WEAK_PASSWORD), w1))
  ∧ ∃ l, users_of w1 = JArr l
         ∧ List.length
             (List.filter (has_email (Str.toLowerCase (Str.trim email))) l) = 1.
Proof.
  intros [(_ & Hr)|(_ & Hvalid & _ & l & h & code & w_g & w_r & pm & Hu & Hnone
                    & _ & _ & _ & _ & _ & ->)]%register_inv Hvalid2 Hcase.
  { destruct Hr as [Hr|[Hr|Hr]]; by apply ok_true_not_failure in Hr. }
  apply findIndex_None in Hnone.
  split; [|split].
  - intros Hlen%Nat.ltb_ge. unfold register.
    rewrite Hvalid2, Hlen. cbn [negb]. cbv iota.
    erewrite bind_Return; [|apply run_getUsers].
    rewrite registered_world_users.
    erewrite bind_Return; [|reflexivity].
    erewrite bind_Return.
    2:{ unfold lift. rewrite Hcase.
        rewrite (findIndex_snoc _ _ l _ Hnone (new_user_key _ _ _ _)).
        reflexivity. }
    by rewrite bool_decide_eq_true_2 by eauto.
  - intros Hlen%Nat.ltb_lt. unfold register.
    by rewrite Hvalid2, Hlen.
  - eexists. split; [apply registered_world_users|].
    rewrite List.filter_app, filter_passes by done. simpl.
    unfold has_email. by rewrite new_user_key, String.eqb_refl.
Qed.

(** The defect behind claim C1, in general: when the staged code is not
    an own property of the ledger but the name of a property of
    [Object.prototype], a registration that passes all checks throws
    and stores nothing. *)
Lemma register_throws_on_inherited_code env email password w l lm :
  isValidEmail email = true →
  8 ≤ String.length password →
  users_of w = JArr l →
  findIndex email_key_strict (Str.toLowerCase (Str.trim email)) l
  = Return None →
  incoming_of w ≠ EmptyString →
  reflog_of w = JObj lm →
  get_prop lm (incoming_of w) = Inherited →
  ∃ w', register env email password w = (Throw, w') ∧ same_store w w'.
Proof.
  intros Hvalid Hlen Hu Hnone Hinc Hlog Hprop.
  rewrite <- isValidEmail_trim in Hvalid.
  destruct (sha256Hex_total password) as [h Hh].
  destruct (generateRefCode_run env w) as (code & w_g & Hgen & Hsame & _).
  exists w_g. split; [|done]. unfold register.
  rewrite Hvalid. cbn [negb]. cbv iota.
  apply Nat.ltb_ge in Hlen. rewrite Hlen.
  rewrite (bind_Return _ _ w _ w (run_getUsers w)), Hu.
  rewrite (bind_Return _ _ w l w) by reflexivity.
  rewrite (bind_Return _ _ w None w) by (unfold lift; by rewrite Hnone).
  rewrite bool_decide_eq_false_2 by (by intros [? ?]).
  rewrite (bind_Return _ _ w h w) by (unfold lift; by rewrite Hh).
  rewrite (bind_Return _ _ w code w_g Hgen).
  rewrite (bind_Return _ _ w_g _ w_g (run_getIncomingRef w_g)).
  rewrite (incoming_same_store w w_g Hsame).
  apply StrFacts.nonempty_true in Hinc as Hne. rewrite Hne.
  apply bind_Throw, bind_Throw.
  unfold recordRefReg. rewrite incoming_trim, Hne. cbn [negb]. cbv iota.
  rewrite (bind_Return _ _ w_g _ w_g (run_getRefLog w_g)).
  unfold reflog_of. rewrite (table_same_store _ _ _ w w_g Hsame).
  fold reflog_of. rewrite Hlog.
  rewrite (bind_Return _ _ w_g lm w_g) by reflexivity.
  apply bind_Throw. unfold lift, entry_for. by rewrite Hprop.
Qed.

(** Registration followed by login, when the staged referral code (if
    any) can be attributed: the ledger is an object in which the code
    has no entry or an entry with a list of registrations, so that the
    code is not the name of a property of [Object.prototype]. *)
Lemma register_then_login env email password w l pm :
  isValidEmail email = true →
  8 ≤ String.length password →
  users_of w = JArr l →
  findIndex email_key_strict (Str.toLowerCase (Str.trim email)) l
  = Return None →
  profiles_of w = JObj pm →
  (incoming_of w = EmptyString
   ∨ ∃ regs, ledger_list w (incoming_of w) "regs" regs) →
  ∃ w1,
    register env email password w = (Return ok_true, w1)
    ∧ ∀ env', ∃ w2,
        login env' email password w1 = (Return ok_true, w2)
        ∧ session_of w2 = Str.trim email.
Proof.
  intros Hvalid Hlen Hu Hnone Hp Hinc.
  rewrite <- isValidEmail_trim in Hvalid.
  destruct (sha256Hex_total password) as [h Hh].
  destruct (generateRefCode_run env w) as (code & w_g & Hgen & Hsame & _).
  assert (∃ w_r, attributed env (Str.trim email) w_g w_r) as [w_r Hattr].
  { unfold attributed. rewrite (incoming_same_store w w_g Hsame).
    unfold reflog_of. rewrite (table_same_store _ _ _ w w_g Hsame).
    destruct (incoming_of w) as [|c0 c] eqn:Ei; [by eauto|].
    destruct Hinc as [?|(regs & lm & em & Hlog & Hentry & Hregs)]; [done|].
    eexists. right. split; [done|]. by exists lm, em, regs. }
  eexists. split.
  { by eapply register_ok_run. }
  intros env'.
  set (m := new_user_fields (Str.trim email) h code (incoming_of w)).
  set (w1 := registered_world (Str.trim email)
               (l ++ [new_user (Str.trim email) h code (incoming_of w)]) pm w_r).
  assert (registered w1 (Str.trim email) (l ++ [JObj m]) (List.length l) m)
    as Hreg.
  { split; [apply registered_world_users|]. split.
    - apply findIndex_snoc; [by apply findIndex_None|apply new_user_key].
    - by rewrite lookup_app_r, Nat.sub_diag. }
  destruct (login_ok_run env' email password w1
              (l ++ [JObj m]) (List.length l) m (Str.trim email) h
              Hvalid Hlen Hreg (new_user_email _ _ _ _) Hh
              (new_user_passHash _ _ _ _))
    as (w2 & m' & Hrun & Hs & _).
  by exists w2.
Qed.

End Register.

Lemma register_writes_nothing_on_failure_and_in_order_witness :
  let w := write INCOMING_REF_KEY "FRIEND42" empty_world in
  let run := register (platform := reference_platform true)
               (example_env 0 None) "a@b.com" "password1" w in
  run = (Return ok_true, run.2)
  ∧ ∃ referral,
      touched <$> journal run.2
      = (touched <$> journal w) ++ referral
        ++ [(true, USERS_KEY); (true, PROFILE_KEY); (true, SESSION_KEY)]
      ∧ (incoming_of w ≠ EmptyString →
         referral = [(true, REF_LOG_KEY); (false, INCOMING_REF_KEY)]).
Proof.
  intros w run.
  assert (run.1 = Return ok_true) as H1 by (vm_compute; reflexivity).
  assert (run = (Return ok_true, run.2)) as Hrun.
  { rewrite <- H1. apply surjective_pairing. }
  split; [exact Hrun|].
  destruct (register_writes_nothing_on_failure_and_in_order
              (platform := reference_platform true)
              (example_env 0 None) "a@b.com" "password1" w ok_true run.2 Hrun)
    as [_ Hok].
  destruct (Hok eq_refl) as (referral & Hj & _ & Hr).
  exists referral. exact (conj Hj Hr).
Defined.

(** Claim C3 as stated fails in its order: with a staged code, the
    ledger and the staging slot are written before the list of users;
    the new user is stored after the attribution, not before it. *)
Lemma register_order_counterexample :
  let w := write INCOMING_REF_KEY "FRIEND42" empty_world in
  let run := register (platform := reference_platform true)
               (example_env 0 None) "a@b.com" "password1" w in
  run.1 = Return ok_true
  ∧ touched <$> journal run.2
    = [ (true, INCOMING_REF_KEY); (true, REF_LOG_KEY); (false, INCOMING_REF_KEY);
        (true, USERS_KEY); (true, PROFILE_KEY); (true, SESSION_KEY) ].
Proof. split; vm_compute; reflexivity. Qed.

Lemma register_same_email_again_fails_witness :
  let run := register (platform := reference_platform true)
               (example_env 0 None) "a@b.com" "password1" empty_world in
  run = (Return ok_true, run.2)
  ∧ isValidEmail (Str.trim "A@B.com") = true
  ∧ Str.toLowerCase (Str.trim "A@B.com") = Str.toLowerCase (Str.trim "a@b.com")
  ∧ 8 ≤ String.length "password2"
  ∧ register (platform := reference_platform true) (example_env 1 None)
      "A@B.com" "password2" run.2
    = (Return (failure MSG_DUPLICATE_EMAIL), run.2).
Proof.
  intros run.
  assert (run.1 = Return ok_true) as H1 by (vm_compute; reflexivity).
  assert (run = (Return ok_true, run.2)) as Hrun.
  { rewrite <- H1. apply surjective_pairing. }
  assert (Str.toLowerCase (Str.trim "A@B.com")
          = Str.toLowerCase (Str.trim "a@b.com")) as Hcase by reflexivity.
  assert (8 ≤ String.length "password2") as Hlen by (simpl; lia).
  assert (isValidEmail (Str.trim "A@B.com") = true) as Hvalid by reflexivity.
  split; [exact Hrun|]. split; [exact Hvalid|]. split; [exact Hcase|].
  split; [exact Hlen|].
  destruct (register_same_email_again_fails
              (platform := reference_platform true)
              (example_env 0 None) (example_env 1 None)
              "a@b.com" "A@B.com" "password1" "password2" empty_world run.2
              Hrun Hvalid Hcase) as [Hdup _].
  exact (Hdup Hlen).
Defined.

(** Claim C4 as stated fails for a second password that is too short:
    the length is checked before the list of users is read, and the
    failure is [WeakPassword]. *)
Lemma register_again_short_password_counterexample :
  let w1 := (register (platform := reference_platform true)
               (example_env 0 None) "a@b.com" "password1" empty_world).2 in
  let r := (register (platform := reference_platform true)
              (example_env 1 None) "A@B.com" "short" w1).1 in
  r = Return (failure MSG_WEAK_PASSWORD)
  ∧ r ≠ Return (failure MSG_DUPLICATE_EMAIL).
Proof.
  intros w1 r.
  assert (r = Return (failure MSG_WEAK_PASSWORD)) as H
    by (vm_compute; reflexivity).
  split; [exact H|]. rewrite H. intros Heq.
  apply (f_equal (λ o, match o with
                       | Return (JObj m) => m !! "message"
                       | _ => None
                       end)) in Heq.
  vm_compute in Heq. discriminate.
Qed.

(** Claim C1 fails on the code.  A visitor opens the site through a link
    whose [ref] parameter is [toString]: the code is staged (and the
    click is not recorded, the exception being swallowed).  The
    registration of a valid, unregistered address with a password of 9
    characters then throws while attributing the referral: [log[c]] is
    the function inherited from [Object.prototype], it has no [regs].
    No user is stored, and a login with the same credentials fails. *)
Theorem register_throws_on_staged_builtin_name :
  let w0 := (initRefFromUrl (platform := reference_platform true)
               (example_env 0 (Some "toString")) empty_world).2 in
  let run := register (platform := reference_platform true)
               (example_env 1 None) "a@b.com" "password1" w0 in
  isValidEmail "a@b.com" = true
  ∧ 8 ≤ String.length "password1"
  ∧ users_of (platform := reference_platform true) w0 = JArr []
  ∧ incoming_of w0 = "toString"
  ∧ run.1 = Throw
  ∧ users_of (platform := reference_platform true) run.2 = JArr []
  ∧ (login (platform := reference_platform true) (example_env 2 None)
       "a@b.com" "password1" run.2).1
    = Return (failure MSG_USER_NOT_FOUND).
Proof.
  intros w0 run.
  split; [reflexivity|]. split; [simpl; lia|].
  split; [vm_compute; reflexivity|]. split; [vm_compute; reflexivity|].
  split; [vm_compute; reflexivity|]. split; vm_compute; reflexivity.
Qed.

(** The same registration succeeds, and the login after it, when the
    staged code is an ordinary one. *)
Lemma register_then_login_witness :
  let w0 := (initRefFromUrl (platform := reference_platform true)
               (example_env 0 (Some "FRIEND42")) empty_world).2 in
  ∃ w1 w2,
    register (platform := reference_platform true)
      (example_env 1 None) "a@b.com" "password1" w0 = (Return ok_true, w1)
    ∧ login (platform := reference_platform true)
        (example_env 2 None) "a@b.com" "password1" w1 = (Return ok_true, w2)
    ∧ session_of w2 = "a@b.com".
Proof.
  intros w0.
  assert (∃ entry log, reflog_of (platform := reference_platform true) w0
                       = JObj log
                       ∧ log !! "FRIEND42" = Some (JObj entry)
                       ∧ entry !! "regs" = Some (JArr []))
    as (entry & log & Hlog & Hentry & Hregs).
  { eexists _, _. split; [vm_compute; reflexivity|].
    split; vm_compute; reflexivity. }
  destruct (register_then_login (platform := reference_platform true)
              (example_env 1 None) "a@b.com" "password1" w0 [] ∅)
    as (w1 & Hreg & Hlogin).
  - reflexivity.
  - simpl; lia.
  - vm_compute; reflexivity.
  - reflexivity.
  - vm_compute; reflexivity.
  - right. exists [], log, entry. split; [exact Hlog|]. split; [|exact Hregs].
    change (incoming_of w0) with (Str.trim "FRIEND42").
    change (Str.trim "FRIEND42") with "FRIEND42".
    unfold entry_for, get_prop. by rewrite Hentry.
  - destruct (Hlogin (example_env 2 None)) as (w2 & Hrun & Hs).
    exists w1, w2. change (Str.trim "a@b.com") with "a@b.com" in Hs.
    exact (conj Hreg (conj Hrun Hs)).
Defined.

(** ** The scenario of the specification

    Register, register again in another letter case, log in, log in
    with a wrong password. *)
Example scenario_register_duplicate_login :
  let r1 := register (platform := reference_platform true)
              (example_env 0 None) "a@b.com" "password1" empty_world in
  let r2 := register (platform := reference_platform true)
              (example_env 1 None) "A@B.com" "password2" r1.2 in
  let r3 := login (platform := reference_platform true)
              (example_env 2 None) "a@b.com" "password1" r2.2 in
  let r4 := login (platform := reference_platform true)
              (example_env 3 None) "a@b.com" "wrongpass" r3.2 in
  r1.1 = Return ok_true
  ∧ r2.1 = Return (failure MSG_DUPLICATE_EMAIL)
  ∧ r3.1 = Return ok_true
  ∧ r4.1 = Return (failure MSG_WRONG_PASSWORD)
  ∧ session_of r4.2 = "a@b.com".
Proof.
  split; [vm_compute; reflexivity|]. split; [vm_compute; reflexivity|].
  split; [vm_compute; reflexivity|]. split; vm_compute; reflexivity.
Qed.

(** * The rest of the data layer *)

(** ** The e-mail pattern, declaratively *)

Module ReFacts.

Lemma append_empty s1 s2 :
  s1 +:+ s2 = EmptyString → s1 = EmptyString ∧ s2 = EmptyString.
Proof. by destruct s1. Qed.

Lemma append_cons c s t : String c s +:+ t = String c (s +:+ t).
Proof. reflexivity. Qed.

Lemma nullable_denotes r : Str.nullable r = true ↔ denotes r EmptyString.
Proof.
  split.
  - induction r as [| |p|r1 IH1 r2 IH2|r1 IH1 r2 IH2|r IH]; simpl; try done.
    + intros _. constructor.
    + intros [H1 H2]%andb_true_iff.
      apply (denotes_Seq r1 r2 EmptyString EmptyString); auto.
    + intros [H|H]%orb_true_iff; [apply denotes_Alt_l|apply denotes_Alt_r]; auto.
    + intros _. constructor.
  - intros H. remember EmptyString as s eqn:Hs.
    induction H as [|p c Hc|r1 r2 s1 s2 H1 IH1 H2 IH2|r1 r2 s H IH|r1 r2 s H IH
                   |r|r s1 s2 H1 IH1 H2 IH2]; simpl; try done.
    + apply append_empty in Hs as [-> ->]. by rewrite IH1, IH2.
    + by rewrite IH.
    + rewrite IH by done. apply orb_true_r.
Qed.

Lemma deriv_denotes c r : ∀ s, denotes (Str.deriv c r) s ↔ denotes r (String c s).
Proof.
  intros s. split.
  - revert s.
    induction r as [| |p|r1 IH1 r2 IH2|r1 IH1 r2 IH2|r IH]; simpl; intros s H.
    + inversion H.
    + inversion H.
    + destruct (p c) eqn:Hp; inversion H; subst. by constructor.
    + assert (∀ t, denotes (Str.Seq (Str.deriv c r1) r2) t →
                   denotes (Str.Seq r1 r2) (String c t)) as Hseq.
      { intros t Ht. inversion Ht as [| |? ? s1 s2 Hd1 Hd2| | | |]; subst.
        apply (denotes_Seq r1 r2 (String c s1) s2); auto. }
      destruct (Str.nullable r1) eqn:Hn; [|by apply Hseq].
      inversion H as [| | |? ? ? Hl|? ? ? Hr| |]; subst; [by apply Hseq|].
      apply (denotes_Seq r1 r2 EmptyString (String c s)); [|by apply IH2].
      by apply nullable_denotes.
    + inversion H; subst; [apply denotes_Alt_l|apply denotes_Alt_r]; auto.
    + inversion H as [| |? ? s1 s2 Hd1 Hd2| | | |]; subst.
      apply (denotes_Star_cons r (String c s1) s2); auto.
  - intros H. remember (String c s) as t eqn:Ht. revert s Ht.
    induction H as [|p c' Hc|r1 r2 s1 s2 H1 IH1 H2 IH2|r1 r2 t H IH|r1 r2 t H IH
                   |r|r s1 s2 H1 IH1 H2 IH2]; intros s Ht; simpl.
    + done.
    + injection Ht as -> <-. rewrite Hc. constructor.
    + destruct s1 as [|c1 s1]; [change (s2 = String c s) in Ht|
                                rewrite append_cons in Ht].
      * subst s2. apply nullable_denotes in H1. rewrite H1.
        apply denotes_Alt_r. by apply IH2.
      * injection Ht as -> <-.
        destruct (Str.nullable r1); [apply denotes_Alt_l|];
          apply denotes_Seq; auto.
    + apply denotes_Alt_l. by apply IH.
    + apply denotes_Alt_r. by apply IH.
    + done.
    + destruct s1 as [|c1 s1]; [change (s2 = String c s) in Ht|
                                rewrite append_cons in Ht].
      * by apply IH2.
      * injection Ht as -> <-. apply denotes_Seq; auto.
Qed.

(** Matching by derivatives decides the denotation. *)
Lemma matches_denotes s : ∀ r, Str.matches r s = true ↔ denotes r s.
Proof.
  induction s as [|c s IH]; intros r; simpl.
  - apply nullable_denotes.
  - rewrite IH. apply deriv_denotes.
Qed.

Lemma denotes_Chr_inv p s :
  denotes (Str.Chr p) s → ∃ c, s = String c EmptyString ∧ p c = true.
Proof. intros H. inversion H; subst. eauto. Qed.

Lemma denotes_Seq_inv r1 r2 s :
  denotes (Str.Seq r1 r2) s →
  ∃ s1 s2, s = s1 +:+ s2 ∧ denotes r1 s1 ∧ denotes r2 s2.
Proof. intros H. inversion H; subst. eauto. Qed.

Lemma denotes_Star_Chr p s :
  denotes (Str.Star (Str.Chr p)) s ↔ all_chars p s = true.
Proof.
  split.
  - intros H. remember (Str.Star (Str.Chr p)) as r eqn:Hr.
    induction H as [| | | | |r'|r' s1 s2 H1 IH1 H2 IH2]; try done.
    injection Hr as ->.
    apply denotes_Chr_inv in H1 as (c & -> & Hc).
    change (all_chars p (String c s2) = true). simpl.
    rewrite Hc. by apply IH2.
  - induction s as [|c s IH]; simpl; [constructor|].
    intros [Hc Hs]%andb_true_iff.
    apply (denotes_Star_cons _ (String c EmptyString) s); [by constructor|auto].
Qed.

Lemma denotes_Plus_Chr p s :
  denotes (Str.Plus (Str.Chr p)) s ↔ s ≠ EmptyString ∧ all_chars p s = true.
Proof.
  unfold Str.Plus. split.
  - intros (s1 & s2 & -> & H1 & H2)%denotes_Seq_inv.
    apply denotes_Chr_inv in H1 as (c & -> & Hc).
    apply denotes_Star_Chr in H2.
    change (String c s2 ≠ EmptyString ∧ all_chars p (String c s2) = true).
    simpl. by rewrite Hc, H2.
  - destruct s as [|c s]; [by intros [? _]|]. simpl.
    intros [_ [Hc Hs]%andb_true_iff].
    apply (denotes_Seq _ _ (String c EmptyString) s); [by constructor|].
    by apply denotes_Star_Chr.
Qed.

Lemma is_at_inv c : Str.is_at c = true → c = "@"%char.
Proof.
  unfold Str.is_at. intros H%Nat.eqb_eq.
  rewrite <- (ascii_nat_embedding c), H. reflexivity.
Qed.

Lemma is_dot_inv c : Str.is_dot c = true → c = "."%char.
Proof.
  unfold Str.is_dot. intros H%Nat.eqb_eq.
  rewrite <- (ascii_nat_embedding c), H. reflexivity.
Qed.

Lemma email_re_shape s : denotes Str.email_re s ↔ address_shape s.
Proof.
  unfold Str.email_re, address_shape. split.
  - intros (local & s1 & -> & Hlocal & H)%denotes_Seq_inv.
    apply denotes_Seq_inv in H as (at_ & s2 & -> & Hat & H).
    apply denotes_Seq_inv in H as (domain & s3 & -> & Hdomain & H).
    apply denotes_Seq_inv in H as (dot & s4 & -> & Hdot & H).
    apply denotes_Seq_inv in H as (t1 & s5 & -> & Ht1 & H).
    apply denotes_Seq_inv in H as (t2 & t3 & -> & Ht2 & Ht3).
    apply denotes_Plus_Chr in Hlocal as [Hl1 Hl2].
    apply denotes_Plus_Chr in Hdomain as [Hd1 Hd2].
    apply denotes_Chr_inv in Hat as (c & -> & ->%is_at_inv).
    apply denotes_Chr_inv in Hdot as (c & -> & ->%is_dot_inv).
    apply denotes_Chr_inv in Ht1 as (c1 & -> & Hc1).
    apply denotes_Chr_inv in Ht2 as (c2 & -> & Hc2).
    apply denotes_Star_Chr in Ht3.
    exists local, domain, (String c1 (String c2 t3)).
    repeat split; try done.
    + simpl. lia.
    + simpl. by rewrite Hc1, Hc2, Ht3.
  - intros (local & domain & tld & -> & Hl & Hd & Hlen & Hal & Had & Hat).
    destruct tld as [|c1 [|c2 t3]]; simpl in Hlen; [lia|lia|].
    simpl in Hat. apply andb_true_iff in Hat as [Hc1 Hat].
    apply andb_true_iff in Hat as [Hc2 Ht3].
    apply denotes_Seq; [by apply denotes_Plus_Chr|].
    apply (denotes_Seq _ _ "@"); [by constructor|].
    apply denotes_Seq; [by apply denotes_Plus_Chr|].
    apply (denotes_Seq _ _ "."); [by constructor|].
    apply (denotes_Seq _ _ (String c1 EmptyString)); [by constructor|].
    apply (denotes_Seq _ _ (String c2 EmptyString)); [by constructor|].
    by apply denotes_Star_Chr.
Qed.

End ReFacts.

(** X1.  [isValidEmail] accepts exactly the strings that, once trimmed,
    read [local@domain.tld]: the three parts hold neither white space
    nor [@], the local part and the domain are not empty, and the last
    part has two code units or more. *)
Theorem isValidEmail_shape email :
  isValidEmail email = true ↔ address_shape (Str.trim email).
Proof.
  unfold isValidEmail. rewrite ReFacts.matches_denotes.
  apply ReFacts.email_re_shape.
Qed.

(** ** White space around an address *)

Module PadFacts.

Lemma ltrim_blank s : all_chars Str.is_space s = true → Str.ltrim s = EmptyString.
Proof.
  induction s as [|c s IH]; simpl; [done|].
  intros [-> Hs]%andb_true_iff. auto.
Qed.

Lemma rtrim_blank s : all_chars Str.is_space s = true → Str.rtrim s = EmptyString.
Proof.
  induction s as [|c s IH]; simpl; [done|].
  intros [Hc Hs]%andb_true_iff. by rewrite (IH Hs), Hc.
Qed.

Lemma rtrim_app_blank s post :
  all_chars Str.is_space post = true → Str.rtrim (s +:+ post) = Str.rtrim s.
Proof.
  intros Hpost. induction s as [|c s IH].
  - by apply rtrim_blank.
  - rewrite ReFacts.append_cons. simpl. by rewrite IH.
Qed.

Lemma trim_app_blank s post :
  all_chars Str.is_space post = true → Str.trim (s +:+ post) = Str.trim s.
Proof.
  intros Hpost. unfold Str.trim. induction s as [|c s IH].
  - change (EmptyString +:+ post) with post. by rewrite ltrim_blank.
  - rewrite ReFacts.append_cons. simpl.
    destruct (Str.is_space c); [exact IH|].
    rewrite <- ReFacts.append_cons. by apply rtrim_app_blank.
Qed.

Lemma trim_blank_app pre s :
  all_chars Str.is_space pre = true → Str.trim (pre +:+ s) = Str.trim s.
Proof.
  intros Hpre. unfold Str.trim. f_equal.
  induction pre as [|c pre IH]; [done|].
  simpl in Hpre. apply andb_true_iff in Hpre as [Hc Hpre].
  rewrite ReFacts.append_cons. simpl. rewrite Hc. auto.
Qed.

End PadFacts.

Section Padding.
Context {platform : Platform}.

(** X2.  White space before and after an address is ignored:
    [isValidEmail] gives the same answer with it and without it, and
    [register] and [login] do with the padded address exactly what they
    do with the address itself (the same result, the same writes). *)
Theorem address_padding_is_ignored env pre email post password w :
  all_chars Str.is_space pre = true →
  all_chars Str.is_space post = true →
  isValidEmail (pre +:+ email +:+ post) = isValidEmail email
  ∧ register env (pre +:+ email +:+ post) password w
    = register env email password w
  ∧ login env (pre +:+ email +:+ post) password w
    = login env email password w.
Proof.
  intros Hpre Hpost.
  assert (Str.trim (pre +:+ email +:+ post) = Str.trim email) as Htrim
    by (by rewrite PadFacts.trim_blank_app, PadFacts.trim_app_blank).
  split; [|split].
  - unfold isValidEmail. by rewrite Htrim.
  - unfold register. by rewrite Htrim.
  - unfold login. by rewrite Htrim.
Qed.

End Padding.

Lemma address_padding_is_ignored_witness :
  let w := (register (platform := reference_platform true)
              (example_env 0 None) "ann@mail.org" "password1" empty_world).2 in
  all_chars Str.is_space "  " = true
  ∧ all_chars Str.is_space " " = true
  ∧ isValidEmail ("  " +:+ "ann@mail.org" +:+ " ") = true
  ∧ (register (platform := reference_platform true) (example_env 1 None)
       ("  " +:+ "ann@mail.org" +:+ " ") "password2" w).1
    = Return (failure MSG_DUPLICATE_EMAIL)
  ∧ (login (platform := reference_platform true) (example_env 1 None)
       ("  " +:+ "ann@mail.org" +:+ " ") "password1" w).1
    = Return ok_true.
Proof.
  intros w.
  assert (all_chars Str.is_space "  " = true) as Hpre by reflexivity.
  assert (all_chars Str.is_space " " = true) as Hpost by reflexivity.
  split; [exact Hpre|]. split; [exact Hpost|].
  destruct (address_padding_is_ignored (platform := reference_platform true)
              (example_env 1 None) "  " "ann@mail.org" " " "password2" w
              Hpre Hpost) as (Hvalid & Hregister & _).
  destruct (address_padding_is_ignored (platform := reference_platform true)
              (example_env 1 None) "  " "ann@mail.org" " " "password1" w
              Hpre Hpost) as (_ & _ & Hlogin).
  split; [rewrite Hvalid; reflexivity|].
  split; [rewrite Hregister|rewrite Hlogin]; vm_compute; reflexivity.
Defined.

(** ** Referral codes, symbol by symbol *)

Lemma alphabet_get i :
  i < 32 → ∃ c, String.get i alphabet = Some c ∧ in_alphabet c = true.
Proof.
  intros Hi.
  do 32 (destruct i as [|i]; [eexists; split; reflexivity|]). lia.
Qed.

Lemma all_chars_app p s t :
  all_chars p (s +:+ t) = all_chars p s && all_chars p t.
Proof.
  induction s as [|c s IH]; [done|].
  rewrite ReFacts.append_cons. simpl. by rewrite IH, andb_assoc.
Qed.

Lemma length_append s t :
  String.length (s +:+ t) = String.length s + String.length t.
Proof.
  induction s as [|c s IH]; [done|].
  rewrite ReFacts.append_cons. simpl. by rewrite IH.
Qed.

Lemma generateRefCode_loop_shape env n : ∀ s w,
  ∃ code w',
    generateRefCode_loop env n s w = (Return code, w')
    ∧ String.length code = String.length s + n
    ∧ (all_chars in_alphabet s = true → all_chars in_alphabet code = true)
    ∧ storage w' = storage w ∧ journal w' = journal w
    ∧ draws w' = draws w + n.
Proof.
  induction n as [|n IH]; intros s w.
  - exists s, w. repeat split; try done; lia.
  - cbn [generateRefCode_loop]. unfold bind, random_index.
    destruct (alphabet_get (random env (draws w) `mod` 32)) as (c & -> & Hc).
    { apply Nat.mod_upper_bound. lia. }
    destruct (IH (s +:+ String c EmptyString) (drawn w))
      as (code & w' & Hrun & Hlen & Hall & Hst & Hj & Hd).
    exists code, w'. split; [done|].
    rewrite length_append in Hlen. simpl in *.
    split; [lia|]. split; [|repeat split; try done; lia].
    intros Hs. apply Hall. rewrite all_chars_app, Hs. simpl. by rewrite Hc.
Qed.

(** X3.  [generateRefCode] always returns: a code of exactly 8 symbols,
    each taken from the 32 symbols of its alphabet (capital letters and
    digits without I, O, 0 and 1).  It draws 8 random numbers and
    leaves the store and the journal as they are. *)
Theorem generateRefCode_shape env w :
  ∃ code w',
    generateRefCode env w = (Return code, w')
    ∧ String.length code = 8
    ∧ all_chars in_alphabet code = true
    ∧ all_chars (λ c, negb (bool_decide (c ∈ list_ascii_of_string "IO01")))
        alphabet = true
    ∧ storage w' = storage w ∧ journal w' = journal w
    ∧ draws w' = draws w + 8.
Proof.
  destruct (generateRefCode_loop_shape env 8 EmptyString w)
    as (code & w' & Hrun & Hlen & Hall & Hst & Hj & Hd).
  exists code, w'. split; [exact Hrun|]. split; [exact Hlen|].
  split; [by apply Hall|]. split; [reflexivity|]. done.
Qed.

(** ** Stores as the program writes them *)

Section WellFormedFacts.
Context {platform : Platform}.

Lemma user_ok_email x :
  user_ok x →
  ∃ m s, x = JObj m ∧ m !! "email" = Some (JStr s) ∧ email_of x = Some s
         ∧ email_key_strict x = Return (Str.toLowerCase s)
         ∧ email_key_lenient x = Return (Str.toLowerCase s).
Proof.
  intros (m & s & -> & Hm & Hvalid & _). exists m, s. simpl. rewrite Hm.
  repeat split; try done.
  destruct s; [by vm_compute in Hvalid|done].
Qed.

Lemma elem_of_emails l s :
  s ∈ emails l ↔ ∃ x, x ∈ l ∧ email_of x = Some s.
Proof. unfold emails. apply list_elem_of_omap. Qed.

Lemma emails_app l x s :
  email_of x = Some s → emails (l ++ [x]) = emails l ++ [s].
Proof.
  intros Hx. unfold emails. rewrite omap_app. simpl. by rewrite Hx.
Qed.

Lemma emails_insert l : ∀ i x x',
  l !! i = Some x → email_of x' = email_of x →
  emails (<[i := x']> l) = emails l.
Proof.
  induction l as [|y l IH]; intros [|i] x x' Hi Hx; simpl in *; try done.
  - injection Hi as ->. unfold emails. simpl. by rewrite Hx.
  - unfold emails in *. simpl. by rewrite (IH i x x').
Qed.

Lemma fmap_inj_NoDup {A B} (f : A → B) (l : list A) x y :
  NoDup (f <$> l) → x ∈ l → y ∈ l → f x = f y → x = y.
Proof.
  induction l as [|a l IH]; simpl; [by intros _ ?%elem_of_nil|].
  intros [Ha Hl]%NoDup_cons [->|Hx]%elem_of_cons [->|Hy]%elem_of_cons Hf;
    [done| | |by apply IH].
  - exfalso. apply Ha. rewrite Hf. by apply list_elem_of_fmap_2.
  - exfalso. apply Ha. rewrite <- Hf. by apply list_elem_of_fmap_2.
Qed.

(** The search of [register], [login], [changePassword] and
    [getCurrentUser] on a list of user records: it does not throw. *)
Lemma find_user_from l : ∀ k t,
  Forall user_ok l →
  (findIndex_from email_key_strict t k l = Return None
   ∧ (t ∉ (Str.toLowerCase <$> emails l)))
  ∨ ∃ i m s, findIndex_from email_key_strict t k l = Return (Some (k + i))
             ∧ l !! i = Some (JObj m) ∧ m !! "email" = Some (JStr s)
             ∧ Str.toLowerCase s = t.
Proof.
  induction l as [|x l IH]; intros k t Hl.
  - left. split; [done|]. apply not_elem_of_nil.
  - apply Forall_cons in Hl as [Hx Hl].
    destruct (user_ok_email x Hx) as (m & s & -> & Hm & He & Hk & _).
    cbn [findIndex_from]. rewrite Hk.
    destruct (String.eqb_spec (Str.toLowerCase s) t) as [Heq|Hne].
    + right. exists 0, m, s. by rewrite Nat.add_0_r.
    + destruct (IH (S k) t Hl) as [[Hnone Hnot]|(i & m' & s' & Hsome & Hi & Hm' & Hs')].
      * left. split; [done|]. unfold emails. simpl in *. rewrite Hm.
        rewrite fmap_cons. intros [?|?]%elem_of_cons; [congruence|done].
      * right. exists (S i), m', s'.
        by rewrite Nat.add_succ_r.
Qed.

Lemma find_user l t :
  Forall user_ok l →
  (findIndex email_key_strict t l = Return None
   ∧ (t ∉ (Str.toLowerCase <$> emails l)))
  ∨ ∃ i m s, findIndex email_key_strict t l = Return (Some i)
             ∧ l !! i = Some (JObj m) ∧ m !! "email" = Some (JStr s)
             ∧ Str.toLowerCase s = t.
Proof. apply find_user_from. Qed.

Lemma lookup_email l i m s :
  l !! i = Some (JObj m) → m !! "email" = Some (JStr s) → s ∈ emails l.
Proof.
  intros Hi Hm. apply elem_of_emails. exists (JObj m).
  split; [by eapply list_elem_of_lookup_2|]. simpl. by rewrite Hm.
Qed.

(** With pairwise different addresses, the search for the address of a
    user finds the record with exactly that address. *)
Lemma find_user_exact l s :
  users_ok l → s ∈ emails l →
  ∃ i m, findIndex email_key_strict (Str.toLowerCase s) l = Return (Some i)
         ∧ l !! i = Some (JObj m) ∧ m !! "email" = Some (JStr s).
Proof.
  intros [Hl Hnd] Hs.
  destruct (find_user l (Str.toLowerCase s) Hl)
    as [[_ Hnot]|(i & m & s' & Hfind & Hi & Hm & Hlow)].
  - exfalso. apply Hnot. by apply list_elem_of_fmap_2.
  - exists i, m. split; [done|]. split; [done|].
    assert (s' = s) as ->; [|done].
    eapply (fmap_inj_NoDup Str.toLowerCase); eauto using lookup_email.
Qed.

(** Well-formedness is a property of the store. *)
Lemma wf_storage w w' :
  storage w' = storage w → well_formed w → well_formed w'.
Proof.
  intros Hs (l & pm & lm & h & Hu & Hp & Hlog & Hh & H).
  exists l, pm, lm, h.
  unfold users_of, profiles_of, reflog_of, history_of, session_of, table in *.
  rewrite Hs. done.
Qed.

Lemma wf_same_store w w' : same_store w w' → well_formed w → well_formed w'.
Proof. intros [Hs _]. by apply wf_storage. Qed.

Lemma wf_fresh : well_formed empty_world.
Proof.
  exists [], ∅, ∅, [].
  unfold users_of, profiles_of, reflog_of, history_of, session_of, table,
    safeJsonParse; simpl.
  rewrite !lookup_empty; simpl.
  rewrite JSON_parse_empty_array, JSON_parse_empty_object.
  repeat split; try done.
  - constructor.
  - by left.
  - constructor.
Qed.

Lemma session_ok_mono l l' s :
  emails l ⊆ emails l' → session_ok l s → session_ok l' s.
Proof. intros Hsub [->|Hs]; [by left|right; by apply Hsub]. Qed.

Lemma profiles_ok_mono l l' pm :
  emails l ⊆ emails l' → profiles_ok l pm → profiles_ok l' pm.
Proof.
  intros Hsub Hpm k v Hk. destruct (Hpm k v Hk) as [Hin Hv].
  split; [by apply Hsub|done].
Qed.

Lemma history_ok_mono l l' h :
  emails l ⊆ emails l' → history_ok l h → history_ok l' h.
Proof.
  intros Hsub Hh. eapply Forall_impl; [exact Hh|].
  intros x (s & Hx & Hs). exists s. split; [done|by apply Hsub].
Qed.

Lemma wf_write_users w l l' :
  well_formed w → users_of w = JArr l →
  users_ok l' → emails l ⊆ emails l' →
  well_formed (write USERS_KEY (JSON_stringify (JArr l')) w).
Proof.
  intros (l0 & pm & lm & h & Hu & Hp & Hlog & Hh & _ & Hs & Hpm & Hlm & Hhist)
    Hl Hok Hsub.
  rewrite Hu in Hl. injection Hl as ->.
  exists l', pm, lm, h.
  unfold users_of, profiles_of, reflog_of, history_of in *.
  rewrite table_write_eq, !table_write_ne, session_write_ne by keys.
  repeat (split; [done|]).
  split; [by eapply session_ok_mono|]. split; [by eapply profiles_ok_mono|].
  split; [done|by eapply history_ok_mono].
Qed.

Lemma wf_write_session w l s :
  well_formed w → users_of w = JArr l → session_ok l s →
  well_formed (write SESSION_KEY s w).
Proof.
  intros (l0 & pm & lm & h & Hu & Hp & Hlog & Hh & Hok & _ & Hpm & Hlm & Hhist)
    Hl Hs.
  rewrite Hu in Hl. injection Hl as ->.
  exists l, pm, lm, h.
  unfold users_of, profiles_of, reflog_of, history_of in *.
  rewrite !table_write_ne, session_write by keys. done.
Qed.

Lemma wf_erase_session w : well_formed w → well_formed (erase SESSION_KEY w).
Proof.
  intros (l & pm & lm & h & Hu & Hp & Hlog & Hh & Hok & _ & Hpm & Hlm & Hhist).
  exists l, pm, lm, h.
  unfold users_of, profiles_of, reflog_of, history_of in *.
  rewrite !table_erase_ne by keys.
  repeat (split; [done|]). split; [|done].
  left. unfold session_of, erase; simpl. by rewrite lookup_delete_eq.
Qed.

Lemma wf_write_profiles w l pm' :
  well_formed w → users_of w = JArr l → profiles_ok l pm' →
  well_formed (write PROFILE_KEY (JSON_stringify (JObj pm')) w).
Proof.
  intros (l0 & pm & lm & h & Hu & Hp & Hlog & Hh & Hok & Hs & Hpm & Hlm & Hhist)
    Hl Hpm'.
  rewrite Hu in Hl. injection Hl as ->.
  exists l, pm', lm, h.
  unfold users_of, profiles_of, reflog_of, history_of in *.
  rewrite table_write_eq, !table_write_ne, session_write_ne by keys. done.
Qed.

Lemma wf_write_ledger w lm' :
  well_formed w → ledger_ok lm' →
  well_formed (write REF_LOG_KEY (JSON_stringify (JObj lm')) w).
Proof.
  intros (l & pm & lm & h & Hu & Hp & Hlog & Hh & Hok & Hs & Hpm & Hlm & Hhist)
    Hlm'.
  exists l, pm, lm', h.
  unfold users_of, profiles_of, reflog_of, history_of in *.
  rewrite table_write_eq, !table_write_ne, session_write_ne by keys. done.
Qed.

Lemma wf_write_history w l h' :
  well_formed w → users_of w = JArr l → history_ok l h' →
  well_formed (write HISTORY_KEY (JSON_stringify (JArr h')) w).
Proof.
  intros (l0 & pm & lm & h & Hu & Hp & Hlog & Hh & Hok & Hs & Hpm & Hlm & Hhist)
    Hl Hh'.
  rewrite Hu in Hl. injection Hl as ->.
  exists l, pm, lm, h'.
  unfold users_of, profiles_of, reflog_of, history_of in *.
  rewrite table_write_eq, !table_write_ne, session_write_ne by keys. done.
Qed.

Lemma wf_write_incoming w s :
  well_formed w → well_formed (write INCOMING_REF_KEY s w).
Proof.
  intros (l & pm & lm & h & Hu & Hp & Hlog & Hh & H).
  exists l, pm, lm, h.
  unfold users_of, profiles_of, reflog_of, history_of in *.
  rewrite !table_write_ne, session_write_ne by keys. done.
Qed.

Lemma wf_erase_incoming w :
  well_formed w → well_formed (erase INCOMING_REF_KEY w).
Proof.
  intros (l & pm & lm & h & Hu & Hp & Hlog & Hh & H).
  exists l, pm, lm, h.
  unfold users_of, profiles_of, reflog_of, history_of in *.
  rewrite !table_erase_ne, session_erase_ne by keys. done.
Qed.

Lemma wf_users w :
  well_formed w →
  ∃ l, users_of w = JArr l ∧ users_ok l ∧ session_ok l (session_of w).
Proof. intros (l & pm & lm & h & Hu & _ & _ & _ & Hok & Hs & _). eauto. Qed.

Lemma wf_profiles w l :
  well_formed w → users_of w = JArr l →
  ∃ pm, profiles_of w = JObj pm ∧ profiles_ok l pm.
Proof.
  intros (l0 & pm & lm & h & Hu & Hp & _ & _ & _ & _ & Hpm & _) Hl.
  rewrite Hu in Hl. injection Hl as ->. eauto.
Qed.

Lemma wf_ledger w :
  well_formed w → ∃ lm, reflog_of w = JObj lm ∧ ledger_ok lm.
Proof. intros (l & pm & lm & h & _ & _ & Hlog & _ & _ & _ & _ & Hlm & _). eauto. Qed.

Lemma wf_history w l :
  well_formed w → users_of w = JArr l →
  ∃ h, history_of w = JArr h ∧ history_ok l h.
Proof.
  intros (l0 & pm & lm & h & Hu & _ & _ & Hh & _ & _ & _ & _ & Hhist) Hl.
  rewrite Hu in Hl. injection Hl as ->. eauto.
Qed.

End WellFormedFacts.

(** ** The operations on a well-formed store *)

Section Keeping.
Context {platform : Platform}.

Lemma findIndex_from_insert key t l : ∀ k i x x',
  l !! i = Some x → key x' = key x →
  findIndex_from key t k (<[i := x']> l) = findIndex_from key t k l.
Proof.
  induction l as [|y l IH]; intros k [|i] x x' Hi Hx; simpl in *; try done.
  - injection Hi as ->. by rewrite Hx.
  - by rewrite (IH (S k) i x x').
Qed.

Lemma findIndex_insert key t l i x x' :
  l !! i = Some x → key x' = key x →
  findIndex key t (<[i := x']> l) = findIndex key t l.
Proof. apply findIndex_from_insert. Qed.

(** Giving a record a referral code, or another hash, keeps the list of
    users well formed, with the same addresses. *)
Lemma users_ok_update l i m name v :
  users_ok l → l !! i = Some (JObj m) →
  name ≠ "email" →
  (name = "refCode" → ∃ c, v = JStr c) →
  users_ok (<[i := JObj (<[name := v]> m)]> l)
  ∧ emails (<[i := JObj (<[name := v]> m)]> l) = emails l.
Proof.
  intros [Hl Hnd] Hi Hname Hv.
  assert (emails (<[i := JObj (<[name := v]> m)]> l) = emails l) as Hemails.
  { apply (emails_insert l i (JObj m)); [done|].
    simpl. by rewrite lookup_insert_ne. }
  split; [|done]. split; [|by rewrite Hemails].
  apply Forall_insert; [done|].
  destruct (Forall_lookup_1 _ _ _ _ Hl Hi)
    as (m' & s & [= <-] & Hm & Hvalid & Htrim & Hcode).
  exists (<[name := v]> m), s. split; [done|].
  rewrite lookup_insert_ne by done. repeat (split; [done|]).
  destruct (decide (name = "refCode")) as [->|Hne].
  - right. destruct (Hv eq_refl) as [c ->]. exists c. apply lookup_insert_eq.
  - by rewrite lookup_insert_ne.
Qed.

Lemma has_refCode_ok m :
  user_ok (JObj m) → has_refCode m = true →
  ∃ c, m !! "refCode" = Some (JStr c) ∧ c ≠ EmptyString.
Proof.
  intros (m' & s & [= <-] & _ & _ & _ & [Hnone|[c Hc]]); unfold has_refCode.
  - by rewrite Hnone.
  - rewrite Hc. simpl. intros Hne. exists c. split; [done|].
    by destruct c.
Qed.

Lemma has_refCode_str m c :
  m !! "refCode" = Some (JStr c) → c ≠ EmptyString → has_refCode m = true.
Proof. intros Hc Hne. unfold has_refCode. rewrite Hc. by destruct c. Qed.

Lemma or_else_str c fallback :
  c ≠ EmptyString → or_else (Some (JStr c)) fallback = JStr c.
Proof. intros Hne. by destruct c. Qed.

(** What [getCurrentUser] finds in a well-formed store: nobody when the
    session is empty, and otherwise the user of the session, whose
    record has a referral code when the call returns. *)
Lemma getCurrentUser_wf env w :
  well_formed w →
  ∃ r w',
    getCurrentUser env w = (Return r, w')
    ∧ well_formed w'
    ∧ (∀ key, key ≠ USERS_KEY → storage w' !! key = storage w !! key)
    ∧ match r with
      | None => session_of w = EmptyString ∧ w' = w
      | Some v =>
          session_of w = v_email v ∧ v_email v ≠ EmptyString
          ∧ ∃ l i m c,
              users_of w' = JArr l
              ∧ findIndex email_key_strict (Str.toLowerCase (v_email v)) l
                = Return (Some i)
              ∧ l !! i = Some (JObj m)
              ∧ m !! "email" = Some (JStr (v_email v))
              ∧ m !! "refCode" = Some (JStr c) ∧ c ≠ EmptyString
              ∧ v_refCode v = JStr c
              ∧ ∀ l0 i0 m0,
                  users_of w = JArr l0 →
                  findIndex email_key_strict (Str.toLowerCase (v_email v)) l0
                  = Return (Some i0) →
                  l0 !! i0 = Some (JObj m0) → has_refCode m0 = true →
                  w' = w
      end.
Proof.
  intros Hwf. destruct (wf_users w Hwf) as (l & Hu & Hok & Hs).
  unfold getCurrentUser.
  rewrite (bind_Return _ _ w _ w (run_getSessionEmail w)).
  destruct (session_of w) as [|c0 s0] eqn:Hsess.
  { exists None, w. by repeat split. }
  cbn [Str.nonempty negb]. cbv iota.
  destruct Hs as [?|Hs]; [done|].
  destruct (find_user_exact l _ Hok Hs) as (i & m & Hfind & Hi & Hm).
  rewrite (bind_Return _ _ w _ w (run_getUsers w)), Hu.
  rewrite (bind_Return _ _ w l w) by reflexivity.
  rewrite (bind_Return _ _ w (Some i) w) by (unfold lift; by rewrite Hfind).
  cbv beta iota. rewrite Hi, Hm.
  pose proof (Forall_lookup_1 _ _ _ _ (proj1 Hok) Hi) as Huser.
  destruct (has_refCode m) eqn:Hhas.
  - destruct (has_refCode_ok m Huser Hhas) as (c & Hc & Hne).
    eexists (Some _), w. split; [reflexivity|]. split; [done|]. split; [done|].
    simpl. split; [done|]. split; [done|].
    exists l, i, m, c. rewrite Hc. simpl.
    rewrite (proj2 (StrFacts.nonempty_true c) Hne). by repeat split.
  - destruct (generateRefCode_run env w) as (code & w1 & Hgen & Hsame & Hne).
    rewrite (bind_Return _ _ w code w1 Hgen).
    destruct (users_ok_update l i m "refCode" (JStr code) Hok Hi)
      as [Hok' Hemails]; [done|by eexists|].
    eexists (Some _), _. split; [reflexivity|]. split; [|split].
    + apply (wf_write_users _ l); [by eapply wf_same_store| |done|by rewrite Hemails].
      unfold users_of. by rewrite (table_same_store _ _ _ w w1).
    + intros key Hkey. simpl. rewrite lookup_insert_ne by done.
      by destruct Hsame as [-> _].
    + simpl. split; [done|]. split; [done|].
      eexists _, i, _, code. split; [apply table_write_eq|].
      split; [rewrite (findIndex_insert _ _ l i (JObj m));
              [exact Hfind|exact Hi|simpl; by rewrite lookup_insert_ne]|].
      split; [apply list_lookup_insert_eq; by eapply lookup_lt_Some|].
      split; [by rewrite lookup_insert_ne|].
      split; [apply lookup_insert_eq|]. split; [by apply StrFacts.nonempty_true|].
      split; [by rewrite Hne|].
      intros l0 i0 m0 Hu0 Hfind0 Hi0 Hhas0.
      injection Hu0 as <-.
      pose proof (eq_trans (eq_sym Hfind) Hfind0) as [= <-].
      pose proof (eq_trans (eq_sym Hi) Hi0) as [= <-]. congruence.
Qed.

End Keeping.

Section KeepingLedger.
Context {platform : Platform}.

Lemma entry_ok_empty : entry_ok empty_entry.
Proof.
  exists (<["clicks" := JArr []]> {[ "regs" := JArr [] ]}), [], [].
  repeat split; simpl; lia.
Qed.

Lemma ledger_entry_for lm c :
  ledger_ok lm →
  (get_prop lm c = Inherited ∧ entry_for lm c = None)
  ∨ ∃ v, entry_for lm c = Some v ∧ entry_ok v.
Proof.
  intros Hlm. unfold entry_for, get_prop.
  destruct (lm !! c) as [v|] eqn:Hc.
  - right. destruct (Hlm c v Hc) as (em & cl & rl & -> & H). simpl.
    eexists. split; [done|]. by exists em, cl, rl.
  - destruct (is_builtin_key c); [by left|].
    right. eexists. split; [done|]. apply entry_ok_empty.
Qed.

Lemma entry_ok_unshift field item v :
  entry_ok v → field = "clicks" ∨ field = "regs" →
  ∃ em l, v = JObj em ∧ em !! field = Some (JArr l)
          ∧ entry_ok (JObj (<[field := JArr (take 500 (item :: l))]> em)).
Proof.
  intros (em & cl & rl & -> & Hcl & Hrl & Hlc & Hlr) [->| ->].
  - exists em, cl. split; [done|]. split; [done|].
    exists (<["clicks" := JArr (take 500 (item :: cl))]> em), (take 500 (item :: cl)), rl.
    rewrite lookup_insert_eq, lookup_insert_ne by done.
    repeat split; try done. rewrite length_take. lia.
  - exists em, rl. split; [done|]. split; [done|].
    exists (<["regs" := JArr (take 500 (item :: rl))]> em), cl, (take 500 (item :: rl)).
    rewrite lookup_insert_eq, lookup_insert_ne by done.
    repeat split; try done. rewrite length_take. lia.
Qed.

Lemma ledger_ok_assign lm c v :
  ledger_ok lm → entry_ok v → ledger_ok (assign lm c v).
Proof.
  intros Hlm Hv. unfold assign.
  destruct (lm !! c); [by apply map_Forall_insert_2|].
  destruct (String.eqb c "__proto__"); [done|by apply map_Forall_insert_2].
Qed.

(** One record more in a list of the ledger: on a well-formed ledger
    [unshift_capped] throws for an inherited name only, and otherwise
    the ledger stays well formed. *)
Lemma unshift_capped_wf field item lm c :
  ledger_ok lm → field = "clicks" ∨ field = "regs" →
  (get_prop lm c = Inherited
   ∧ unshift_capped field item (entry_for lm c) = Throw)
  ∨ ∃ em l, entry_for lm c = Some (JObj em) ∧ em !! field = Some (JArr l)
            ∧ unshift_capped field item (entry_for lm c)
              = Return (JObj (<[field := JArr (take 500 (item :: l))]> em))
            ∧ ledger_ok (assign lm c
                           (JObj (<[field := JArr (take 500 (item :: l))]> em))).
Proof.
  intros Hlm Hfield.
  destruct (ledger_entry_for lm c Hlm) as [[Hin Hnone]|(v & Hsome & Hv)].
  - left. by rewrite Hnone.
  - right. destruct (entry_ok_unshift field item v Hv Hfield)
      as (em & l & -> & Hl & Hok).
    exists em, l. rewrite Hsome. simpl. rewrite Hl.
    repeat split; try done. by apply ledger_ok_assign.
Qed.

Lemma recordRefClick_wf env code w :
  well_formed w →
  ∃ o w',
    recordRefClick env code w = (o, w')
    ∧ well_formed w'
    ∧ (∀ key, key ≠ REF_LOG_KEY → storage w' !! key = storage w !! key)
    ∧ (o = Return tt ∨ o = Throw ∧ w' = w).
Proof.
  intros Hwf. destruct (wf_ledger w Hwf) as (lm & Hlog & Hlm).
  destruct (Str.trim code) as [|c0 c] eqn:Hc.
  { exists (Return tt), w. unfold recordRefClick. rewrite Hc. simpl. auto. }
  destruct (unshift_capped_wf "clicks" (click_record env) lm (Str.trim code) Hlm)
    as [[Hin Hthrow]|(em & l & Hentry & Hl & Hrun & Hok)]; [by left| |].
  - exists Throw, w. split; [|by auto].
    unfold recordRefClick. rewrite Hc. cbn [Str.nonempty negb]. cbv iota.
    rewrite (bind_Return _ _ w _ w (run_getRefLog w)), Hlog.
    rewrite (bind_Return _ _ w lm w) by reflexivity.
    apply bind_Throw. unfold lift. by rewrite <- Hc, Hthrow.
  - eexists (Return tt), _.
    split; [apply (recordRefClick_run env code w lm em l);
            [by rewrite Hc|done|done|done]|].
    split; [by apply wf_write_ledger|]. split; [|by left].
    intros key Hkey. simpl. by rewrite lookup_insert_ne.
Qed.

Lemma recordRefReg_wf env code email w :
  well_formed w →
  ∃ o w',
    recordRefReg env code email w = (o, w')
    ∧ well_formed w'
    ∧ (∀ key, key ≠ REF_LOG_KEY → storage w' !! key = storage w !! key)
    ∧ (o = Return tt ∨ o = Throw ∧ w' = w).
Proof.
  intros Hwf. destruct (wf_ledger w Hwf) as (lm & Hlog & Hlm).
  destruct (Str.trim code) as [|c0 c] eqn:Hc.
  { exists (Return tt), w. unfold recordRefReg. rewrite Hc. simpl. auto. }
  destruct (unshift_capped_wf "regs" (reg_record env email) lm (Str.trim code) Hlm)
    as [[Hin Hthrow]|(em & l & Hentry & Hl & Hrun & Hok)]; [by right| |].
  - exists Throw, w. split; [|by auto].
    unfold recordRefReg. rewrite Hc. cbn [Str.nonempty negb]. cbv iota.
    rewrite (bind_Return _ _ w _ w (run_getRefLog w)), Hlog.
    rewrite (bind_Return _ _ w lm w) by reflexivity.
    apply bind_Throw. unfold lift. by rewrite <- Hc, Hthrow.
  - eexists (Return tt), _.
    split; [apply (recordRefReg_run env code email w lm em l);
            [by rewrite Hc|done|done|done]|].
    split; [by apply wf_write_ledger|]. split; [|by left].
    intros key Hkey. simpl. by rewrite lookup_insert_ne.
Qed.

(** [getRefStatsFor] on a well-formed store: two lists, and no write. *)
Lemma getRefStatsFor_wf code w :
  well_formed w →
  ∃ cl rl, getRefStatsFor code w = (Return (stats (JArr cl) (JArr rl)), w)
           ∧ List.length cl ≤ 500 ∧ List.length rl ≤ 500.
Proof.
  intros Hwf. destruct (wf_ledger w Hwf) as (lm & Hlog & Hlm).
  unfold getRefStatsFor.
  destruct (Str.trim code) as [|c0 c] eqn:Hc.
  { exists [], []. simpl. split; [done|lia]. }
  cbn [Str.nonempty negb]. cbv iota.
  rewrite (bind_Return _ _ w _ w (run_getRefLog w)), Hlog.
  rewrite (bind_Return _ _ w lm w) by reflexivity.
  unfold get_prop. destruct (lm !! String c0 c) as [v|] eqn:Hv.
  - destruct (Hlm _ v Hv) as (em & cl & rl & -> & Hcl & Hrl & Hlc & Hlr).
    exists cl, rl. simpl. unfold bind, lift. simpl. rewrite Hcl, Hrl. done.
  - exists [], []. destruct (is_builtin_key _); simpl; (split; [done|lia]).
Qed.

End KeepingLedger.

Section KeepingUsers.
Context {platform : Platform}.

Lemma ensureUserRefCode_array_eq env l email w :
  ensureUserRefCode env (JArr l) email w
  = match ensureUserRefCode_array env l email w with
    | (Return r, w') => (Return r.1, w')
    | (Throw, w') => (Throw, w')
    | (Unmodelled, w') => (Unmodelled, w')
    end.
Proof.
  unfold ensureUserRefCode, ensureUserRefCode_array, bind, lift, ret. simpl.
  destruct (findIndex email_key_lenient (Str.toLowerCase email) l)
    as [[i|]| |]; try done.
  destruct (l !! i) as [[|b|n|s|l0|m]|]; try done.
  destruct (has_refCode m); [done|].
  by destruct (generateRefCode env w) as [[code| |] w1].
Qed.

(** [ensureUserRefCode] for a user that the list holds: the code of the
    record, which is created and stored when the record has none. *)
Lemma ensureUserRefCode_array_wf env w l i m s :
  well_formed w → users_of w = JArr l →
  findIndex email_key_strict (Str.toLowerCase s) l = Return (Some i) →
  l !! i = Some (JObj m) →
  ∃ c l' w',
    ensureUserRefCode_array env l s w = (Return (Some (JStr c), l'), w')
    ∧ c ≠ EmptyString
    ∧ well_formed w' ∧ users_of w' = JArr l' ∧ emails l' = emails l
    ∧ (∀ key, key ≠ USERS_KEY → storage w' !! key = storage w !! key)
    ∧ (has_refCode m = true → w' = w ∧ l' = l).
Proof.
  intros Hwf Hu Hfind Hi.
  destruct (wf_users w Hwf) as (l0 & Hu0 & Hok & _).
  rewrite Hu in Hu0. injection Hu0 as <-.
  pose proof (Forall_lookup_1 _ _ _ _ (proj1 Hok) Hi) as Huser.
  unfold ensureUserRefCode_array.
  rewrite (bind_Return _ _ w (Some i) w)
    by (unfold lift; by rewrite (findIndex_lenient_strict _ _ _ Hfind)).
  cbv beta iota. rewrite Hi.
  destruct (has_refCode m) eqn:Hhas.
  - destruct (has_refCode_ok m Huser Hhas) as (c & Hc & Hne).
    exists c, l, w. rewrite Hc. by repeat split.
  - destruct (generateRefCode_run env w) as (code & w1 & Hgen & Hsame & Hne).
    rewrite (bind_Return _ _ w code w1 Hgen).
    destruct (users_ok_update l i m "refCode" (JStr code) Hok Hi)
      as [Hok' Hemails]; [done|by eexists|].
    eexists code, _, _. split; [reflexivity|].
    split; [by apply StrFacts.nonempty_true|]. split; [|split; [|split; [|split]]].
    + apply (wf_write_users _ l); [by eapply wf_same_store| |done|by rewrite Hemails].
      unfold users_of. by rewrite (table_same_store _ _ _ w w1).
    + apply table_write_eq.
    + done.
    + intros key Hkey. simpl. rewrite lookup_insert_ne by done.
      by destruct Hsame as [-> _].
    + done.
Qed.

Lemma login_wf env email password w :
  well_formed w →
  ∃ r w', login env email password w = (Return r, w') ∧ well_formed w'.
Proof.
  intros Hwf. destruct (wf_users w Hwf) as (l & Hu & Hok & _).
  destruct (isValidEmail (Str.trim email)) eqn:Hvalid;
    [|exists (failure MSG_INVALID_EMAIL), w; unfold login; by rewrite Hvalid].
  destruct (String.length password <? 8) eqn:Hlen;
    [exists (failure MSG_WEAK_PASSWORD), w; unfold login; by rewrite Hvalid, Hlen|].
  destruct (find_user l (Str.toLowerCase (Str.trim email)) (proj1 Hok))
    as [[Hnone _]|(i & m & s & Hfind & Hi & Hm & Hlow)].
  { exists (failure MSG_USER_NOT_FOUND), w. split; [|done]. unfold login.
    rewrite Hvalid, Hlen. cbn [negb]. cbv iota.
    rewrite (bind_Return _ _ w _ w (run_getUsers w)), Hu.
    rewrite (bind_Return _ _ w l w) by reflexivity.
    by rewrite (bind_Return _ _ w None w) by (unfold lift; by rewrite Hnone). }
  rewrite (login_found env email password w l i m s);
    [|done|by apply Nat.ltb_ge|done|done].
  destruct (sha256Hex_total password) as [h Hh].
  rewrite (bind_Return _ _ w h w) by (unfold lift; by rewrite Hh).
  cbv zeta.
  destruct (negb _); [by exists (failure MSG_WRONG_PASSWORD), w|].
  set (w1 := write SESSION_KEY s w).
  assert (well_formed w1) as Hwf1.
  { apply (wf_write_session w l); [done|done|]. right. by eapply lookup_email. }
  assert (users_of w1 = JArr l) as Hu1.
  { unfold users_of, w1. rewrite table_write_ne by keys. exact Hu. }
  rewrite (bind_Return _ _ w tt w1) by reflexivity.
  rewrite (bind_Return _ _ w1 _ w1 (run_getUsers w1)), Hu1.
  rewrite <- Hlow in Hfind.
  destruct (ensureUserRefCode_array_wf env w1 l i m s Hwf1 Hu1 Hfind Hi)
    as (c & l' & w' & Hrun & _ & Hwf' & _).
  exists ok_true, w'. split; [|done].
  unfold bind at 1. by rewrite ensureUserRefCode_array_eq, Hrun.
Qed.

Lemma changePassword_wf oldPassword newPassword w :
  well_formed w →
  ∃ r w',
    changePassword oldPassword newPassword w = (Return r, w')
    ∧ well_formed w'.
Proof.
  intros Hwf. destruct (wf_users w Hwf) as (l & Hu & Hok & Hs).
  unfold changePassword.
  rewrite (bind_Return _ _ w _ w (run_getSessionEmail w)).
  destruct (session_of w) as [|c0 s0] eqn:Hsess;
    [by exists (failure MSG_NOT_AUTHENTICATED), w|].
  cbn [Str.nonempty negb]. cbv iota zeta.
  destruct (String.length newPassword <? 8);
    [by exists (failure MSG_WEAK_NEW_PASSWORD), w|].
  rewrite (bind_Return _ _ w _ w (run_getUsers w)), Hu.
  rewrite (bind_Return _ _ w l w) by reflexivity.
  destruct (find_user l (Str.toLowerCase (String c0 s0)) (proj1 Hok))
    as [[Hnone _]|(i & m & s & Hfind & Hi & Hm & Hlow)].
  { rewrite (bind_Return _ _ w None w) by (unfold lift; by rewrite Hnone).
    by exists (failure MSG_USER_NOT_FOUND), w. }
  rewrite (bind_Return _ _ w (Some i) w) by (unfold lift; by rewrite Hfind).
  cbv beta iota. rewrite Hi.
  destruct (sha256Hex_total oldPassword) as [h Hh].
  rewrite (bind_Return _ _ w h w) by (unfold lift; by rewrite Hh).
  destruct (negb _); [by exists (failure MSG_WRONG_CURRENT_PASSWORD), w|].
  destruct (sha256Hex_total newPassword) as [h' Hh'].
  rewrite (bind_Return _ _ w h' w) by (unfold lift; by rewrite Hh').
  destruct (users_ok_update l i m "passHash" (JStr h') Hok Hi)
    as [Hok' Hemails]; [done|done|].
  eexists ok_true, _. split; [reflexivity|].
  apply (wf_write_users w l); [done|done|done|by rewrite Hemails].
Qed.

Lemma profiles_ok_assign l pm k r :
  profiles_ok l pm → k ∈ emails l → r !! "email" = Some (JStr k) →
  profiles_ok l (assign pm k (JObj r)).
Proof.
  intros Hpm Hk Hr. unfold assign.
  assert (profiles_ok l (<[k := JObj r]> pm)) as Hins.
  { apply map_Forall_insert_2; [|done]. split; [done|by exists r]. }
  destruct (pm !! k); [done|].
  by destruct (String.eqb k "__proto__").
Qed.

Lemma profiles_ok_init l pm e :
  profiles_ok l pm → e ∈ emails l → profiles_ok l (init_profile pm e).
Proof.
  intros Hpm He. unfold init_profile, initial_profile.
  destruct (get_prop pm e) as [v| |]; [destruct (truthy v)| |]; try done;
    by apply profiles_ok_assign.
Qed.

Lemma updateProfile_wf fields w :
  well_formed w →
  ∃ r w', updateProfile fields w = (Return r, w') ∧ well_formed w'.
Proof.
  intros Hwf. destruct (wf_users w Hwf) as (l & Hu & Hok & Hs).
  destruct (wf_profiles w l Hwf Hu) as (pm & Hp & Hpm).
  destruct (session_of w) as [|c0 s0] eqn:Hsess.
  { exists (failure MSG_NOT_AUTHENTICATED), w. split; [|done].
    unfold updateProfile.
    rewrite (bind_Return _ _ w _ w (run_getSessionEmail w)). by rewrite Hsess. }
  destruct Hs as [?|Hs]; [done|].
  pose proof (updateProfile_run fields w pm) as Hrun.
  rewrite Hsess in Hrun. cbv zeta in Hrun.
  eexists ok_true, _. split; [by apply Hrun|].
  apply (wf_write_profiles w l); [done|done|].
  apply profiles_ok_assign; [|done|apply lookup_insert_eq].
  destruct (get_prop pm _) as [v| |]; [destruct (truthy v)| |]; try done;
    apply profiles_ok_assign; try done; apply lookup_singleton_eq.
Qed.

Lemma getMyProfile_wf w :
  well_formed w → ∃ r, getMyProfile w = (Return r, w).
Proof.
  intros Hwf. destruct (wf_users w Hwf) as (l & Hu & Hok & Hs).
  destruct (wf_profiles w l Hwf Hu) as (pm & Hp & Hpm).
  destruct (session_of w) as [|c0 s0] eqn:Hsess.
  { exists (Json JNull). unfold getMyProfile.
    rewrite (bind_Return _ _ w _ w (run_getSessionEmail w)). by rewrite Hsess. }
  eexists. apply (getMyProfile_run w pm); [by rewrite Hsess|done].
Qed.

Lemma logout_wf w : well_formed w → well_formed (erase SESSION_KEY w).
Proof. apply wf_erase_session. Qed.

End KeepingUsers.

Section KeepingRegister.
Context {platform : Platform}.

Lemma user_ok_new e h code inc :
  isValidEmail e = true → Str.trim e = e → user_ok (new_user e h code inc).
Proof.
  intros Hvalid Htrim. exists (new_user_fields e h code inc), e.
  split; [done|]. rewrite new_user_email. repeat (split; [done|]).
  right. exists code. apply new_user_refCode.
Qed.

Lemma email_of_new e h code inc : email_of (new_user e h code inc) = Some e.
Proof. simpl. by rewrite new_user_email. Qed.

Lemma users_ok_snoc l x s :
  users_ok l → user_ok x → email_of x = Some s →
  Str.toLowerCase s ∉ (Str.toLowerCase <$> emails l) →
  users_ok (l ++ [x]).
Proof.
  intros [Hl Hnd] Hx Hs Hnew. split.
  - apply Forall_app. split; [done|by constructor].
  - rewrite (emails_app l x s Hs), fmap_app. simpl.
    apply NoDup_app. split; [done|]. split; [|apply NoDup_singleton].
    intros t Ht ->%list_elem_of_singleton. done.
Qed.

Lemma emails_snoc_sub l x : emails l ⊆ emails (l ++ [x]).
Proof.
  intros s Hs. unfold emails. rewrite omap_app. apply elem_of_app. by left.
Qed.

Lemma get_prop_empty_key lm : get_prop lm EmptyString ≠ Inherited.
Proof. unfold get_prop. by destruct (lm !! EmptyString). Qed.

Lemma found_taken l i m s :
  l !! i = Some (JObj m) → m !! "email" = Some (JStr s) →
  Str.toLowerCase s ∈ (Str.toLowerCase <$> emails l).
Proof. intros Hi Hm. apply list_elem_of_fmap_2. by eapply lookup_email. Qed.

(** [register] on a well-formed store: it returns and keeps the store
    well formed, or it throws before any write; it throws exactly when
    the registration is valid and new and the staged referral code is
    a name that the ledger inherits. *)
Lemma register_wf env email password w l lm :
  well_formed w → users_of w = JArr l → reflog_of w = JObj lm →
  let blocked :=
    isValidEmail (Str.trim email) = true ∧ 8 ≤ String.length password
    ∧ (Str.toLowerCase (Str.trim email) ∉ (Str.toLowerCase <$> emails l))
    ∧ blocked_by_referral lm (incoming_of w) in
  ∃ o w',
    register env email password w = (o, w') ∧ well_formed w'
    ∧ (((∃ r, o = Return r) ∧ ¬ blocked)
       ∨ (o = Throw ∧ same_store w w' ∧ blocked)).
Proof.
  intros Hwf Hu Hlog blocked.
  destruct (wf_users w Hwf) as (l0 & Hu0 & Hok & _).
  rewrite Hu in Hu0. injection Hu0 as <-.
  destruct (wf_ledger w Hwf) as (lm0 & Hlog0 & Hlm).
  rewrite Hlog in Hlog0. injection Hlog0 as <-.
  destruct (wf_profiles w l Hwf Hu) as (pm & Hp & Hpm).
  destruct (isValidEmail (Str.trim email)) eqn:Hvalid.
  2:{ exists (Return (failure MSG_INVALID_EMAIL)), w.
      split; [unfold register; by rewrite Hvalid|]. split; [done|].
      left. split; [eauto|]. by intros [? _]. }
  destruct (String.length password <? 8) eqn:Hlen.
  { exists (Return (failure MSG_WEAK_PASSWORD)), w.
    split; [unfold register; by rewrite Hvalid, Hlen|]. split; [done|].
    left. split; [eauto|]. apply Nat.ltb_lt in Hlen. intros (_ & ? & _). lia. }
  apply Nat.ltb_ge in Hlen.
  destruct (find_user l (Str.toLowerCase (Str.trim email)) (proj1 Hok))
    as [[Hnone Hnew]|(i & m & s & Hfind & Hi & Hm & Hlow)].
  2:{ exists (Return (failure MSG_DUPLICATE_EMAIL)), w. split; [|split; [done|]].
      - unfold register. rewrite Hvalid. cbn [negb]. cbv iota.
        rewrite (proj2 (Nat.ltb_ge _ _) Hlen).
        rewrite (bind_Return _ _ w _ w (run_getUsers w)), Hu.
        rewrite (bind_Return _ _ w l w) by reflexivity.
        rewrite (bind_Return _ _ w (Some i) w) by (unfold lift; by rewrite Hfind).
        by rewrite bool_decide_eq_true_2 by eauto.
      - left. split; [eauto|]. intros (_ & _ & Hnot & _). apply Hnot.
        rewrite <- Hlow. by eapply found_taken. }
  destruct (sha256Hex_total password) as [h Hh].
  destruct (generateRefCode_run env w) as (code & w_g & Hgen & Hsame & _).
  pose proof (wf_same_store w w_g Hsame Hwf) as Hwf_g.
  assert (users_of w_g = JArr l) as Hu_g.
  { unfold users_of. by rewrite (table_same_store _ _ _ w w_g). }
  assert (reflog_of w_g = JObj lm) as Hlog_g.
  { unfold reflog_of. by rewrite (table_same_store _ _ _ w w_g). }
  pose proof (incoming_same_store w w_g Hsame) as Hinc_g.
  set (e := Str.trim email) in *.
  set (users' := l ++ [new_user e h code (incoming_of w)]).
  assert (users_ok users') as Hok'.
  { eapply users_ok_snoc; [done| |apply email_of_new|done].
    apply user_ok_new; [done|apply StrFacts.trim_idem]. }
  assert (e ∈ emails users') as He.
  { unfold users'. rewrite (emails_app _ _ e) by apply email_of_new.
    apply elem_of_app. right. by apply list_elem_of_singleton. }
  assert (∀ w_r, well_formed w_r → users_of w_r = JArr l →
                 well_formed (registered_world e users' pm w_r)) as Hfinal.
  { intros w_r Hwf_r Hu_r. unfold registered_world.
    eapply wf_write_session; [| |by right].
    - eapply wf_write_profiles.
      + by eapply (wf_write_users w_r l); [..|apply emails_snoc_sub].
      + apply table_write_eq.
      + apply profiles_ok_init; [|done].
        eapply profiles_ok_mono; [apply emails_snoc_sub|done].
    - unfold users_of. rewrite table_write_ne by keys. apply table_write_eq. }
  destruct (decide (incoming_of w = EmptyString)) as [Hinc|Hinc].
  { assert (attributed env e w_g w_g) as Hattr by (left; by rewrite Hinc_g).
    eexists (Return ok_true), _. split; [|split].
    - by apply (register_ok_run env email password w l h code w_g w_g pm).
    - by apply Hfinal.
    - left. split; [eauto|]. intros (_ & _ & _ & Hb). rewrite Hinc in Hb.
      by apply get_prop_empty_key in Hb. }
  destruct (unshift_capped_wf "regs" (reg_record env e) lm (incoming_of w) Hlm)
    as [[Hin Hthrow]|(em & regs & Hentry & Hregs & Hrun & Hok_lm)]; [by right| |].
  - destruct (register_throws_on_inherited_code env email password w l lm)
      as (w' & Hreg & Hsame'); try done.
    + by rewrite <- isValidEmail_trim.
    + exists Throw, w'. split; [done|]. split; [by eapply wf_same_store|].
      right. split; [done|]. split; [done|]. unfold blocked. by split_and!.
  - set (w_l := write REF_LOG_KEY
                  (JSON_stringify
                     (JObj (assign lm (incoming_of w)
                              (JObj (<["regs" := JArr (take 500 (reg_record env e :: regs))]> em)))))
                  w_g).
    assert (attributed env e w_g (erase INCOMING_REF_KEY w_l)) as Hattr.
    { right. rewrite Hinc_g. split; [done|]. by exists lm, em, regs. }
    eexists (Return ok_true), _. split; [|split].
    + by apply (register_ok_run env email password w l h code w_g
                  (erase INCOMING_REF_KEY w_l) pm).
    + apply Hfinal.
      * apply wf_erase_incoming. by apply wf_write_ledger.
      * by rewrite (attributed_users _ _ _ _ Hattr).
    + left. split; [eauto|]. intros (_ & _ & _ & Hb).
      unfold blocked_by_referral in Hb. unfold entry_for in Hentry.
      by rewrite Hb in Hentry.
Qed.

End KeepingRegister.

Section KeepingRest.
Context {platform : Platform}.

Lemma email_key_lenient_of x s :
  email_of x = Some s → email_key_lenient x = Return (Str.toLowerCase s).
Proof.
  destruct x as [| | | | |m]; try done. simpl.
  destruct (m !! "email") as [[| | |s'| |]|]; try done.
  intros [= ->]. simpl. by destruct s.
Qed.

(** On records that carry an address, the filter of [getMyHistory]
    keeps the records of the address, in their order. *)
Lemma filter_key_owned t h :
  Forall (λ x, is_Some (email_of x)) h →
  filter_key email_key_lenient t h = Return (List.filter (owned_by t) h).
Proof.
  induction h as [|x h IH]; [done|].
  intros [[s Hs] Hh]%Forall_cons. simpl.
  rewrite (email_key_lenient_of x s Hs), (IH Hh).
  unfold owned_by. by rewrite Hs.
Qed.

Lemma history_ok_emails l h :
  history_ok l h → Forall (λ x, is_Some (email_of x)) h.
Proof.
  intros Hh. eapply Forall_impl; [exact Hh|]. intros x (s & Hs & _). eauto.
Qed.

Lemma addExchange_wf record w :
  well_formed w →
  ∃ r w', addExchange record w = (Return r, w') ∧ well_formed w'.
Proof.
  intros Hwf. destruct (wf_users w Hwf) as (l & Hu & Hok & Hs).
  destruct (wf_history w l Hwf Hu) as (h & Hh & Hhist).
  unfold addExchange.
  rewrite (bind_Return _ _ w _ w (run_getSessionEmail w)).
  destruct (session_of w) as [|c0 s0] eqn:Hsess;
    [by exists (failure MSG_NOT_AUTH), w|].
  destruct Hs as [?|Hs]; [done|].
  cbn [Str.nonempty negb]. cbv iota.
  rewrite (bind_Return _ _ w _ w (run_getHistory w)), Hh.
  rewrite (bind_Return _ _ w h w) by reflexivity.
  eexists ok_true, _. split; [reflexivity|].
  apply (wf_write_history w l); [done|done|].
  constructor; [|done]. exists (String c0 s0). split; [|done].
  simpl. by rewrite lookup_insert_eq.
Qed.

Lemma getMyHistory_wf w :
  well_formed w → ∃ mine, getMyHistory w = (Return (JArr mine), w).
Proof.
  intros Hwf. destruct (wf_users w Hwf) as (l & Hu & Hok & Hs).
  destruct (wf_history w l Hwf Hu) as (h & Hh & Hhist).
  unfold getMyHistory.
  rewrite (bind_Return _ _ w _ w (run_getSessionEmail w)).
  destruct (session_of w) as [|c0 s0] eqn:Hsess; [by exists []|].
  cbn [Str.nonempty negb]. cbv iota.
  rewrite (bind_Return _ _ w _ w (run_getHistory w)), Hh.
  rewrite (bind_Return _ _ w h w) by reflexivity.
  eexists.
  erewrite bind_Return;
    [reflexivity|unfold lift; by rewrite filter_key_owned by by eapply history_ok_emails].
Qed.

Lemma user_ok_email_equals x s :
  user_ok x →
  email_equals s x = Return (bool_decide (email_of x = Some s)).
Proof.
  intros (m & s' & -> & Hm & _). simpl. rewrite Hm. f_equal.
  destruct (String.eqb_spec s' s) as [->|Hne].
  - by rewrite bool_decide_eq_true_2.
  - rewrite bool_decide_eq_false_2; [done|]. by intros [= ?].
Qed.

(** [users.find(u => u.email === email)] on user records: it does not
    throw, and it finds a record exactly when the address is one of the
    list's. *)
Lemma find_where_email l s : ∀ k,
  Forall user_ok l →
  ∃ r, find_from (email_equals s) k l = Return r
       ∧ (is_Some r ↔ s ∈ emails l).
Proof.
  induction l as [|x l IH]; intros k Hl.
  - exists None. split; [done|]. split; [by intros [? ?]|by intros ?%elem_of_nil].
  - apply Forall_cons in Hl as [Hx Hl]. cbn [find_from].
    rewrite (user_ok_email_equals x s Hx).
    destruct (user_ok_email x Hx) as (m & s' & -> & Hm & He & _).
    case_bool_decide as Heq.
    + exists (Some k). split; [done|]. split; [|by eauto].
      intros _. apply (proj2 (elem_of_emails _ _)).
      exists (JObj m). split; [apply list_elem_of_here|done].
    + destruct (IH (S k) Hl) as (r & Hr & Hiff). exists r. split; [done|].
      rewrite Hiff. unfold emails. simpl. rewrite Hm.
      rewrite elem_of_cons. split; [by right|]. intros [->|?]; [|done].
      exfalso. apply Heq. simpl. by rewrite Hm.
Qed.

(** [getMyRefCode] on a well-formed store: the code of the session's
    user, or the empty string when nobody is logged in. *)
Lemma getMyRefCode_wf env w :
  well_formed w →
  ∃ c w',
    getMyRefCode env w = (Return (JStr c), w') ∧ well_formed w'
    ∧ (session_of w = EmptyString → c = EmptyString ∧ w' = w)
    ∧ (session_of w ≠ EmptyString →
       c ≠ EmptyString ∧ session_of w' = session_of w
       ∧ (∃ l i m, registered w' (session_of w) l i m
                   ∧ m !! "refCode" = Some (JStr c))
       ∧ ∀ l0 i0 m0, registered w (session_of w) l0 i0 m0 →
           has_refCode m0 = true →
           w' = write SESSION_KEY (session_of w) w).
Proof.
  intros Hwf.
  destruct (getCurrentUser_wf env w Hwf) as (r & w1 & Hrun & Hwf1 & _ & Hr).
  unfold getMyRefCode. rewrite (bind_Return _ _ w r w1 Hrun).
  destruct r as [v|].
  2:{ destruct Hr as [Hs ->]. exists EmptyString, w.
      split; [done|]. split; [done|]. split; [done|]. by intros ?. }
  destruct Hr as (Hsess & Hne & l & i & m & c & Hu & Hfind & Hi & Hm & Hc & Hcne
                  & _ & Hkept).
  cbv zeta.
  rewrite (bind_Return _ _ w1 _ w1 (run_getUsers w1)), Hu.
  rewrite (bind_Return _ _ w1 l w1) by reflexivity.
  destruct (ensureUserRefCode_array_wf env w1 l i m (v_email v) Hwf1 Hu Hfind Hi)
    as (c' & l' & w2 & Hens & _ & _ & _ & _ & _ & Hsame).
  pose proof (has_refCode_str m c Hc Hcne) as Hhas.
  destruct (Hsame Hhas) as [-> ->].
  assert (c' = c) as ->.
  { unfold ensureUserRefCode_array in Hens.
    rewrite (bind_Return _ _ w1 (Some i) w1) in Hens
      by (unfold lift; by rewrite (findIndex_lenient_strict _ _ _ Hfind)).
    cbv beta iota in Hens. rewrite Hi, Hhas, Hc in Hens. by injection Hens. }
  rewrite (bind_Return _ _ w1 _ w1 Hens). cbn [fst snd].
  rewrite (or_else_str c JNull Hcne).
  assert (truthy (JStr c) = true) as Htruthy by (by destruct c).
  rewrite Htruthy.
  rewrite (bind_Return _ _ w1 (JStr c, l) w1) by reflexivity.
  cbn [fst snd].
  destruct (wf_users w1 Hwf1) as (l0 & Hu0 & Hok & _).
  rewrite Hu in Hu0. injection Hu0 as <-.
  destruct (find_where_email l (v_email v) 0 (proj1 Hok)) as (r & Hr & Hiff).
  rewrite (bind_Return _ _ w1 r w1) by (unfold lift, find_where; by rewrite Hr).
  assert (v_email v ∈ emails l) as Hin by (by eapply lookup_email).
  rewrite bool_decide_eq_true_2 by (by apply Hiff).
  rewrite (bind_Return _ _ w1 tt (write SESSION_KEY (v_email v) w1)) by reflexivity.
  exists c, (write SESSION_KEY (v_email v) w1).
  split; [by rewrite Htruthy|].
  split; [apply (wf_write_session w1 l); [done|done|by right]|].
  split; [intros Hempty; by rewrite Hempty in Hsess|].
  intros _. split; [done|]. rewrite Hsess.
  split; [apply session_write|]. split.
  - exists l, i, m. split; [|done]. split; [|done].
    unfold users_of. rewrite table_write_ne by keys. exact Hu.
  - intros l0 i0 m0 (Hu0 & Hfind0 & Hi0) Hhas0.
    by rewrite (Hkept l0 i0 m0 Hu0 Hfind0 Hi0 Hhas0).
Qed.

Lemma getMyRefSummary_wf env site w :
  well_formed w →
  ∃ r w', getMyRefSummary env site w = (Return r, w') ∧ well_formed w'.
Proof.
  intros Hwf.
  destruct (getMyRefCode_wf env w Hwf) as (c & w1 & Hrun & Hwf1 & _).
  unfold getMyRefSummary. rewrite (bind_Return _ _ w _ w1 Hrun).
  destruct (getRefStatsFor_wf c w1 Hwf1) as (cl & rl & Hstats & _).
  rewrite (bind_Return _ _ w1 _ w1 Hstats).
  eexists _, w1. split; [|done].
  unfold bind, lift, stats. simpl.
  rewrite lookup_insert_eq, lookup_insert_ne, lookup_singleton_eq by done.
  reflexivity.
Qed.

Lemma requireAuth_wf env redirectTo w :
  well_formed w →
  ∃ r w', requireAuth env redirectTo w = (Return r, w') ∧ well_formed w'.
Proof.
  intros Hwf.
  destruct (getCurrentUser_wf env w Hwf) as (r & w1 & Hrun & Hwf1 & _).
  unfold requireAuth. rewrite (bind_Return _ _ w r w1 Hrun).
  destruct r; by eexists _, w1.
Qed.

(** [initRefFromUrl] on a well-formed store *)
Lemma initRefFromUrl_wf env w :
  well_formed w →
  ∃ w', initRefFromUrl env w = (Return tt, w') ∧ well_formed w'.
Proof.
  intros Hwf. unfold initRefFromUrl.
  match goal with
  | |- ∃ w', try_catch ?m w = _ ∧ _ =>
      assert (∃ o w', m w = (o, w') ∧ well_formed w'
                      ∧ (o = Return tt ∨ o = Throw)) as (o & w' & Hm & Hwf' & Ho)
  end.
  2:{ exists w'. unfold try_catch. rewrite Hm.
      by destruct Ho as [-> | ->]. }
  destruct (ref_param env) as [code|]; [|exists (Return tt), w; auto].
  destruct (Str.nonempty code) eqn:Hcode; [|exists (Return tt), w; auto].
  cbn [negb]. cbv iota.
  set (w0 := write INCOMING_REF_KEY (Str.trim code) w).
  assert (well_formed w0) as Hwf0 by (by apply wf_write_incoming).
  rewrite (bind_Return _ _ w tt w0) by reflexivity.
  destruct (getCurrentUser_wf env w0 Hwf0) as (r & w1 & Hrun & Hwf1 & _ & Hr).
  rewrite (bind_Return _ _ w0 r w1 Hrun).
  assert (∀ own : bool, ∃ o w',
            (if own then ret tt else recordRefClick env code) w1 = (o, w')
            ∧ well_formed w' ∧ (o = Return tt ∨ o = Throw)) as Hclick.
  { intros [|]; [exists (Return tt), w1; auto|].
    destruct (recordRefClick_wf env code w1 Hwf1)
      as (o & w2 & Hrec & Hwf2 & _ & [->|[-> _]]); eauto 10. }
  destruct r as [v|].
  - destruct Hr as (_ & _ & l & i & m & c & Hu & Hfind & Hi & Hm & Hc & Hcne & _).
    pose proof (has_refCode_str m c Hc Hcne) as Hhas.
    rewrite (bind_Return _ _ w1 (Str.nonempty c && String.eqb c code) w1).
    + apply Hclick.
    + rewrite (bind_Return _ _ w1 _ w1 (run_getUsers w1)), Hu.
      rewrite (bind_Return _ _ w1 _ w1
                 (ensureUserRefCode_present env l i m (v_email v) w1
                    (findIndex_lenient_strict _ _ _ Hfind) Hi Hhas)).
      by rewrite Hc.
  - rewrite (bind_Return _ _ w1 false w1) by reflexivity. apply (Hclick false).
Qed.

Lemma effect_Return {A} (m : M A) w a w' :
  m w = (Return a, w') → effect m w = (Return tt, w').
Proof. intros H. unfold effect. by rewrite (bind_Return _ _ _ _ _ H). Qed.

Lemma effect_Throw {A} (m : M A) w w' :
  m w = (Throw, w') → effect m w = (Throw, w').
Proof. intros H. unfold effect. by apply bind_Throw. Qed.

(** Every call of the interface keeps a well-formed store well formed.
    It returns, unless it is a registration stopped by the staged
    referral code. *)
Lemma perform_wf c w :
  well_formed w →
  well_formed (perform c w).2
  ∧ ((perform c w).1 = Return tt
     ∨ ((perform c w).1 = Throw
        ∧ ∃ env email password, c = Register env email password)).
Proof.
  intros Hwf. destruct c; simpl.
  - destruct (initRefFromUrl_wf env w Hwf) as (w' & -> & Hwf'). auto.
  - destruct (wf_users w Hwf) as (l & Hu & _).
    destruct (wf_ledger w Hwf) as (lm & Hlog & _).
    destruct (register_wf env email password w l lm Hwf Hu Hlog)
      as (o & w' & Hrun & Hwf' & [[[r ->] _]|(-> & _)]).
    + rewrite (effect_Return _ _ _ _ Hrun). auto.
    + rewrite (effect_Throw _ _ _ Hrun). eauto 10.
  - destruct (login_wf env email password w Hwf) as (r & w' & Hrun & Hwf').
    rewrite (effect_Return _ _ _ _ Hrun). auto.
  - split; [by apply logout_wf|by left].
  - destruct (requireAuth_wf env redirectTo w Hwf) as (r & w' & Hrun & Hwf').
    rewrite (effect_Return _ _ _ _ Hrun). auto.
  - destruct (getCurrentUser_wf env w Hwf) as (r & w' & Hrun & Hwf' & _).
    rewrite (effect_Return _ _ _ _ Hrun). auto.
  - destruct (getMyProfile_wf w Hwf) as (r & Hrun).
    rewrite (effect_Return _ _ _ _ Hrun). auto.
  - destruct (updateProfile_wf fields w Hwf) as (r & w' & Hrun & Hwf').
    rewrite (effect_Return _ _ _ _ Hrun). auto.
  - destruct (changePassword_wf oldPassword newPassword w Hwf)
      as (r & w' & Hrun & Hwf').
    rewrite (effect_Return _ _ _ _ Hrun). auto.
  - destruct (addExchange_wf record w Hwf) as (r & w' & Hrun & Hwf').
    rewrite (effect_Return _ _ _ _ Hrun). auto.
  - destruct (getMyHistory_wf w Hwf) as (r & Hrun).
    rewrite (effect_Return _ _ _ _ Hrun). auto.
  - destruct (getMyRefSummary_wf env site w Hwf) as (r & w' & Hrun & Hwf').
    rewrite (effect_Return _ _ _ _ Hrun). auto.
Qed.

End KeepingRest.

(** ** What the interface keeps, and when it returns *)

Section Invariant.
Context {platform : Platform}.

(** X4.  Calls of the interface made one after the other, each settled
    before the next is made (page loads, [register], [login], [logout],
    [requireAuth], [getCurrentUser], [getMyProfile], [updateProfile],
    [changePassword], [addExchange], [getMyHistory],
    [getMyRefSummary], in any order, with any arguments, whether a call
    returns or throws), keep the store well formed, from an empty store
    on: the user records carry valid, trimmed addresses that differ
    pairwise up to letter case; the session is empty or the address of
    a user; every profile is filed under a user's address and carries
    it; every list of the ledger has at most 500 records; every history
    record carries the address of a user.  (Calls of [register] that
    overlap do not keep it, see the last section.) *)
Theorem calls_in_sequence_keep_store_well_formed cs w :
  well_formed w → well_formed (run_in_sequence cs w).
Proof.
  revert w. induction cs as [|c cs IH]; intros w Hwf; simpl; [done|].
  by apply IH, perform_wf.
Qed.

(** X5.  On a well-formed store every call of the interface other than
    [register] returns normally (it does not throw, and the run does
    not leave the modelled behaviour), and the store stays well
    formed. *)
Theorem interface_returns_on_well_formed c w :
  well_formed w →
  (∀ env email password, c ≠ Register env email password) →
  (perform c w).1 = Return tt ∧ well_formed (perform c w).2.
Proof.
  intros Hwf Hc. destruct (perform_wf c w Hwf) as [Hwf' [Hret|[_ Hreg]]].
  - done.
  - destruct Hreg as (env & email & password & ->). by destruct (Hc env email password).
Qed.

(** X6.  On a well-formed store [register] throws in one situation
    only, and always in it: the address is valid and not taken, the
    password has 8 characters or more, and the staged referral code is
    a name that the ledger inherits from [Object.prototype] (such as
    [toString]) without owning it.  It then throws before any write.
    In every other situation it returns a result object. *)
Theorem register_throws_exactly_when_blocked env email password w l lm :
  well_formed w → users_of w = JArr l → reflog_of w = JObj lm →
  let run := register env email password w in
  (run.1 = Throw
   ↔ isValidEmail (Str.trim email) = true
     ∧ 8 ≤ String.length password
     ∧ (Str.toLowerCase (Str.trim email) ∉ (Str.toLowerCase <$> emails l))
     ∧ blocked_by_referral lm (incoming_of w))
  ∧ (run.1 = Throw → same_store w run.2)
  ∧ (run.1 ≠ Throw → ∃ r, run.1 = Return r).
Proof.
  intros Hwf Hu Hlog run.
  destruct (register_wf env email password w l lm Hwf Hu Hlog)
    as (o & w' & Hrun & _ & [[[r ->] Hnot]|(-> & Hsame & Hblocked)]);
    unfold run; rewrite Hrun; simpl.
  - split; [split; [done|by intros ?]|]. split; [done|eauto].
  - split; [done|]. split; done.
Qed.

End Invariant.

Lemma calls_in_sequence_keep_store_well_formed_witness :
  let cs :=
    [ PageLoad (example_env 0 (Some "FRIEND42"));
      Register (example_env 1 None) "a@b.com" "password1";
      UpdateProfile (JObj {[ "phone" := JStr "123" ]});
      AddExchange (JObj {[ "amount" := JNum 5 ]});
      Logout;
      Register (example_env 2 None) "c@d.org" "password2";
      Login (example_env 3 None) "A@B.com" "password1";
      ChangePassword "password1" "password3";
      GetMyRefSummary (example_env 4 None)
        {| origin := ""; index_url := λ _, None |} ] in
  let w := run_in_sequence (platform := reference_platform true) cs empty_world in
  well_formed (platform := reference_platform true) empty_world
  ∧ well_formed (platform := reference_platform true) w
  ∧ session_of w = "a@b.com"
  ∧ List.length (journal w) = 16.
Proof.
  intros cs w. split; [apply wf_fresh|]. split.
  - exact (calls_in_sequence_keep_store_well_formed
             (platform := reference_platform true) cs empty_world wf_fresh).
  - split; vm_compute; reflexivity.
Defined.

Lemma interface_returns_on_well_formed_witness :
  let w :=
    run_in_sequence (platform := reference_platform true)
      [ PageLoad (example_env 0 (Some "FRIEND42"));
        Register (example_env 1 None) "a@b.com" "password1";
        AddExchange (JObj {[ "amount" := JNum 5 ]}) ] empty_world in
  well_formed (platform := reference_platform true) w
  ∧ session_of w = "a@b.com"
  ∧ Forall (λ c, (∀ env email password, c ≠ Register env email password)
                 ∧ (perform (platform := reference_platform true) c w).1
                   = Return tt
                 ∧ well_formed (platform := reference_platform true)
                     (perform (platform := reference_platform true) c w).2)
      [ PageLoad (example_env 2 (Some "DLT29GPW"));
        Login (example_env 2 None) "A@B.com" "password1";
        Login (example_env 2 None) "a@b.com" "password2";
        RequireAuth (example_env 2 None) None;
        GetCurrentUser (example_env 2 None);
        GetMyProfile;
        UpdateProfile (JObj {[ "phone" := JStr "123" ]});
        ChangePassword "password1" "password2";
        AddExchange (JObj {[ "amount" := JNum 7 ]});
        GetMyHistory;
        GetMyRefSummary (example_env 2 None)
          {| origin := ""; index_url := λ _, None |};
        Logout ].
Proof.
  intros w.
  assert (well_formed (platform := reference_platform true) w) as Hwf.
  { unfold w. cbn [run_in_sequence].
    refine (proj1 (perform_wf _ _ _)). refine (proj1 (perform_wf _ _ _)).
    refine (proj1 (perform_wf _ _ _)). apply wf_fresh. }
  split; [exact Hwf|]. split; [vm_compute; reflexivity|].
  assert (∀ c, (∀ env email password, c ≠ Register env email password) →
            (∀ env email password, c ≠ Register env email password)
            ∧ (perform (platform := reference_platform true) c w).1 = Return tt
            ∧ well_formed (platform := reference_platform true)
                (perform (platform := reference_platform true) c w).2) as Hcall.
  { intros c Hc. split; [exact Hc|].
    exact (interface_returns_on_well_formed
             (platform := reference_platform true) c w Hwf Hc). }
  repeat (constructor; [apply Hcall; intros ???; discriminate|]).
  constructor.
Defined.

Lemma register_throws_exactly_when_blocked_witness :
  let w := (initRefFromUrl (platform := reference_platform true)
              (example_env 0 (Some "toString")) empty_world).2 in
  let run := register (platform := reference_platform true)
               (example_env 1 None) "a@b.com" "password1" w in
  well_formed (platform := reference_platform true) w
  ∧ users_of (platform := reference_platform true) w = JArr []
  ∧ reflog_of (platform := reference_platform true) w = JObj ∅
  ∧ blocked_by_referral ∅ (incoming_of w)
  ∧ run.1 = Throw.
Proof.
  intros w run.
  assert (well_formed (platform := reference_platform true) w) as Hwf.
  { apply (perform_wf (platform := reference_platform true)
             (PageLoad (example_env 0 (Some "toString"))) empty_world wf_fresh). }
  assert (users_of (platform := reference_platform true) w = JArr []) as Hu
    by (vm_compute; reflexivity).
  assert (reflog_of (platform := reference_platform true) w = JObj ∅) as Hlog
    by (vm_compute; reflexivity).
  assert (blocked_by_referral ∅ (incoming_of w)) as Hb
    by (vm_compute; reflexivity).
  split; [exact Hwf|]. split; [exact Hu|]. split; [exact Hlog|].
  split; [exact Hb|].
  destruct (register_throws_exactly_when_blocked
              (platform := reference_platform true)
              (example_env 1 None) "a@b.com" "password1" w [] ∅ Hwf Hu Hlog)
    as [[_ Hthrow] _].
  apply Hthrow. split; [reflexivity|]. split; [simpl; lia|].
  split; [apply not_elem_of_nil|exact Hb].
Defined.

(** ** Footprints of the operations *)

Section Footprints.
Context {platform : Platform}.

Lemma ww_ret {A} keys (a : A) : writes_within keys (ret a).
Proof. intros w. exists []. by rewrite app_nil_r. Qed.

Lemma ww_lift {A} keys (o : outcome A) : writes_within keys (lift o).
Proof. intros w. exists []. by rewrite app_nil_r. Qed.

Lemma ww_getItem keys key : writes_within keys (getItem key).
Proof. intros w. exists []. by rewrite app_nil_r. Qed.

Lemma ww_random_index keys env : writes_within keys (random_index env).
Proof. intros w. exists []. by rewrite app_nil_r. Qed.

Lemma ww_setItem keys key value :
  key ∈ keys → writes_within keys (setItem key value).
Proof.
  intros Hkey w. exists [SetItem key value]. split; [done|].
  split; [by constructor|].
  intros k Hk. simpl. apply lookup_insert_ne. by intros ->.
Qed.

Lemma ww_removeItem keys key :
  key ∈ keys → writes_within keys (removeItem key).
Proof.
  intros Hkey w. exists [RemoveItem key]. split; [done|].
  split; [by constructor|].
  intros k Hk. simpl. apply lookup_delete_ne. by intros ->.
Qed.

Lemma ww_bind {A B} keys (m : M A) (k : A → M B) :
  writes_within keys m → (∀ a, writes_within keys (k a)) →
  writes_within keys (bind m k).
Proof.
  intros Hm Hk w. destruct (Hm w) as (ops & Hj & Hops & Hst).
  unfold bind. destruct (m w) as [[a| |] w1]; [|by exists ops..].
  simpl in *. destruct (Hk a w1) as (ops' & Hj' & Hops' & Hst').
  exists (ops ++ ops'). split; [by rewrite Hj', Hj, app_assoc|].
  split; [by apply Forall_app|].
  intros key Hkey. by rewrite Hst', Hst.
Qed.

Lemma ww_try_catch keys (m : M unit) :
  writes_within keys m → writes_within keys (try_catch m).
Proof.
  intros Hm w. destruct (Hm w) as (ops & H). exists ops.
  unfold try_catch. by destruct (m w) as [[a| |] w1].
Qed.

Lemma ww_effect {A} keys (m : M A) :
  writes_within keys m → writes_within keys (effect m).
Proof. intros Hm. apply ww_bind; [done|]. intros a. apply ww_ret. Qed.

Ltac in_keys :=
  solve [repeat first [apply list_elem_of_here | apply list_elem_of_further]].

(** One step of the analysis of an operation *)
Ltac ww_step :=
  lazymatch goal with
  | |- writes_within _ (bind _ _) => apply ww_bind; [|intros ?]
  | |- writes_within _ (ret _) => apply ww_ret
  | |- writes_within _ (lift _) => apply ww_lift
  | |- writes_within _ (getItem _) => apply ww_getItem
  | |- writes_within _ (setItem _ _) => apply ww_setItem; in_keys
  | |- writes_within _ (removeItem _) => apply ww_removeItem; in_keys
  | |- writes_within _ (try_catch _) => apply ww_try_catch
  | |- writes_within _ (effect _) => apply ww_effect
  | |- writes_within _ (if ?b then _ else _) => destruct b
  | |- writes_within _ (match ?x with _ => _ end) => destruct x
  | |- writes_within _ (let _ := _ in _) => cbv zeta
  end.

Lemma ww_mono {A} keys keys' (m : M A) :
  keys ⊆ keys' → writes_within keys m → writes_within keys' m.
Proof.
  intros Hsub Hm w. destruct (Hm w) as (ops & Hj & Hops & Hst).
  exists ops. split; [done|]. split.
  - eapply Forall_impl; [exact Hops|]. intros op. apply Hsub.
  - intros k Hk. apply Hst. intros Hin. by apply Hk, Hsub.
Qed.

Ltac sub_keys :=
  solve [intros ? ?; repeat match goal with
                            | H : _ ∈ _ :: _ |- _ => apply elem_of_cons in H as [->|H]
                            | H : _ ∈ [] |- _ => by apply elem_of_nil in H
                            end; in_keys].

Lemma ww_generateRefCode keys env : writes_within keys (generateRefCode env).
Proof.
  unfold generateRefCode. generalize EmptyString. generalize 8.
  induction n as [|n IH]; intros s; cbn [generateRefCode_loop]; [apply ww_ret|].
  apply ww_bind; [apply ww_random_index|]. intros i.
  destruct (String.get i alphabet); apply IH.
Qed.

Ltac ww_unfold :=
  unfold getUsers, getProfile, getHistory, getRefLog, getSessionEmail,
    getIncomingRef, setUsers, setProfile, setHistory, setRefLog,
    setSessionEmail, setIncomingRef, clearSession, clearIncomingRef.

Ltac ww := ww_unfold; repeat first [apply ww_generateRefCode | ww_step].

Lemma ww_getCurrentUser env : writes_within [USERS_KEY] (getCurrentUser env).
Proof. unfold getCurrentUser. ww. Qed.

Lemma ww_ensureUserRefCode env users email :
  writes_within [USERS_KEY] (ensureUserRefCode env users email).
Proof. unfold ensureUserRefCode. ww. Qed.

Lemma ww_ensureUserRefCode_array env l email :
  writes_within [USERS_KEY] (ensureUserRefCode_array env l email).
Proof. unfold ensureUserRefCode_array. ww. Qed.

Lemma ww_recordRefClick env code :
  writes_within [REF_LOG_KEY] (recordRefClick env code).
Proof. unfold recordRefClick. ww. Qed.

Lemma ww_recordRefReg env code email :
  writes_within [REF_LOG_KEY] (recordRefReg env code email).
Proof. unfold recordRefReg. ww. Qed.

Lemma ww_getRefStatsFor keys code : writes_within keys (getRefStatsFor code).
Proof. unfold getRefStatsFor. ww. Qed.

Ltac ww_call :=
  first
    [ eapply ww_mono; [|apply ww_getCurrentUser]; sub_keys
    | eapply ww_mono; [|apply ww_ensureUserRefCode]; sub_keys
    | eapply ww_mono; [|apply ww_ensureUserRefCode_array]; sub_keys
    | eapply ww_mono; [|apply ww_recordRefClick]; sub_keys
    | eapply ww_mono; [|apply ww_recordRefReg]; sub_keys
    | apply ww_getRefStatsFor
    | apply ww_generateRefCode ].

Ltac ww' := ww_unfold; repeat first [ww_call | ww_step].

Lemma ww_initRefFromUrl env :
  writes_within [INCOMING_REF_KEY; USERS_KEY; REF_LOG_KEY] (initRefFromUrl env).
Proof. unfold initRefFromUrl. ww'. Qed.

Lemma ww_register env email password :
  writes_within
    [REF_LOG_KEY; INCOMING_REF_KEY; USERS_KEY; PROFILE_KEY; SESSION_KEY]
    (register env email password).
Proof. unfold register. ww'. Qed.

Lemma ww_login env email password :
  writes_within [SESSION_KEY; USERS_KEY] (login env email password).
Proof. unfold login. ww'. Qed.

Lemma ww_changePassword oldPassword newPassword :
  writes_within [USERS_KEY] (changePassword oldPassword newPassword).
Proof. unfold changePassword. ww'. Qed.

Lemma ww_updateProfile fields : writes_within [PROFILE_KEY] (updateProfile fields).
Proof. unfold updateProfile. ww'. Qed.

Lemma ww_getMyProfile : writes_within [] getMyProfile.
Proof. unfold getMyProfile. ww'. Qed.

Lemma ww_addExchange record : writes_within [HISTORY_KEY] (addExchange record).
Proof. unfold addExchange. ww'. Qed.

Lemma ww_getMyHistory : writes_within [] getMyHistory.
Proof. unfold getMyHistory. ww'. Qed.

Lemma ww_requireAuth env redirectTo :
  writes_within [USERS_KEY] (requireAuth env redirectTo).
Proof. unfold requireAuth. ww'. Qed.

Lemma ww_getMyRefCode env :
  writes_within [USERS_KEY; SESSION_KEY] (getMyRefCode env).
Proof. unfold getMyRefCode. ww'. Qed.

Lemma ww_getMyRefSummary env site :
  writes_within [USERS_KEY; SESSION_KEY] (getMyRefSummary env site).
Proof.
  unfold getMyRefSummary. apply ww_bind; [apply ww_getMyRefCode|].
  intros code. ww'.
Qed.

(** Once the code is staged, [initRefFromUrl] does not touch the
    staging slot any more. *)
Lemma initRefFromUrl_keeps_staged env code w :
  ref_param env = Some code → code ≠ EmptyString →
  storage (initRefFromUrl env w).2 !! INCOMING_REF_KEY = Some (Str.trim code).
Proof.
  intros Hparam Hcode%StrFacts.nonempty_true.
  set (w0 := write INCOMING_REF_KEY (Str.trim code) w).
  unfold initRefFromUrl. rewrite Hparam, Hcode. cbn [negb]. cbv iota.
  match goal with
  | |- storage (try_catch (bind _ ?k) w).2 !! _ = _ =>
      assert (writes_within [USERS_KEY; REF_LOG_KEY] (k tt)) as Hk by ww'
  end.
  destruct (Hk w0) as (ops & _ & _ & Hst).
  unfold try_catch. rewrite (bind_Return _ _ w tt w0) by reflexivity.
  assert (INCOMING_REF_KEY ∉ [USERS_KEY; REF_LOG_KEY]) as Hnot
    by (rewrite !elem_of_cons, elem_of_nil; by intros [?|[?|?]]).
  specialize (Hst INCOMING_REF_KEY Hnot).
  assert (storage w0 !! INCOMING_REF_KEY = Some (Str.trim code)) as Hw0
    by apply lookup_insert_eq.
  match type of Hst with
  | storage (?r).2 !! _ = _ => destruct r as [[[]| |] w1]
  end; simpl in *; by rewrite Hst.
Qed.

(** X7.  Each call of the interface writes and removes under the keys
    of its footprint only, whatever the store holds and however the
    call ends: [login] touches the session and the users, never the
    profiles, the history or the ledger; [changePassword] the users
    only; [updateProfile] the profiles only; [addExchange] the history
    only; [getMyProfile] and [getMyHistory] nothing; and so on.  The
    journal grows by operations on these keys, and what is stored under
    any other key stays as it is. *)
Theorem interface_writes_within_footprint c w :
  ∃ ops,
    journal (perform c w).2 = journal w ++ ops
    ∧ Forall (λ op, (touched op).2 ∈ footprint c) ops
    ∧ ∀ key, key ∉ footprint c →
        storage (perform c w).2 !! key = storage w !! key.
Proof.
  revert w. change (writes_within (footprint c) (perform c)).
  destruct c; simpl.
  - apply ww_initRefFromUrl.
  - apply ww_effect, ww_register.
  - apply ww_effect, ww_login.
  - unfold logout. ww.
  - apply ww_effect, ww_requireAuth.
  - apply ww_effect, ww_getCurrentUser.
  - apply ww_effect, ww_getMyProfile.
  - apply ww_effect, ww_updateProfile.
  - apply ww_effect, ww_changePassword.
  - apply ww_effect, ww_addExchange.
  - apply ww_effect, ww_getMyHistory.
  - apply ww_effect, ww_getMyRefSummary.
Qed.

End Footprints.

(** ** Leaving, and what an empty session refuses *)

Section Session.
Context {platform : Platform}.

(** X8.  [logout] removes the session and nothing else.  After it,
    whatever else the store holds, nobody is logged in:
    [getCurrentUser] and [getMyProfile] return [null], [requireAuth]
    returns [false] and sends the visitor to the given page
    ([./login.html] by default), [updateProfile], [changePassword]
    and [addExchange] refuse without writing, [getMyHistory] is empty
    and [getMyRefCode] is the empty string. *)
Theorem logout_ends_session env fields oldPassword newPassword record
    redirectTo w :
  let w' := erase SESSION_KEY w in
  logout w = (Return tt, w')
  ∧ session_of w' = EmptyString
  ∧ (∀ key, key ≠ SESSION_KEY → storage w' !! key = storage w !! key)
  ∧ getCurrentUser env w' = (Return None, w')
  ∧ requireAuth env redirectTo w'
    = (Return (false, Some (default "./login.html" redirectTo)), w')
  ∧ getMyProfile w' = (Return (Json JNull), w')
  ∧ updateProfile fields w' = (Return (failure MSG_NOT_AUTHENTICATED), w')
  ∧ changePassword oldPassword newPassword w'
    = (Return (failure MSG_NOT_AUTHENTICATED), w')
  ∧ addExchange record w' = (Return (failure MSG_NOT_AUTH), w')
  ∧ getMyHistory w' = (Return (JArr []), w')
  ∧ getMyRefCode env w' = (Return (JStr ""), w').
Proof.
  intros w'.
  assert (session_of w' = EmptyString) as Hs.
  { unfold session_of, w', erase; simpl. by rewrite lookup_delete_eq. }
  assert (getCurrentUser env w' = (Return None, w')) as Hnone.
  { unfold getCurrentUser.
    rewrite (bind_Return _ _ w' _ w' (run_getSessionEmail w')). by rewrite Hs. }
  split; [done|]. split; [done|].
  split; [intros key Hkey; simpl; by rewrite lookup_delete_ne|].
  split; [done|].
  split; [unfold requireAuth; by rewrite (bind_Return _ _ _ _ _ Hnone)|].
  split; [unfold getMyProfile;
          rewrite (bind_Return _ _ w' _ w' (run_getSessionEmail w')); by rewrite Hs|].
  split; [unfold updateProfile;
          rewrite (bind_Return _ _ w' _ w' (run_getSessionEmail w')); by rewrite Hs|].
  split; [unfold changePassword;
          rewrite (bind_Return _ _ w' _ w' (run_getSessionEmail w')); by rewrite Hs|].
  split; [unfold addExchange;
          rewrite (bind_Return _ _ w' _ w' (run_getSessionEmail w')); by rewrite Hs|].
  split; [unfold getMyHistory;
          rewrite (bind_Return _ _ w' _ w' (run_getSessionEmail w')); by rewrite Hs|].
  unfold getMyRefCode. by rewrite (bind_Return _ _ _ _ _ Hnone).
Qed.

End Session.

(** ** Changing the password *)

Section Password.
Context {platform : Platform}.

Lemma changePassword_found oldPassword newPassword w l i m :
  session_of w ≠ EmptyString →
  8 ≤ String.length newPassword →
  registered w (session_of w) l i m →
  changePassword oldPassword newPassword w
  = (let! oldHash := lift (sha256Hex oldPassword) in
     let same :=
       match m !! "passHash" with
       | Some (JStr h) => String.eqb oldHash h
       | _ => false
       end in
     if negb same then ret (failure MSG_WRONG_CURRENT_PASSWORD)
     else
       let! newHash := lift (sha256Hex newPassword) in
       do! setUsers (JArr (<[i := JObj (<["passHash" := JStr newHash]> m)]> l)) in
       ret ok_true) w.
Proof.
  intros Hs%StrFacts.nonempty_true Hlen%Nat.ltb_ge (Hu & Hidx & Hi).
  unfold changePassword.
  rewrite (bind_Return _ _ w _ w (run_getSessionEmail w)).
  rewrite Hs. cbn [negb]. cbv iota zeta. rewrite Hlen.
  rewrite (bind_Return _ _ w _ w (run_getUsers w)), Hu.
  rewrite (bind_Return _ _ w l w) by reflexivity.
  rewrite (bind_Return _ _ w (Some i) w) by (unfold lift; by rewrite Hidx).
  cbv beta iota. by rewrite Hi.
Qed.

(** X9.  [changePassword] checks in this order, and the first check
    that fails decides the answer: the session (an empty session is
    refused as not authorized, whatever the passwords), the length of
    the new password (8 at least), the user of the session (refused
    when the list of users has no record for the address), the current
    password (refused when its hash is not the stored hash).  When all
    four pass, the hash of the new password replaces the stored one in
    that record, and the list of users is written once.  Every refusal
    leaves the world as it is, journal included, and there is no other
    result. *)
Theorem changePassword_checks_in_order oldPassword newPassword w :
  (session_of w = EmptyString →
   changePassword oldPassword newPassword w
   = (Return (failure MSG_NOT_AUTHENTICATED), w))
  ∧ (session_of w ≠ EmptyString → String.length newPassword < 8 →
     changePassword oldPassword newPassword w
     = (Return (failure MSG_WEAK_NEW_PASSWORD), w))
  ∧ (∀ l, session_of w ≠ EmptyString → 8 ≤ String.length newPassword →
       users_of w = JArr l →
       findIndex email_key_strict (Str.toLowerCase (session_of w)) l
       = Return None →
       changePassword oldPassword newPassword w
       = (Return (failure MSG_USER_NOT_FOUND), w))
  ∧ (∀ l i m h, session_of w ≠ EmptyString → 8 ≤ String.length newPassword →
       registered w (session_of w) l i m →
       sha256Hex oldPassword = Return h →
       m !! "passHash" ≠ Some (JStr h) →
       changePassword oldPassword newPassword w
       = (Return (failure MSG_WRONG_CURRENT_PASSWORD), w))
  ∧ (∀ l i m h h', session_of w ≠ EmptyString → 8 ≤ String.length newPassword →
       registered w (session_of w) l i m →
       sha256Hex oldPassword = Return h →
       m !! "passHash" = Some (JStr h) →
       sha256Hex newPassword = Return h' →
       changePassword oldPassword newPassword w
       = (Return ok_true,
          write USERS_KEY
            (JSON_stringify
               (JArr (<[i := JObj (<["passHash" := JStr h']> m)]> l))) w))
  ∧ ∀ r w', changePassword oldPassword newPassword w = (Return r, w') →
      (w' = w
       ∧ r ∈ [ failure MSG_NOT_AUTHENTICATED; failure MSG_WEAK_NEW_PASSWORD;
               failure MSG_USER_NOT_FOUND; failure MSG_WRONG_CURRENT_PASSWORD ])
      ∨ (r = ok_true ∧ ∃ text, w' = write USERS_KEY text w).
Proof.
  split; [|split; [|split; [|split; [|split]]]].
  - intros Hs. unfold changePassword.
    rewrite (bind_Return _ _ w _ w (run_getSessionEmail w)). by rewrite Hs.
  - intros Hs%StrFacts.nonempty_true Hlen%Nat.ltb_lt. unfold changePassword.
    rewrite (bind_Return _ _ w _ w (run_getSessionEmail w)).
    rewrite Hs. cbn [negb]. cbv iota zeta. by rewrite Hlen.
  - intros l Hs%StrFacts.nonempty_true Hlen%Nat.ltb_ge Hu Hnone.
    unfold changePassword.
    rewrite (bind_Return _ _ w _ w (run_getSessionEmail w)).
    rewrite Hs. cbn [negb]. cbv iota zeta. rewrite Hlen.
    rewrite (bind_Return _ _ w _ w (run_getUsers w)), Hu.
    rewrite (bind_Return _ _ w l w) by reflexivity.
    by rewrite (bind_Return _ _ w None w) by (unfold lift; by rewrite Hnone).
  - intros l i m h Hs Hlen Hreg Hh Hpass.
    rewrite (changePassword_found _ _ w l i m) by done.
    rewrite (bind_Return _ _ w h w) by (unfold lift; by rewrite Hh).
    destruct (m !! "passHash") as [[|b|n|stored|l0|m0]|]; try done.
    destruct (String.eqb_spec h stored) as [->|_]; done.
  - intros l i m h h' Hs Hlen Hreg Hh Hpass Hh'.
    rewrite (changePassword_found _ _ w l i m) by done.
    rewrite (bind_Return _ _ w h w) by (unfold lift; by rewrite Hh).
    rewrite Hpass, String.eqb_refl. cbn [negb]. cbv iota zeta.
    by rewrite (bind_Return _ _ w h' w) by (unfold lift; by rewrite Hh').
  - intros r w' H. unfold changePassword in H.
    rewrite (bind_Return _ _ w _ w (run_getSessionEmail w)) in H.
    destruct (Str.nonempty (session_of w)); cbn [negb] in H;
      [|apply ret_inv in H as [-> ->]; left; split; [done|set_solver]].
    cbv iota zeta in H.
    destruct (String.length newPassword <? 8);
      [apply ret_inv in H as [-> ->]; left; split; [done|set_solver]|].
    apply bind_inv in H as (users & w1 & Husers & H).
    rewrite run_getUsers in Husers. injection Husers as <- <-.
    apply bind_inv in H as (l & w1 & Hl & H).
    apply lift_inv in Hl as [Hl ->].
    apply bind_inv in H as (idx & w1 & Hidx & H).
    apply lift_inv in Hidx as [Hidx ->].
    destruct idx as [i|];
      [|apply ret_inv in H as [-> ->]; left; split; [done|set_solver]].
    destruct (l !! i) as [[|b|n|s|l0|m]|] eqn:Hi;
      try (by apply lift_inv in H as [? _]).
    apply bind_inv in H as (h & w1 & Hh & H).
    apply lift_inv in Hh as [Hh ->].
    destruct (negb _);
      [apply ret_inv in H as [-> ->]; left; split; [done|set_solver]|].
    apply bind_inv in H as (h' & w1 & Hh' & H).
    apply lift_inv in Hh' as [Hh' ->].
    apply bind_inv in H as ([] & w1 & Hset & H).
    injection Hset as <-. apply ret_inv in H as [-> ->].
    right. split; [done|]. by eexists.
Qed.

(** X10.  After [changePassword(old, new)] by a logged-in user whose
    stored hash is the hash of [old], [login] with the new password
    succeeds, for the address in any letter case, and [login] with the
    old password is refused as a wrong password (when the two hashes
    differ).  Nothing but the hash of that user changes in the list of
    users. *)
Theorem changePassword_then_login env oldPassword newPassword email w l i m
    uemail h h' :
  session_of w ≠ EmptyString →
  registered w (session_of w) l i m →
  m !! "email" = Some (JStr uemail) →
  m !! "passHash" = Some (JStr h) →
  sha256Hex oldPassword = Return h →
  sha256Hex newPassword = Return h' →
  8 ≤ String.length newPassword →
  isValidEmail (Str.trim email) = true →
  Str.toLowerCase (Str.trim email) = Str.toLowerCase (session_of w) →
  let w1 := write USERS_KEY
              (JSON_stringify
                 (JArr (<[i := JObj (<["passHash" := JStr h']> m)]> l))) w in
  changePassword oldPassword newPassword w = (Return ok_true, w1)
  ∧ (∃ w2, login env email newPassword w1 = (Return ok_true, w2)
           ∧ session_of w2 = uemail)
  ∧ (8 ≤ String.length oldPassword → h ≠ h' →
     login env email oldPassword w1 = (Return (failure MSG_WRONG_PASSWORD), w1)).
Proof.
  intros Hs Hlen_reg Hemail Hpass Hh Hh' Hlen Hvalid Hlow w1.
  pose proof Hlen_reg as (Hu & Hidx & Hi).
  assert (registered w1 (Str.trim email) (<[i := JObj (<["passHash" := JStr h']> m)]> l)
            i (<["passHash" := JStr h']> m)) as Hreg1.
  { split; [apply table_write_eq|]. split.
    - rewrite Hlow, (findIndex_insert _ _ l i (JObj m)); [done|done|].
      simpl. by rewrite lookup_insert_ne.
    - apply list_lookup_insert_eq. by eapply lookup_lt_Some. }
  assert (<["passHash" := JStr h']> m !! "email" = Some (JStr uemail)) as Hemail1
    by (by rewrite lookup_insert_ne).
  split; [|split].
  - rewrite (changePassword_found _ _ w l i m) by done.
    rewrite (bind_Return _ _ w h w) by (unfold lift; by rewrite Hh).
    rewrite Hpass, String.eqb_refl. cbn [negb]. cbv iota zeta.
    by rewrite (bind_Return _ _ w h' w) by (unfold lift; by rewrite Hh').
  - destruct (login_ok_run env email newPassword w1 _ i _ uemail h'
                Hvalid Hlen Hreg1 Hemail1 Hh' (lookup_insert_eq _ _ _))
      as (w2 & m' & Hrun & Hsess & _).
    by exists w2.
  - intros Hlen_old Hne.
    rewrite (login_found env email oldPassword w1 _ i _ uemail) by done.
    rewrite (bind_Return _ _ w1 h w1) by (unfold lift; by rewrite Hh).
    rewrite lookup_insert_eq.
    destruct (String.eqb_spec h h') as [?|_]; done.
Qed.

End Password.

Lemma changePassword_checks_in_order_witness :
  let w := (register (platform := reference_platform true)
              (example_env 0 None) "a@b.com" "password1" empty_world).2 in
  let ghost := write SESSION_KEY "ghost@x.org" w in
  changePassword (platform := reference_platform true) "password9" "password2" w
  = (Return (failure MSG_WRONG_CURRENT_PASSWORD), w)
  ∧ changePassword (platform := reference_platform true)
      "password1" "password2" ghost
    = (Return (failure MSG_USER_NOT_FOUND), ghost)
  ∧ changePassword (platform := reference_platform true) "password1" "short" w
    = (Return (failure MSG_WEAK_NEW_PASSWORD), w).
Proof.
  intros w ghost.
  set (h := SHA256_hex (Platform := reference_platform true) "password1").
  set (m := new_user_fields "a@b.com" h "DLT29GPW" "").
  assert (session_of w ≠ EmptyString) as Hs by (vm_compute; discriminate).
  assert (registered (platform := reference_platform true) w (session_of w)
            [JObj m] 0 m) as Hreg.
  { split; [vm_compute; reflexivity|]. split; vm_compute; reflexivity. }
  destruct (changePassword_checks_in_order (platform := reference_platform true)
              "password9" "password2" w) as (_ & _ & _ & Hwrong & _).
  destruct (changePassword_checks_in_order (platform := reference_platform true)
              "password1" "password2" ghost) as (_ & _ & Hmissing & _).
  destruct (changePassword_checks_in_order (platform := reference_platform true)
              "password1" "short" w) as (_ & Hweak & _).
  split; [|split].
  - apply (Hwrong [JObj m] 0 m
             (SHA256_hex (Platform := reference_platform true) "password9"));
      [exact Hs|simpl; lia|exact Hreg|reflexivity|].
    unfold m. rewrite new_user_passHash. vm_compute. discriminate.
  - apply (Hmissing [JObj m]);
      [vm_compute; discriminate|simpl; lia|vm_compute; reflexivity
      |vm_compute; reflexivity].
  - apply Hweak; [exact Hs|simpl; lia].
Defined.

Lemma changePassword_then_login_witness :
  let w := (register (platform := reference_platform true)
              (example_env 0 None) "a@b.com" "password1" empty_world).2 in
  let run := changePassword (platform := reference_platform true)
               "password1" "password2" w in
  run.1 = Return ok_true
  ∧ (∃ w2, login (platform := reference_platform true) (example_env 1 None)
             "A@B.com" "password2" run.2 = (Return ok_true, w2)
           ∧ session_of w2 = "a@b.com")
  ∧ login (platform := reference_platform true) (example_env 1 None)
      "A@B.com" "password1" run.2
    = (Return (failure MSG_WRONG_PASSWORD), run.2).
Proof.
  intros w run.
  set (h := SHA256_hex (Platform := reference_platform true) "password1").
  set (h' := SHA256_hex (Platform := reference_platform true) "password2").
  set (m := new_user_fields "a@b.com" h "DLT29GPW" "").
  assert (session_of w ≠ EmptyString) as H1 by (vm_compute; discriminate).
  assert (registered (platform := reference_platform true) w (session_of w)
            [JObj m] 0 m) as H2.
  { split; [vm_compute; reflexivity|]. split; vm_compute; reflexivity. }
  assert (m !! "email" = Some (JStr "a@b.com")) as H3 by apply new_user_email.
  assert (m !! "passHash" = Some (JStr h)) as H4 by apply new_user_passHash.
  destruct (changePassword_then_login (platform := reference_platform true)
              (example_env 1 None) "password1" "password2" "A@B.com" w
              [JObj m] 0 m "a@b.com" h h' H1 H2 H3 H4 eq_refl eq_refl)
    as (Hrun & Hnew & Hold).
  - simpl; lia.
  - reflexivity.
  - vm_compute; reflexivity.
  - assert (run.1 = Return ok_true) as Hr by (unfold run; by rewrite Hrun).
    assert (run.2 = write USERS_KEY
                      (JSON_stringify (Platform := reference_platform true)
                         (JArr (<[0 := JObj (<["passHash" := JStr h']> m)]> [JObj m])))
                      w) as Hw by (unfold run; by rewrite Hrun).
    split; [exact Hr|]. rewrite Hw. split; [exact Hnew|].
    apply Hold; [simpl; lia|vm_compute; discriminate].
Defined.

(** ** Profiles, read back *)

Section ProfileReadBack.
Context {platform : Platform}.

(** X11.  What [updateProfile(fields)] stores is what [getMyProfile]
    then returns: a record with the session's address as [email], every
    other field of [fields] with the value given, and every other
    field of the profile stored before that [fields] does not mention,
    with the value it had. *)
Theorem updateProfile_then_getMyProfile fields w pm :
  session_of w ≠ EmptyString →
  session_of w ≠ "__proto__" →
  profiles_of w = JObj pm →
  let e := session_of w in
  ∃ w' record,
    updateProfile fields w = (Return ok_true, w')
    ∧ getMyProfile w' = (Return (Json (JObj record)), w')
    ∧ record !! "email" = Some (JStr e)
    ∧ (∀ name v, name ≠ "email" → spread fields !! name = Some v →
         record !! name = Some v)
    ∧ (∀ name, name ≠ "email" → spread fields !! name = None →
         record !! name = stored_fields pm e !! name).
Proof.
  intros He Hproto Hp e.
  pose proof (updateProfile_run fields w pm He Hp) as Hrun.
  cbv zeta in Hrun. fold e in Hrun.
  set (pm1 := match get_prop pm e with
              | Own v => if truthy v then pm
                         else assign pm e (JObj {[ "email" := JStr e ]})
              | Inherited => pm
              | Missing => assign pm e (JObj {[ "email" := JStr e ]})
              end) in *.
  set (old := match get_prop pm1 e with Own v => spread v | _ => ∅ end) in *.
  set (record := <["email" := JStr e]> (spread fields ∪ old)).
  set (w' := write PROFILE_KEY
               (JSON_stringify (JObj (assign pm1 e (JObj record)))) w) in *.
  assert (∀ name, name ≠ "email" → old !! name = stored_fields pm e !! name)
    as Hold.
  { intros name Hname. unfold old, pm1, stored_fields, get_prop.
    destruct (pm !! e) as [v|] eqn:Hv.
    - destruct (truthy v) eqn:Ht.
      + by rewrite Hv.
      + rewrite assign_lookup_eq by done. simpl.
        by rewrite lookup_singleton_ne.
    - destruct (is_builtin_key e); [by rewrite Hv|].
      rewrite assign_lookup_eq by done. simpl.
      by rewrite lookup_singleton_ne. }
  exists w', record. split; [exact Hrun|]. split; [|split; [|split]].
  - assert (session_of w' = e) as Hs' by (apply session_write_ne; keys).
    rewrite (getMyProfile_run w' (assign pm1 e (JObj record))).
    + rewrite Hs'. unfold get_prop. by rewrite assign_lookup_eq.
    + by rewrite Hs'.
    + apply table_write_eq.
  - apply lookup_insert_eq.
  - intros name v Hname Hv. unfold record.
    rewrite lookup_insert_ne by done. by apply lookup_union_Some_l.
  - intros name Hname Hv. unfold record.
    rewrite lookup_insert_ne by done.
    rewrite lookup_union_r by done. by apply Hold.
Qed.

End ProfileReadBack.

Lemma updateProfile_then_getMyProfile_witness :
  let w := (register (platform := reference_platform true)
              (example_env 0 None) "a@b.com" "password1" empty_world).2 in
  let fields :=
    JObj (<["email" := JStr "eve@x.org"]> {[ "phone" := JStr "123" ]}) in
  ∃ w' record,
    updateProfile (platform := reference_platform true) fields w
    = (Return ok_true, w')
    ∧ getMyProfile (platform := reference_platform true) w'
      = (Return (Json (JObj record)), w')
    ∧ record !! "email" = Some (JStr "a@b.com")
    ∧ record !! "phone" = Some (JStr "123")
    ∧ record !! "lastName" = Some (JStr "").
Proof.
  intros w fields.
  assert (session_of w ≠ EmptyString) as H1 by (vm_compute; discriminate).
  assert (session_of w ≠ "__proto__") as H2 by (vm_compute; discriminate).
  assert (profiles_of (platform := reference_platform true) w
          = JObj {[ "a@b.com" := initial_profile "a@b.com" ]}) as H3
    by (vm_compute; reflexivity).
  destruct (updateProfile_then_getMyProfile (platform := reference_platform true)
              fields w _ H1 H2 H3)
    as (w' & record & Hrun & Hget & Hemail & Hgiven & Hkept).
  exists w', record. split; [exact Hrun|]. split; [exact Hget|].
  split; [exact Hemail|]. split.
  - apply Hgiven; [discriminate|vm_compute; reflexivity].
  - rewrite Hkept; [vm_compute; reflexivity|discriminate|vm_compute; reflexivity].
Defined.

(** ** The history of exchanges *)

Section History.
Context {platform : Platform}.

Lemma addExchange_run record w h :
  session_of w ≠ EmptyString →
  history_of w = JArr h →
  addExchange record w
  = (Return ok_true,
     write HISTORY_KEY
       (JSON_stringify
          (JArr (JObj (<["email" := JStr (session_of w)]> (spread record)) :: h)))
       w).
Proof.
  intros Hs%StrFacts.nonempty_true Hh. unfold addExchange.
  rewrite (bind_Return _ _ w _ w (run_getSessionEmail w)).
  rewrite Hs. cbn [negb]. cbv iota.
  rewrite (bind_Return _ _ w _ w (run_getHistory w)), Hh.
  by rewrite (bind_Return _ _ w h w) by reflexivity.
Qed.

Lemma getMyHistory_run w h :
  session_of w ≠ EmptyString →
  history_of w = JArr h →
  Forall (λ x, is_Some (email_of x)) h →
  getMyHistory w
  = (Return (JArr (List.filter (owned_by (Str.toLowerCase (session_of w))) h)), w).
Proof.
  intros Hs%StrFacts.nonempty_true Hh Hall. unfold getMyHistory.
  rewrite (bind_Return _ _ w _ w (run_getSessionEmail w)).
  rewrite Hs. cbn [negb]. cbv iota.
  rewrite (bind_Return _ _ w _ w (run_getHistory w)), Hh.
  rewrite (bind_Return _ _ w h w) by reflexivity.
  by rewrite (bind_Return _ _ w _ w)
    by (unfold lift; by rewrite filter_key_owned).
Qed.

(** X12.  With a session, [addExchange(record)] puts one record at the
    head of the stored history and keeps every record that was there:
    the history is never truncated (unlike the lists of the ledger).
    The record stored has the fields of [record], except that its
    [email] is the session's address, whatever [record] says.  When
    the stored history is JSON of another kind than a list,
    [addExchange] throws and writes nothing. *)
Theorem addExchange_prepends_and_keeps_all record w :
  session_of w ≠ EmptyString →
  let e := session_of w in
  (∀ h, history_of w = JArr h →
     ∃ w' stored,
       addExchange record w = (Return ok_true, w')
       ∧ history_of w' = JArr (JObj stored :: h)
       ∧ stored !! "email" = Some (JStr e)
       ∧ (∀ name, name ≠ "email" → stored !! name = spread record !! name)
       ∧ journal w' = journal w ++ [SetItem HISTORY_KEY (JSON_stringify (JArr (JObj stored :: h)))])
  ∧ ((∀ h, history_of w ≠ JArr h) → addExchange record w = (Throw, w)).
Proof.
  intros Hs e. split.
  - intros h Hh. eexists _, _. split; [by apply addExchange_run|].
    split; [apply table_write_eq|]. split; [apply lookup_insert_eq|].
    split; [|done]. intros name Hname. by apply lookup_insert_ne.
  - intros Hnot. apply StrFacts.nonempty_true in Hs. unfold addExchange.
    rewrite (bind_Return _ _ w _ w (run_getSessionEmail w)).
    rewrite Hs. cbn [negb]. cbv iota.
    rewrite (bind_Return _ _ w _ w (run_getHistory w)).
    apply bind_Throw. unfold lift.
    destruct (history_of w) as [| | | |h|]; try done. by destruct (Hnot h).
Qed.

(** X13.  [getMyHistory] returns the records of the stored history
    whose address is the session's address up to letter case, in the
    stored order, and nothing else; it writes nothing.  So the record
    that [addExchange] has just stored comes first, and a record stored
    in the session of another address is not returned. *)
Theorem getMyHistory_returns_own_records w h :
  session_of w ≠ EmptyString →
  history_of w = JArr h →
  Forall (λ x, is_Some (email_of x)) h →
  let mine := List.filter (owned_by (Str.toLowerCase (session_of w))) h in
  getMyHistory w = (Return (JArr mine), w)
  ∧ (∀ x, x ∈ mine ↔
       x ∈ h ∧ ∃ s, email_of x = Some s
                    ∧ Str.toLowerCase s = Str.toLowerCase (session_of w))
  ∧ (∀ record,
       let w' := (addExchange record w).2 in
       ∃ stored, getMyHistory w' = (Return (JArr (JObj stored :: mine)), w')
                 ∧ stored !! "email" = Some (JStr (session_of w)))
  ∧ (∀ other w2, session_of w2 = other → other ≠ EmptyString →
       Str.toLowerCase other ≠ Str.toLowerCase (session_of w) →
       history_of w2 = JArr h →
       ∀ x, x ∈ mine → ∀ theirs, getMyHistory w2 = (Return (JArr theirs), w2) →
       x ∉ theirs).
Proof.
  intros Hs Hh Hall mine.
  assert (∀ t x, x ∈ List.filter (owned_by t) h ↔
                 x ∈ h ∧ ∃ s, email_of x = Some s ∧ Str.toLowerCase s = t)
    as Hfilter.
  { intros t x. rewrite !list_elem_of_In, filter_In, <- list_elem_of_In.
    unfold owned_by. split.
    - intros [Hin Hown]. split; [done|].
      destruct (email_of x) as [s|]; [|done].
      exists s. split; [done|]. by apply String.eqb_eq.
    - intros [Hin (s & -> & <-)]. split; [done|]. apply String.eqb_refl. }
  split; [by apply getMyHistory_run|]. split; [apply Hfilter|]. split.
  - intros record w'. unfold w'. rewrite (addExchange_run record w h Hs Hh).
    cbn [snd].
    set (stored := <["email" := JStr (session_of w)]> (spread record)).
    set (w1 := write HISTORY_KEY (JSON_stringify (JArr (JObj stored :: h))) w).
    assert (session_of w1 = session_of w) as Hs1 by (apply session_write_ne; keys).
    exists stored. split; [|apply lookup_insert_eq].
    rewrite (getMyHistory_run w1 (JObj stored :: h)).
    + rewrite Hs1. cbn [List.filter]. unfold owned_by at 1. simpl.
      unfold stored. by rewrite lookup_insert_eq, String.eqb_refl.
    + by rewrite Hs1.
    + apply table_write_eq.
    + constructor; [|done]. simpl. unfold stored. rewrite lookup_insert_eq. eauto.
  - intros other w2 Hother Hne Hlow Hh2 x Hx theirs Hrun.
    rewrite (getMyHistory_run w2 h) in Hrun by (by rewrite ?Hother).
    injection Hrun as <-. rewrite Hother.
    intros (_ & s & Hs1 & Hs2)%Hfilter.
    apply Hfilter in Hx as (_ & s' & Hs1' & Hs2').
    rewrite Hs1 in Hs1'. injection Hs1' as <-. congruence.
Qed.

End History.

Lemma addExchange_prepends_and_keeps_all_witness :
  let w := write SESSION_KEY "a@b.com" empty_world in
  let record := JObj (<["email" := JStr "x@y.zz"]> {[ "amount" := JNum 5 ]}) in
  session_of w ≠ EmptyString
  ∧ ∃ w' stored,
      addExchange (platform := reference_platform true) record w
      = (Return ok_true, w')
      ∧ history_of (platform := reference_platform true) w' = JArr [JObj stored]
      ∧ stored !! "email" = Some (JStr "a@b.com").
Proof.
  intros w record.
  assert (session_of w ≠ EmptyString) as H1 by (vm_compute; discriminate).
  split; [exact H1|].
  destruct (addExchange_prepends_and_keeps_all
              (platform := reference_platform true) record w H1) as [Hok _].
  destruct (Hok [] eq_refl) as (w' & stored & Hrun & Hh & Hemail & _).
  exists w', stored. exact (conj Hrun (conj Hh Hemail)).
Defined.

Lemma getMyHistory_returns_own_records_witness :
  let mine := JObj (<["email" := JStr "A@b.com"]> {[ "amount" := JNum 5 ]}) in
  let theirs := JObj (<["email" := JStr "c@d.org"]> {[ "amount" := JNum 7 ]}) in
  let w := write SESSION_KEY "a@b.com"
             (write HISTORY_KEY (Codec.JSON_stringify (JArr [theirs; mine]))
                empty_world) in
  getMyHistory (platform := reference_platform true) w
  = (Return (JArr [mine]), w).
Proof.
  intros mine theirs w.
  assert (session_of w ≠ EmptyString) as H1 by (vm_compute; discriminate).
  assert (history_of (platform := reference_platform true) w
          = JArr [theirs; mine]) as H2 by (vm_compute; reflexivity).
  assert (Forall (λ x, is_Some (email_of x)) [theirs; mine]) as H3.
  { repeat constructor; simpl; rewrite lookup_insert_eq; eauto. }
  exact (proj1 (getMyHistory_returns_own_records
                  (platform := reference_platform true) w _ H1 H2 H3)).
Defined.

(** ** The referral code and the summary of the logged-in user *)

Section MyCode.
Context {platform : Platform}.

Lemma registered_unique w e l i m l' i' m' :
  registered w e l i m → registered w e l' i' m' → l' = l ∧ i' = i ∧ m' = m.
Proof.
  intros (Hu & Hidx & Hi) (Hu' & Hidx' & Hi').
  rewrite Hu in Hu'. injection Hu' as <-.
  rewrite Hidx in Hidx'. injection Hidx' as <-.
  rewrite Hi in Hi'. by injection Hi' as <-.
Qed.

(** X14.  On a well-formed store with a session, [getMyRefCode] returns
    the referral code of the session's user: a string that is not
    empty and that the user's stored record carries when the call
    returns.  The session stays, and a second call returns the same
    code. *)
Theorem getMyRefCode_returns_stored_code env env' w :
  well_formed w →
  session_of w ≠ EmptyString →
  ∃ c w',
    getMyRefCode env w = (Return (JStr c), w')
    ∧ c ≠ EmptyString
    ∧ session_of w' = session_of w
    ∧ (∃ l i m, registered w' (session_of w) l i m
                ∧ m !! "refCode" = Some (JStr c))
    ∧ (getMyRefCode env' w').1 = Return (JStr c).
Proof.
  intros Hwf Hs.
  destruct (getMyRefCode_wf env w Hwf) as (c & w' & Hrun & Hwf' & _ & Hsome).
  destruct (Hsome Hs) as (Hc & Hs' & (l & i & m & Hreg & Hm) & _).
  exists c, w'. repeat (split; [done|]). split; [by exists l, i, m|].
  destruct (getMyRefCode_wf env' w' Hwf')
    as (c2 & w2 & Hrun2 & _ & _ & Hsome2).
  rewrite Hs' in Hsome2.
  destruct (Hsome2 Hs) as (_ & _ & (l2 & i2 & m2 & Hreg2 & Hm2) & Hkept).
  rewrite Hrun2. simpl. do 2 f_equal.
  rewrite (Hkept l i m Hreg (has_refCode_str m c Hm Hc)) in Hreg2.
  assert (registered (write SESSION_KEY (session_of w) w') (session_of w) l i m)
    as Hreg'.
  { destruct Hreg as (Hu & Hidx & Hi). split; [|done].
    unfold users_of. rewrite table_write_ne by keys. exact Hu. }
  destruct (registered_unique _ _ _ _ _ _ _ _ Hreg' Hreg2) as (_ & _ & ->).
  congruence.
Qed.

(** X15.  On a well-formed store [getMyRefSummary] returns, and its
    summary agrees with the ledger: the code is the one [getMyRefCode]
    returns, the two counts are the lengths of the lists that
    [getRefStatsFor] returns for that code (500 at most), the recent
    records are the first 10 of each list, and the link is
    [buildRefLink] of the code. *)
Theorem getMyRefSummary_agrees_with_ledger env site w :
  well_formed w →
  ∃ c clicks regs w',
    getMyRefSummary env site w
    = (Return (summary c (buildRefLink site c) clicks regs), w')
    ∧ getMyRefCode env w = (Return (JStr c), w')
    ∧ getRefStatsFor c w' = (Return (stats (JArr clicks) (JArr regs)), w')
    ∧ List.length clicks ≤ 500 ∧ List.length regs ≤ 500.
Proof.
  intros Hwf.
  destruct (getMyRefCode_wf env w Hwf) as (c & w1 & Hrun & Hwf1 & _).
  destruct (getRefStatsFor_wf c w1 Hwf1) as (cl & rl & Hstats & Hcl & Hrl).
  exists c, cl, rl, w1. split; [|done].
  unfold getMyRefSummary. rewrite (bind_Return _ _ w _ w1 Hrun).
  rewrite (bind_Return _ _ w1 _ w1 Hstats).
  unfold bind, lift, stats. simpl.
  rewrite lookup_insert_eq, lookup_insert_ne, lookup_singleton_eq by done.
  reflexivity.
Qed.

End MyCode.

Lemma getMyRefCode_returns_stored_code_witness :
  let w := (register (platform := reference_platform true)
              (example_env 0 None) "a@b.com" "password1" empty_world).2 in
  well_formed (platform := reference_platform true) w
  ∧ session_of w ≠ EmptyString
  ∧ ∃ c w',
      getMyRefCode (platform := reference_platform true) (example_env 1 None) w
      = (Return (JStr c), w')
      ∧ c ≠ EmptyString.
Proof.
  intros w.
  assert (well_formed (platform := reference_platform true) w) as Hwf.
  { apply (perform_wf (platform := reference_platform true)
             (Register (example_env 0 None) "a@b.com" "password1")
             empty_world wf_fresh). }
  assert (session_of w ≠ EmptyString) as Hs by (vm_compute; discriminate).
  split; [exact Hwf|]. split; [exact Hs|].
  destruct (getMyRefCode_returns_stored_code (platform := reference_platform true)
              (example_env 1 None) (example_env 2 None) w Hwf Hs)
    as (c & w' & Hrun & Hc & _).
  exists c, w'. exact (conj Hrun Hc).
Defined.

Lemma getMyRefSummary_agrees_with_ledger_witness :
  let site := {| origin := "null"; index_url := λ _, None |} in
  let w := (register (platform := reference_platform true)
              (example_env 0 None) "a@b.com" "password1" empty_world).2 in
  well_formed (platform := reference_platform true) w
  ∧ ∃ c clicks regs w',
      getMyRefSummary (platform := reference_platform true)
        (example_env 1 None) site w
      = (Return (summary c (buildRefLink site c) clicks regs), w').
Proof.
  intros site w.
  assert (well_formed (platform := reference_platform true) w) as Hwf.
  { apply (perform_wf (platform := reference_platform true)
             (Register (example_env 0 None) "a@b.com" "password1")
             empty_world wf_fresh). }
  split; [exact Hwf|].
  destruct (getMyRefSummary_agrees_with_ledger
              (platform := reference_platform true)
              (example_env 1 None) site w Hwf)
    as (c & clicks & regs & w' & Hrun & _).
  by exists c, clicks, regs, w'.
Defined.

(** ** The referral link *)

Lemma alphabet_unreserved c :
  in_alphabet c = true → uri_unreserved c = true ∧ Str.is_space c = false.
Proof.
  unfold in_alphabet. intros H%bool_decide_eq_true.
  simpl in H. rewrite !elem_of_cons, elem_of_nil in H.
  repeat (destruct H as [->|H]; [by split|]). done.
Qed.

Lemma encodeURIComponent_plain s :
  all_chars in_alphabet s = true →
  encodeURIComponent s = s ∧ Str.no_space s = true.
Proof.
  induction s as [|c s IH]; [done|]. simpl.
  intros [Hc Hs]%andb_true_iff.
  destruct (alphabet_unreserved c Hc) as [Hu Hsp].
  destruct (IH Hs) as [-> ->]. unfold encode_unit. by rewrite Hu, Hsp.
Qed.

Lemma encode_unit_safe c : all_chars url_safe (encode_unit c) = true.
Proof. destruct c as [[] [] [] [] [] [] [] []]; reflexivity. Qed.

Lemma encodeURIComponent_safe s :
  all_chars url_safe (encodeURIComponent s) = true.
Proof.
  induction s as [|c s IH]; [done|]. simpl.
  by rewrite all_chars_app, encode_unit_safe, IH.
Qed.

(** X16.  For a blank code [buildRefLink] returns the empty string.  On
    a page without an origin (opened from a file), or whose address is
    no base for a URL, the link is [index.html?ref=] followed by the
    trimmed code as [encodeURIComponent] writes it: letters, digits,
    [-_.!~*'()] and percent signs only, so that nothing in it ends or
    splits the query.  A code made of symbols of the alphabet of
    [generateRefCode] is written as it is: nothing in it needs
    escaping. *)
Theorem buildRefLink_of_plain_code site code :
  (Str.trim code = EmptyString → buildRefLink site code = EmptyString)
  ∧ (Str.trim code ≠ EmptyString →
     origin site = EmptyString ∨ origin site = "null"
     ∨ index_url site (Str.trim code) = None →
     buildRefLink site code
     = "index.html?ref=" +:+ encodeURIComponent (Str.trim code)
     ∧ all_chars url_safe (encodeURIComponent (Str.trim code)) = true)
  ∧ (code ≠ EmptyString → all_chars in_alphabet code = true →
     Str.trim code = code ∧ encodeURIComponent code = code).
Proof.
  split; [|split].
  - intros Hblank. unfold buildRefLink. by rewrite Hblank.
  - intros Hne%StrFacts.nonempty_true Hsite.
    split; [|apply encodeURIComponent_safe].
    unfold buildRefLink. rewrite Hne. cbn [negb].
    destruct Hsite as [-> | [-> | Hurl]]; [done|done|].
    rewrite Hurl. by destruct (negb _ || _).
  - intros Hne Hall.
    destruct (encodeURIComponent_plain code Hall) as [Henc Hsp].
    split; [by apply StrFacts.trim_no_space|done].
Qed.

(** ** The ledger, code by code and list by list *)

Section LedgerSeparation.
Context {platform : Platform}.





End LedgerSeparation.


(** ** Arriving through a referral link *)

Section Arriving.
Context {platform : Platform}.

(** X18.  When the page is opened with a [ref] parameter that is not
    empty, [initRefFromUrl] stages the trimmed code, whatever the store
    holds and whatever happens afterwards: the staging comes first,
    nothing after it touches the staging slot, and an exception is
    swallowed.  Without the parameter, or with an empty one, nothing
    is written. *)
Theorem initRefFromUrl_always_stages env w :
  (initRefFromUrl env w).1 ≠ Throw
  ∧ (∀ code, ref_param env = Some code → code ≠ EmptyString →
       storage (initRefFromUrl env w).2 !! INCOMING_REF_KEY
       = Some (Str.trim code)
       ∧ incoming_of (initRefFromUrl env w).2 = Str.trim code)
  ∧ (ref_param env = None ∨ ref_param env = Some EmptyString →
     initRefFromUrl env w = (Return tt, w)).
Proof.
  split; [|split].
  - unfold initRefFromUrl, try_catch.
    by destruct (_ w) as [[[]| |] w1].
  - intros code Hparam Hcode.
    pose proof (initRefFromUrl_keeps_staged env code w Hparam Hcode) as Hkept.
    split; [done|]. unfold incoming_of. rewrite Hkept. simpl.
    destruct (Str.trim code) eqn:E; simpl; [done|].
    rewrite <- E. apply StrFacts.trim_idem.
  - intros [Hnone|Hempty]; unfold initRefFromUrl, try_catch.
    + by rewrite Hnone.
    + by rewrite Hempty.
Qed.


(** The defect behind claim C6, in general.  The viewer is logged in
    and the [ref] parameter is the viewer's own code with white space
    around it: the guard compares the parameter as given and lets it
    pass, and the click is recorded under the trimmed parameter, which
    is the viewer's own code. *)
Lemma initRefFromUrl_counts_padded_own_code env w code m clicks :
  ref_param env = Some code →
  session_of w ≠ EmptyString →
  viewer_record w m →
  m !! "refCode" = Some (JStr (Str.trim code)) →
  Str.trim code ≠ EmptyString →
  code ≠ Str.trim code →
  ledger_list w (Str.trim code) "clicks" clicks →
  ∃ w',
    initRefFromUrl env w = (Return tt, w')
    ∧ incoming_of w' = Str.trim code
    ∧ ledger_list w' (Str.trim code) "clicks"
        (take 500 (click_record env :: clicks)).
Proof.
  intros Hparam He (l & i & Hu & Hidx & Hi) Hm Hc Hpad
    (lm & em & Hlog & Hentry & Hcl).
  assert (Str.nonempty code = true) as Hcode by (by destruct code).
  set (w0 := write INCOMING_REF_KEY (Str.trim code) w).
  assert (session_of w0 = session_of w) as Hs0
    by (apply session_write_ne; keys).
  assert (users_of w0 = JArr l) as Hu0.
  { unfold users_of, w0. rewrite table_write_ne by keys. exact Hu. }
  assert (reflog_of w0 = JObj lm) as Hlog0.
  { unfold reflog_of, w0. rewrite table_write_ne by keys. exact Hlog. }
  pose proof Hidx as Hfound. apply findIndex_Some in Hfound
    as (x & Hx & Hkey & _).
  rewrite Hi in Hx. injection Hx as <-.
  apply email_key_strict_inv in Hkey as (m' & uemail & [= <-] & Hemail & Hlow).
  assert (has_refCode m = true) as Hhas.
  { apply (has_refCode_str m (Str.trim code)); done. }
  eexists. split.
  - unfold initRefFromUrl, try_catch. rewrite Hparam, Hcode.
    cbn [negb]. cbv iota.
    rewrite (bind_Return _ _ w tt w0) by reflexivity.
    rewrite (bind_Return _ _ w0 _ w0
               (getCurrentUser_present env w0 l i m uemail
                  ltac:(by rewrite Hs0) Hu0 ltac:(by rewrite Hs0) Hi Hemail Hhas)).
    cbv beta iota.
    rewrite (bind_Return _ _ w0 false w0).
    { by rewrite (recordRefClick_run env code w0 lm em clicks). }
    rewrite (bind_Return _ _ w0 _ w0 (run_getUsers w0)), Hu0.
    cbn [v_email].
    rewrite (bind_Return _ _ w0 _ w0
               (ensureUserRefCode_present env l i m uemail w0
                  ltac:(rewrite <- Hlow; by apply findIndex_lenient_strict)
                  Hi Hhas)).
    rewrite Hm.
    destruct (String.eqb_spec (Str.trim code) code) as [Heq|_]; [by symmetry in Heq|].
    by rewrite andb_false_r.
  - split.
    + rewrite incoming_write_ne by keys. apply incoming_write.
    + eexists _, _. split; [apply table_write_eq|].
      split; [by eapply entry_for_assign|apply lookup_insert_eq].
Qed.

End Arriving.


(** ** After a registration *)

Section AfterRegister.
Context {platform : Platform}.



Lemma registered_world_profiles e users pm w_r :
  profiles_of (registered_world e users pm w_r) = JObj (init_profile pm e).
Proof.
  unfold registered_world, profiles_of.
  rewrite table_write_ne by keys. apply table_write_eq.
Qed.


Lemma registered_world_incoming e users pm w_r :
  incoming_of (registered_world e users pm w_r) = incoming_of w_r.
Proof.
  unfold registered_world. by rewrite !incoming_write_ne by keys.
Qed.



(** X22.  On a well-formed store the session never dangles: with a
    session [requireAuth] returns [true] and sends the visitor nowhere,
    and without one it returns [false] and sends the visitor to the
    page given ([./login.html] by default).  The session stays as it
    is. *)
Theorem requireAuth_passes_iff_session env redirectTo w :
  well_formed w →
  ∃ w',
    requireAuth env redirectTo w
    = (Return (if Str.nonempty (session_of w) then (true, None)
               else (false, Some (default "./login.html" redirectTo))), w')
    ∧ session_of w' = session_of w
    ∧ well_formed w'.
Proof.
  intros Hwf.
  destruct (getCurrentUser_wf env w Hwf) as (r & w1 & Hrun & Hwf1 & Hframe & Hr).
  exists w1. unfold requireAuth. rewrite (bind_Return _ _ w r w1 Hrun).
  assert (session_of w1 = session_of w) as Hs.
  { unfold session_of. by rewrite Hframe by keys. }
  destruct r as [v|].
  - destruct Hr as (Hsess & Hne & _).
    rewrite Hsess. apply StrFacts.nonempty_true in Hne. rewrite Hne.
    by rewrite <- Hsess.
  - destruct Hr as [Hempty ->]. by rewrite Hempty.
Qed.

End AfterRegister.



Lemma requireAuth_passes_iff_session_witness :
  let w := (register (platform := reference_platform true)
              (example_env 0 None) "a@b.com" "password1" empty_world).2 in
  well_formed (platform := reference_platform true) w
  ∧ ∃ w',
      requireAuth (platform := reference_platform true)
        (example_env 1 None) None w = (Return (true, None), w').
Proof.
  intros w.
  assert (well_formed (platform := reference_platform true) w) as Hwf.
  { apply (perform_wf (platform := reference_platform true)
             (Register (example_env 0 None) "a@b.com" "password1")
             empty_world wf_fresh). }
  split; [exact Hwf|].
  destruct (requireAuth_passes_iff_session (platform := reference_platform true)
              (example_env 1 None) None w Hwf) as (w' & Hrun & _).
  exists w'. exact Hrun.
Defined.

(** ** The fallback checksum as a password hash *)

Lemma checksum_loop_app s t : ∀ h,
  checksum_loop h (s +:+ t) = checksum_loop (checksum_loop h s) t.
Proof.
  induction s as [|c s IH]; intros h; [done|].
  rewrite ReFacts.append_cons. simpl. apply IH.
Qed.

Lemma checksum_two_steps (h a b : Z) :
  (((h * 31 + a) `mod` 2 ^ 32 * 31 + b) `mod` 2 ^ 32
   = (h * 961 + (a * 31 + b)) `mod` 2 ^ 32)%Z.
Proof.
  rewrite <- Z.add_mod_idemp_l, Z.mul_mod_idemp_l, Z.add_mod_idemp_l by lia.
  f_equal. lia.
Qed.

Lemma checksum_loop_Aa_BB h t :
  checksum_loop h ("Aa" +:+ t) = checksum_loop h ("BB" +:+ t).
Proof.
  rewrite !checksum_loop_app. f_equal.
  cbn [checksum_loop]. by rewrite !checksum_two_steps.
Qed.

Section WeakHash.
Context {platform : Platform}.

(** X23.  Without [crypto.subtle] the stored hash does not tell apart
    passwords that differ by [Aa] against [BB] at any place (both add
    the same amount to the checksum): the two have the same hash, and a
    user registered with the one logs in with the other. *)
Theorem fallback_login_accepts_colliding_password env email before after w l i
    m uemail h :
  crypto_subtle = false →
  isValidEmail (Str.trim email) = true →
  8 ≤ String.length (before +:+ "BB" +:+ after) →
  registered w (Str.trim email) l i m →
  m !! "email" = Some (JStr uemail) →
  sha256Hex (before +:+ "Aa" +:+ after) = Return h →
  m !! "passHash" = Some (JStr h) →
  sha256Hex (before +:+ "BB" +:+ after) = Return h
  ∧ ∃ w', login env email (before +:+ "BB" +:+ after) w = (Return ok_true, w')
          ∧ session_of w' = uemail.
Proof.
  intros Hno Hvalid Hlen Hreg Hemail Hh Hpass.
  assert (sha256Hex (before +:+ "BB" +:+ after) = Return h) as Hh'.
  { rewrite <- Hh. unfold sha256Hex. rewrite Hno.
    by rewrite !(checksum_loop_app before), checksum_loop_Aa_BB. }
  split; [done|].
  destruct (login_ok_run env email _ w l i m uemail h
              Hvalid Hlen Hreg Hemail Hh' Hpass)
    as (w' & m' & Hrun & Hs & _).
  by exists w'.
Qed.

End WeakHash.

Lemma fallback_login_accepts_colliding_password_witness :
  let w := (register (platform := reference_platform false)
              (example_env 0 None) "a@b.com" "AaAaAaAa" empty_world).2 in
  crypto_subtle (Platform := reference_platform false) = false
  ∧ ∃ w', login (platform := reference_platform false) (example_env 1 None)
            "a@b.com" "AaBBAaAa" w = (Return ok_true, w')
          ∧ session_of w' = "a@b.com".
Proof.
  intros w. split; [reflexivity|].
  set (h := "fallback_" +:+ toString16 (checksum_loop 0 "AaAaAaAa")).
  set (m := new_user_fields "a@b.com" h "DLT29GPW" "").
  assert (registered (platform := reference_platform false) w
            (Str.trim "a@b.com") [JObj m] 0 m) as Hreg.
  { split; [vm_compute; reflexivity|]. split; vm_compute; reflexivity. }
  destruct (fallback_login_accepts_colliding_password
              (platform := reference_platform false) (example_env 1 None)
              "a@b.com" "Aa" "AaAa" w [JObj m] 0 m "a@b.com" h
              eq_refl eq_refl)
    as [_ Hlogin].
  - simpl; lia.
  - exact Hreg.
  - apply new_user_email.
  - reflexivity.
  - apply new_user_passHash.
  - exact Hlogin.
Defined.

(** ** A user record without an address *)

Section BrokenRecord.
Context {platform : Platform}.

Lemma findIndex_from_throws key target before x after : ∀ k,
  Forall (passes key target) before →
  key x = Throw →
  findIndex_from key target k (before ++ x :: after) = Throw.
Proof.
  induction before as [|y before IH]; intros k Hpass Hx; simpl.
  - by rewrite Hx.
  - apply Forall_cons in Hpass as [(ky & Hy & Hne) Hpass]. rewrite Hy.
    destruct (String.eqb_spec ky target) as [?|_]; [done|]. by apply IH.
Qed.

(** X24.  The searches of [login], [register], [changePassword] and
    [getCurrentUser] read [x.email.toLowerCase()] on every record up to
    the one they look for.  A stored record that is [null], or has no
    [email], or an [email] that is not a string, therefore blocks every
    account that is not found before it: for such an address the four
    operations throw, and write nothing. *)
Theorem record_without_email_blocks_later_accounts env email password
    oldPassword newPassword w before x after :
  users_of w = JArr (before ++ x :: after) →
  email_key_strict x = Throw →
  (isValidEmail (Str.trim email) = true → 8 ≤ String.length password →
   Forall (passes email_key_strict (Str.toLowerCase (Str.trim email))) before →
   login env email password w = (Throw, w)
   ∧ register env email password w = (Throw, w))
  ∧ (session_of w ≠ EmptyString →
     Forall (passes email_key_strict (Str.toLowerCase (session_of w))) before →
     getCurrentUser env w = (Throw, w)
     ∧ (8 ≤ String.length newPassword →
        changePassword oldPassword newPassword w = (Throw, w))).
Proof.
  intros Hu Hx. split.
  - intros Hvalid Hlen%Nat.ltb_ge Hpass.
    pose proof (findIndex_from_throws _ _ before x after 0 Hpass Hx) as Hthrow.
    split.
    + unfold login. rewrite Hvalid, Hlen. cbn [negb]. cbv iota.
      rewrite (bind_Return _ _ w _ w (run_getUsers w)), Hu.
      rewrite (bind_Return _ _ w _ w) by reflexivity.
      apply bind_Throw. unfold lift, findIndex. by rewrite Hthrow.
    + unfold register. rewrite Hvalid, Hlen. cbn [negb]. cbv iota.
      rewrite (bind_Return _ _ w _ w (run_getUsers w)), Hu.
      rewrite (bind_Return _ _ w _ w) by reflexivity.
      apply bind_Throw. unfold lift, findIndex. by rewrite Hthrow.
  - intros Hs%StrFacts.nonempty_true Hpass.
    pose proof (findIndex_from_throws _ _ before x after 0 Hpass Hx) as Hthrow.
    split.
    + unfold getCurrentUser.
      rewrite (bind_Return _ _ w _ w (run_getSessionEmail w)).
      rewrite Hs. cbn [negb]. cbv iota.
      rewrite (bind_Return _ _ w _ w (run_getUsers w)), Hu.
      rewrite (bind_Return _ _ w _ w) by reflexivity.
      apply bind_Throw. unfold lift, findIndex. by rewrite Hthrow.
    + intros Hlen%Nat.ltb_ge. unfold changePassword.
      rewrite (bind_Return _ _ w _ w (run_getSessionEmail w)).
      rewrite Hs. cbn [negb]. cbv iota zeta. rewrite Hlen.
      rewrite (bind_Return _ _ w _ w (run_getUsers w)), Hu.
      rewrite (bind_Return _ _ w _ w) by reflexivity.
      apply bind_Throw. unfold lift, findIndex. by rewrite Hthrow.
Qed.

End BrokenRecord.

Lemma record_without_email_blocks_later_accounts_witness :
  let first := new_user "a@b.com" "0123abcd" "ABCDEFGH" "" in
  let broken := JObj {[ "passHash" := JStr "0123abcd" ]} in
  let last := new_user "c@d.org" "0123abcd" "JKLMNPQR" "" in
  let w := write USERS_KEY (Codec.JSON_stringify (JArr [first; broken; last]))
             empty_world in
  login (platform := reference_platform true) (example_env 0 None)
    "c@d.org" "password1" w = (Throw, w)
  ∧ register (platform := reference_platform true) (example_env 0 None)
      "new@d.org" "password1" w = (Throw, w).
Proof.
  intros first broken last w.
  assert (users_of (platform := reference_platform true) w
          = JArr ([first] ++ broken :: [last])) as Hu by (vm_compute; reflexivity).
  assert (email_key_strict broken = Throw) as Hx by reflexivity.
  assert (∀ target, target ≠ "a@b.com" →
            Forall (passes email_key_strict target) [first]) as Hpass.
  { intros target Hne. constructor; [|constructor].
    exists "a@b.com". split; [reflexivity|done]. }
  destruct (record_without_email_blocks_later_accounts
              (platform := reference_platform true) (example_env 0 None)
              "c@d.org" "password1" "" "" w [first] broken [last] Hu Hx)
    as [Hlogin _].
  destruct (record_without_email_blocks_later_accounts
              (platform := reference_platform true) (example_env 0 None)
              "new@d.org" "password1" "" "" w [first] broken [last] Hu Hx)
    as [Hregister _].
  split.
  - apply Hlogin; [reflexivity|simpl; lia|apply Hpass; discriminate].
  - apply Hregister; [reflexivity|simpl; lia|apply Hpass; discriminate].
Defined.

(** ** Calls of [register] that overlap *)

Section Overlap.
Context {platform : Platform}.

Lemma bind_assoc_at {A B C} (m : M A) (f : A → M B) (g : B → M C) w :
  bind (bind m f) g w = bind m (λ a, bind (f a) g) w.
Proof. unfold bind. by destruct (m w) as [[a| |] w1]. Qed.

Lemma bind_lift {A B} (o : outcome A) (k : A → M B) w :
  bind (lift o) k w
  = match o with
    | Return a => k a w
    | Throw => (Throw, w)
    | Unmodelled => (Unmodelled, w)
    end.
Proof. by destruct o. Qed.

(** The two parts of [register], run one after the other, are
    [register]. *)
Lemma register_around_await env email password w :
  register env email password w = register_in_one_go env email password w.
Proof.
  unfold register, register_in_one_go, register_until_await. cbv zeta.
  destruct (negb (isValidEmail (Str.trim email))); [reflexivity|].
  destruct (String.length password <? 8); [reflexivity|].
  rewrite bind_assoc_at.
  rewrite (bind_Return _ _ w _ w (run_getUsers w)).
  rewrite (bind_Return _ _ w _ w (run_getUsers w)).
  rewrite bind_assoc_at, !bind_lift.
  destruct (as_array (users_of w)) as [l| |]; [|done|done].
  rewrite bind_assoc_at, !bind_lift.
  destruct (findIndex email_key_strict (Str.toLowerCase (Str.trim email)) l)
    as [dup| |]; [|done|done].
  by destruct (bool_decide (is_Some dup)).
Qed.

Lemma register_until_await_new email password w l :
  isValidEmail (Str.trim email) = true →
  8 ≤ String.length password →
  users_of w = JArr l →
  findIndex email_key_strict (Str.toLowerCase (Str.trim email)) l
  = Return None →
  register_until_await email password w = (Return (inr l), w).
Proof.
  intros Hvalid Hlen%Nat.ltb_ge Hu Hnone. unfold register_until_await.
  rewrite Hvalid, Hlen. cbn [negb]. cbv iota.
  rewrite (bind_Return _ _ w _ w (run_getUsers w)), Hu.
  rewrite (bind_Return _ _ w l w) by reflexivity.
  rewrite (bind_Return _ _ w None w) by (unfold lift; by rewrite Hnone).
  by rewrite bool_decide_eq_false_2 by (by intros [? ?]).
Qed.

(** The second part of [register] when no referral code is staged: it
    writes the array it was given with the new user appended, whatever
    the list of users has become. *)
Lemma register_from_await_run env email password l w h code w_g pm :
  sha256Hex password = Return h →
  generateRefCode env w = (Return code, w_g) →
  same_store w w_g →
  incoming_of w = EmptyString →
  profiles_of w = JObj pm →
  register_from_await env email password l w
  = (Return ok_true,
     registered_world (Str.trim email)
       (l ++ [new_user (Str.trim email) h code ""]) pm w_g).
Proof.
  intros Hh Hgen Hsame Hinc Hp. unfold register_from_await.
  rewrite (bind_Return _ _ w h w) by (unfold lift; by rewrite Hh).
  rewrite (bind_Return _ _ w code w_g Hgen).
  rewrite (bind_Return _ _ w_g _ w_g (run_getIncomingRef w_g)).
  rewrite (incoming_same_store w w_g Hsame), Hinc. cbn [Str.nonempty]. cbv iota.
  rewrite (bind_Return _ _ w_g tt w_g) by reflexivity.
  erewrite bind_Return; [|reflexivity].
  erewrite bind_Return; [|apply run_getProfile].
  assert (profiles_of
            (write USERS_KEY
               (JSON_stringify
                  (JArr (l ++ [new_user (Str.trim email) h code ""]))) w_g)
          = JObj pm) as ->.
  { unfold profiles_of at 1. rewrite table_write_ne by keys.
    by rewrite (table_same_store _ _ _ w w_g). }
  reflexivity.
Qed.

Lemma init_profile_own pm e :
  isValidEmail e = true → is_Some (init_profile pm e !! e).
Proof.
  intros Hvalid.
  pose proof (valid_email_not_builtin e Hvalid) as Hb.
  assert (e ≠ "__proto__") as Hproto by (intros ->; by vm_compute in Hvalid).
  unfold init_profile, get_prop. rewrite Hb.
  destruct (pm !! e) as [v|] eqn:Hv.
  - destruct (truthy v); [by rewrite Hv|].
    by rewrite assign_lookup_eq.
  - by rewrite assign_lookup_eq.
Qed.

Lemma init_profile_other pm e e' :
  e ≠ e' → init_profile pm e !! e' = pm !! e'.
Proof.
  intros Hne. unfold init_profile.
  destruct (get_prop pm e) as [v| |]; [destruct (truthy v)| |];
    rewrite ?assign_lookup_ne by done; done.
Qed.

Lemma passes_not_email target l s :
  Forall (passes email_key_strict target) l →
  s ∈ emails l → Str.toLowerCase s ≠ target.
Proof.
  intros Hpass (x & Hx & Hs)%elem_of_emails.
  rewrite Forall_forall in Hpass.
  destruct (Hpass x Hx) as (k & Hk & Hne).
  destruct x as [| | | | |m]; try done. simpl in Hs, Hk.
  destruct (m !! "email") as [[| | |s'| |]|]; try done.
  injection Hs as ->. by injection Hk as <-.
Qed.

(** X25.  [register] is its part before the [await] followed by its
    part after it.  Two calls of [register] for two new addresses, the
    second made while the first is at its [await] (two calls in a row,
    none awaited): both pass the checks on the same list of users, and
    both answer [{ ok: true }].  The second writes the list it has read,
    with its own user appended: the user of the first call is no longer
    in the list and cannot log in, while the profile made for that user
    stays.  The store is not well formed. *)
Theorem overlapping_registers_lose_the_first_user
    env1 env2 email1 email2 password1 password2 w l pm :
  users_of w = JArr l →
  profiles_of w = JObj pm →
  incoming_of w = EmptyString →
  isValidEmail (Str.trim email1) = true →
  isValidEmail (Str.trim email2) = true →
  8 ≤ String.length password1 →
  8 ≤ String.length password2 →
  findIndex email_key_strict (Str.toLowerCase (Str.trim email1)) l
  = Return None →
  findIndex email_key_strict (Str.toLowerCase (Str.trim email2)) l
  = Return None →
  Str.toLowerCase (Str.trim email1) ≠ Str.toLowerCase (Str.trim email2) →
  (∀ env email password w0,
     register env email password w0
     = register_in_one_go env email password w0)
  ∧ ∃ w1 w2 h2 code2 pm2,
    register_until_await email1 password1 w = (Return (inr l), w)
    ∧ register_until_await email2 password2 w = (Return (inr l), w)
    ∧ register_from_await env1 email1 password1 l w = (Return ok_true, w1)
    ∧ register_from_await env2 email2 password2 l w1 = (Return ok_true, w2)
    ∧ users_of w2 = JArr (l ++ [new_user (Str.trim email2) h2 code2 ""])
    ∧ session_of w2 = Str.trim email2
    ∧ profiles_of w2 = JObj pm2
    ∧ is_Some (pm2 !! Str.trim email1)
    ∧ (∀ env, login env email1 password1 w2
              = (Return (failure MSG_USER_NOT_FOUND), w2))
    ∧ ¬ well_formed w2.
Proof.
  intros Hu Hp Hinc Hvalid1 Hvalid2 Hlen1 Hlen2 Hnone1 Hnone2 Hdiff.
  split; [apply register_around_await|].
  destruct (sha256Hex_total password1) as [h1 Hh1].
  destruct (sha256Hex_total password2) as [h2 Hh2].
  destruct (generateRefCode_run env1 w) as (code1 & w_g1 & Hgen1 & Hsame1 & _).
  set (e1 := Str.trim email1) in *. set (e2 := Str.trim email2) in *.
  set (w1 := registered_world e1 (l ++ [new_user e1 h1 code1 ""]) pm w_g1).
  destruct (generateRefCode_run env2 w1) as (code2 & w_g2 & Hgen2 & Hsame2 & _).
  set (u2 := new_user e2 h2 code2 "").
  set (w2 := registered_world e2 (l ++ [u2]) (init_profile pm e1) w_g2).
  assert (incoming_of w1 = EmptyString) as Hinc1.
  { unfold w1. rewrite registered_world_incoming.
    by rewrite (incoming_same_store w w_g1 Hsame1). }
  assert (e1 ≠ e2) as Hne by (intros Heq; by rewrite Heq in Hdiff).
  apply findIndex_None in Hnone1 as Hpass1.
  apply findIndex_None in Hnone2 as Hpass2.
  assert (findIndex email_key_strict (Str.toLowerCase e1) (l ++ [u2])
          = Return None) as Hgone.
  { apply findIndex_None, Forall_app. split; [done|].
    constructor; [|constructor].
    exists (Str.toLowerCase e2). split; [apply new_user_key|done]. }
  exists w1, w2, h2, code2, (init_profile (init_profile pm e1) e2).
  split; [by apply register_until_await_new|].
  split; [by apply register_until_await_new|].
  split; [by apply register_from_await_run|].
  split.
  { apply register_from_await_run; try done.
    apply registered_world_profiles. }
  split; [apply registered_world_users|].
  split; [apply registered_world_session|].
  split; [apply registered_world_profiles|].
  split.
  { rewrite init_profile_other by done. by apply init_profile_own. }
  split.
  - intros env. unfold login. fold e1. rewrite Hvalid1.
    apply Nat.ltb_ge in Hlen1. rewrite Hlen1. cbn [negb]. cbv iota.
    rewrite (bind_Return _ _ w2 _ w2 (run_getUsers w2)).
    unfold w2 at 1. rewrite registered_world_users.
    rewrite (bind_Return _ _ w2 _ w2) by reflexivity.
    by rewrite (bind_Return _ _ w2 None w2) by (unfold lift; by rewrite Hgone).
  - intros (l' & pm' & lm & h & Hu' & Hp' & _ & _ & _ & _ & Hprof & _).
    unfold w2 in Hu', Hp'.
    rewrite registered_world_users in Hu'. injection Hu' as <-.
    rewrite registered_world_profiles in Hp'. injection Hp' as <-.
    destruct (init_profile_own pm e1 Hvalid1) as [v Hv].
    rewrite <- (init_profile_other _ e2 e1) in Hv by done.
    destruct (Hprof e1 v Hv) as [Hin _].
    apply (passes_not_email (Str.toLowerCase e1) (l ++ [u2]) e1);
      [by apply findIndex_None|done|done].
Qed.

End Overlap.

Lemma overlapping_registers_lose_the_first_user_witness :
  isValidEmail (Str.trim "a@b.com") = true
  ∧ isValidEmail (Str.trim "c@d.org") = true
  ∧ ∃ w1 w2 h2 code2 pm2,
    register_until_await (platform := reference_platform true)
      "a@b.com" "password1" empty_world = (Return (inr []), empty_world)
    ∧ register_until_await (platform := reference_platform true)
        "c@d.org" "password2" empty_world = (Return (inr []), empty_world)
    ∧ register_from_await (platform := reference_platform true)
        (example_env 0 None) "a@b.com" "password1" [] empty_world
      = (Return ok_true, w1)
    ∧ register_from_await (platform := reference_platform true)
        (example_env 1 None) "c@d.org" "password2" [] w1
      = (Return ok_true, w2)
    ∧ users_of (platform := reference_platform true) w2
      = JArr [new_user "c@d.org" h2 code2 ""]
    ∧ session_of w2 = "c@d.org"
    ∧ profiles_of (platform := reference_platform true) w2 = JObj pm2
    ∧ is_Some (pm2 !! "a@b.com")
    ∧ (∀ env, login (platform := reference_platform true) env
                "a@b.com" "password1" w2
              = (Return (failure MSG_USER_NOT_FOUND), w2))
    ∧ ¬ well_formed (platform := reference_platform true) w2.
Proof.
  split; [reflexivity|]. split; [reflexivity|].
  apply (overlapping_registers_lose_the_first_user
           (platform := reference_platform true)
           (example_env 0 None) (example_env 1 None)
           "a@b.com" "c@d.org" "password1" "password2" empty_world [] ∅);
    try reflexivity; try (simpl; lia); discriminate.
Defined.
